(** * tetris.cpp: the board, the pieces and their moves

    A shallow embedding of the simulation core of [src/tetris.cpp]
    ([Piece::moveTo], [Piece::rotate], [Piece::move], [Piece::removeTile],
    [Board::isRowFull], [Board::collapseFullRows], [Board::update] and the two
    constructors) together with the properties of the specification that
    concern them; then of the painting ([drawTile], [Piece::draw],
    [Board::draw], [Board::drawBorders] and the painting that the functions
    of the core do on their way) and of the loop of [main], with further
    properties of the code.

    Modelling conventions.
    - [int] is [Z].  Every integer of the program is a board coordinate, a
      loop counter or the counter of completed rows; signed overflow is out
      of the model.
    - [std::array<T,4>] is the record [array4]; reading or writing it at an
      index outside [0,4) is undefined behaviour in C++ and gives [None].
    - The 20 x 12 [pieceGrid] is a list of rows.  Its cells are [Piece*]
      pointers into the vector [pieces]; a pointer is modelled by the index of
      the element it points to, [nullptr] by [None].  Reading or writing the
      grid outside its bounds, and following a null or dangling pointer, give
      [None].  The constructor reserves room for [NUM_ROWS * NUM_COLS] pieces,
      and the model takes it that [emplace_back] never moves the elements.
    - A computation is a function into [option]: [None] stands for undefined
      behaviour.  The one unbounded loop of the program, the [while] of
      [collapseFullRows], takes a bound on its number of turns, [fuel], and
      gives [None] too when the bound is reached; [NUM_ROWS] turns are enough
      on every board that has the invariant (lemma [settle_consistent]), and
      more fuel does not change a result (lemma [update_mono]).
    - [std::random_device] is an input: the functions that build a piece take
      the value it returns as the argument [rd].
    - The SDL calls ([drawTile], [Piece::draw], [SDL_RenderPresent]) and the
      game-over message only paint and print; they are left out of the
      functions of the core.  The painting is modelled after them, in the
      part Painting. *)

From stdpp Require Import base option list.
From Stdlib Require Import ZArith Lia.

Local Open Scope Z_scope.

(** ** Constants and plain data *)

Inductive Direction := UP | DOWN | LEFT | RIGHT.

#[global] Instance Direction_eq_dec : EqDecision Direction.
Proof. solve_decision. Defined.

Record Color := mkColor { red : Z; green : Z; blue : Z; alpha : Z }.

Definition BLACK : Color := mkColor 0 0 0 255.
Definition RED : Color := mkColor 255 0 0 255.
Definition GREEN : Color := mkColor 0 255 0 255.
Definition BLUE : Color := mkColor 0 0 255 255.

Definition DEFAULT_COLORS : list Color := [RED; GREEN; BLUE].

Definition NUM_DEFAULT_PIECES : nat := 5.
Definition MAX_HEIGHT : Z := 4.
Definition MAX_WIDTH : Z := 4.
Definition NUM_ROWS : Z := 20.
Definition NUM_COLS : Z := 12.

(** ** [std::array<T, 4>] *)

Record array4 (A : Type) := Array4 { at0 : A; at1 : A; at2 : A; at3 : A }.
Arguments Array4 {A} _ _ _ _.
Arguments at0 {A} _.
Arguments at1 {A} _.
Arguments at2 {A} _.
Arguments at3 {A} _.

Definition get4 {A} (a : array4 A) (i : Z) : option A :=
  match i with
  | 0 => Some (at0 a)
  | 1 => Some (at1 a)
  | 2 => Some (at2 a)
  | 3 => Some (at3 a)
  | _ => None
  end.

Definition set4 {A} (a : array4 A) (i : Z) (x : A) : option (array4 A) :=
  match i with
  | 0 => Some (Array4 x (at1 a) (at2 a) (at3 a))
  | 1 => Some (Array4 (at0 a) x (at2 a) (at3 a))
  | 2 => Some (Array4 (at0 a) (at1 a) x (at3 a))
  | 3 => Some (Array4 (at0 a) (at1 a) (at2 a) x)
  | _ => None
  end.

(** [Piece::TileGridType]: the footprint of a piece. *)
Definition TileGridType : Type := array4 (array4 bool).

(** [tileGrid[r][c]] *)
Definition tg_get (tg : TileGridType) (r c : Z) : option bool :=
  line ← get4 tg r; get4 line c.

(** [tileGrid[r][c] = v] *)
Definition tg_set (tg : TileGridType) (r c : Z) (v : bool) : option TileGridType :=
  line ← get4 tg r; line' ← set4 line c v; set4 tg r line'.

Definition row_of_bits (a b c d : bool) : array4 bool := Array4 a b c d.

(** [TileGridType x = { false }] *)
Definition TILES_FALSE : TileGridType :=
  let z := row_of_bits false false false false in Array4 z z z z.

Definition DEFAULT_PIECES : list TileGridType :=
  [ Array4 (row_of_bits true true true true)
           (row_of_bits false false false false)
           (row_of_bits false false false false)
           (row_of_bits false false false false);
    Array4 (row_of_bits false true false false)
           (row_of_bits true true true false)
           (row_of_bits false false false false)
           (row_of_bits false false false false);
    Array4 (row_of_bits true true false false)
           (row_of_bits true false false false)
           (row_of_bits true false false false)
           (row_of_bits false false false false);
    Array4 (row_of_bits true true false false)
           (row_of_bits false true false false)
           (row_of_bits false true false false)
           (row_of_bits false false false false);
    Array4 (row_of_bits true true false false)
           (row_of_bits true true false false)
           (row_of_bits false false false false)
           (row_of_bits false false false false) ].

(** ** The two classes *)

Record Piece := mkPiece {
  tileGrid : TileGridType;
  color : Color;
  row : Z;
  col : Z
}.

Abbreviation GridType := (list (list (option nat))).

(** [colorIndex] is the function-local static of [Piece::Piece]; the program
    has one board, and the counter is kept next to it. *)
Record Board := mkBoard {
  pieceGrid : GridType;
  pieces : list Piece;
  activePiece : nat;
  rowsCompleted : Z;
  colorIndex : nat
}.

Definition set_tileGrid (tg : TileGridType) (p : Piece) : Piece :=
  mkPiece tg (color p) (row p) (col p).
Definition set_anchor (r c : Z) (p : Piece) : Piece :=
  mkPiece (tileGrid p) (color p) r c.

Definition set_pieceGrid (g : GridType) (b : Board) : Board :=
  mkBoard g (pieces b) (activePiece b) (rowsCompleted b) (colorIndex b).
Definition set_pieces (ps : list Piece) (b : Board) : Board :=
  mkBoard (pieceGrid b) ps (activePiece b) (rowsCompleted b) (colorIndex b).
Definition set_activePiece (i : nat) (b : Board) : Board :=
  mkBoard (pieceGrid b) (pieces b) i (rowsCompleted b) (colorIndex b).
Definition set_rowsCompleted (n : Z) (b : Board) : Board :=
  mkBoard (pieceGrid b) (pieces b) (activePiece b) n (colorIndex b).
Definition set_colorIndex (n : nat) (b : Board) : Board :=
  mkBoard (pieceGrid b) (pieces b) (activePiece b) (rowsCompleted b) n.

(** [pieceGrid[r][c]] *)
Definition grid_get (g : GridType) (r c : Z) : option (option nat) :=
  if (0 <=? r) && (0 <=? c)
  then line ← g !! Z.to_nat r; line !! Z.to_nat c
  else None.

(** [pieceGrid[r][c] = v] *)
Definition grid_set (g : GridType) (r c : Z) (v : option nat) : option GridType :=
  if (0 <=? r) && (0 <=? c)
  then line ← g !! Z.to_nat r;
       _ ← line !! Z.to_nat c;
       Some (<[Z.to_nat r := <[Z.to_nat c := v]> line]> g)
  else None.

(** [pieceGrid = { nullptr }] *)
Definition GRID_NULL : GridType :=
  replicate (Z.to_nat NUM_ROWS) (replicate (Z.to_nat NUM_COLS) None).

(** ** Loops *)

(** [for (i : ixs) { if (body i) return ...; }]: the loop stops at the first
    index whose body asks for the early return, and says whether one did. *)
Fixpoint loop_until {I} (body : I → option bool) (ixs : list I) : option bool :=
  match ixs with
  | [] => Some false
  | i :: rest =>
      stop ← body i;
      if stop : bool then Some true else loop_until body rest
  end.

(** [for (i : ixs) { body i }] on a state. *)
Fixpoint loop_state {I S} (body : I → S → option S) (ixs : list I) (s : S) : option S :=
  match ixs with
  | [] => Some s
  | i :: rest => s' ← body i s; loop_state body rest s'
  end.

(** ** [Piece] *)

(** One turn of the first pair of loops of [Piece::moveTo]: does the tile
    [(subRow, subCol)] of the candidate make the function return false? *)
Definition moveTo_rejects (this : nat) (newRow newCol : Z)
    (newTileGrid : TileGridType) (b : Board) (subRow subCol : Z) : option bool :=
  t ← tg_get newTileGrid subRow subCol;
  if negb t then Some false
  else
    let absoluteRow := newRow + subRow in
    let absoluteCol := newCol + subCol in
    if (absoluteRow <? 0) || (absoluteRow >=? NUM_ROWS)
       || (absoluteCol <? 0) || (absoluteCol >=? NUM_COLS)
    then Some true
    else
      cell ← grid_get (pieceGrid b) absoluteRow absoluteCol;
      match cell with
      | Some q => Some (negb (q =? this)%nat)
      | None => Some false
      end.

(** One turn of the second and of the third pair of loops of
    [Piece::moveTo]: [pieceGrid[r0 + subRow][c0 + subCol] = v] for a tile that
    is set. *)
Definition write_tile (tg : TileGridType) (r0 c0 : Z) (v : option nat)
    (subRow subCol : Z) (g : GridType) : option GridType :=
  t ← tg_get tg subRow subCol;
  if t : bool then grid_set g (r0 + subRow) (c0 + subCol) v else Some g.

Definition write_tiles (tg : TileGridType) (r0 c0 : Z) (v : option nat)
    (g : GridType) : option GridType :=
  loop_state (λ subRow,
    loop_state (λ subCol, write_tile tg r0 c0 v subRow subCol)
               (seqZ 0 MAX_WIDTH))
    (seqZ 0 MAX_HEIGHT) g.

(** [this->moveTo(newRow, newCol, newTileGrid, board)], [this] being the
    element [this] of [board.pieces]. *)
Definition moveTo (this : nat) (newRow newCol : Z) (newTileGrid : TileGridType)
    (b : Board) : option (bool * Board) :=
  p ← pieces b !! this;
  rejected ← loop_until (λ subRow,
                loop_until (λ subCol,
                  moveTo_rejects this newRow newCol newTileGrid b subRow subCol)
                  (seqZ 0 MAX_WIDTH))
                (seqZ 0 MAX_HEIGHT);
  if rejected : bool then Some (false, b)
  else
    g1 ← write_tiles (tileGrid p) (row p) (col p) None (pieceGrid b);
    g2 ← write_tiles newTileGrid newRow newCol (Some this) g1;
    Some (true, set_pieces (<[this := set_anchor newRow newCol p]> (pieces b))
                  (set_pieceGrid g2 b)).

(** [Piece::Piece()]: [rd] is the value that the random device returns. *)
Definition Piece_ctor (rd : nat) (ci : nat) : Piece * nat :=
  (mkPiece (nth (rd mod NUM_DEFAULT_PIECES)%nat DEFAULT_PIECES TILES_FALSE)
           (nth ci DEFAULT_COLORS RED) 0 0,
   ((ci + 1) mod length DEFAULT_COLORS)%nat).

(** The loops of [Piece::rotate] that fill [newTileGrid]. *)
Definition rotate_tiles (tg : TileGridType) : option TileGridType :=
  loop_state (λ sourceRow,
    loop_state (λ sourceCol newTileGrid,
      let destRow := sourceCol in
      let destCol := MAX_HEIGHT - sourceRow - 1 in
      t ← tg_get tg sourceRow sourceCol;
      tg_set newTileGrid destRow destCol t)
      (seqZ 0 MAX_WIDTH))
    (seqZ 0 MAX_HEIGHT) TILES_FALSE.

(** [this->rotate(board)] *)
Definition rotate (this : nat) (b : Board) : option Board :=
  p ← pieces b !! this;
  newTileGrid ← rotate_tiles (tileGrid p);
  '(moved, b1) ← moveTo this (row p) (col p) newTileGrid b;
  if moved : bool
  then p1 ← pieces b1 !! this;
       Some (set_pieces (<[this := set_tileGrid newTileGrid p1]> (pieces b1)) b1)
  else Some b1.

Definition Z_of_bool (x : bool) : Z := if x then 1 else 0.

(** [this->move(direction, board)] *)
Definition move (this : nat) (direction : Direction) (b : Board)
    : option (bool * Board) :=
  p ← pieces b !! this;
  let newRow := row p + Z_of_bool (bool_decide (direction = DOWN))
                      - Z_of_bool (bool_decide (direction = UP)) in
  let newCol := col p + Z_of_bool (bool_decide (direction = RIGHT))
                      - Z_of_bool (bool_decide (direction = LEFT)) in
  '(moved, b1) ← moveTo this newRow newCol (tileGrid p) b;
  Some (negb moved && bool_decide (direction = DOWN), b1).

(** [Piece::removeTile], without the painting. *)
Definition removeTile (p : Piece) (rowToRemove colToRemove : Z) : option Piece :=
  let subRow := rowToRemove - row p in
  let subCol := colToRemove - col p in
  t ← tg_get (tileGrid p) subRow subCol;
  if negb t then Some p
  else
    tg ← tg_set (tileGrid p) subRow subCol false;
    Some (set_tileGrid tg p).

(** ** [Board] *)

(** [Board::Board]: the first piece is put in the vector; the grid keeps its
    initial nulls. *)
Definition Board_ctor (rd : nat) : Board :=
  let '(p, ci) := Piece_ctor rd 0 in
  mkBoard GRID_NULL [p] 0 0 ci.

(** [Board::isRowFull] *)
Definition isRowFull (r : Z) (b : Board) : option (bool * Board) :=
  hole ← loop_until (λ c, cell ← grid_get (pieceGrid b) r c;
                          Some (bool_decide (cell = None)))
                    (seqZ 0 NUM_COLS);
  if hole : bool then Some (false, b)
  else Some (true, set_rowsCompleted (rowsCompleted b + 1) b).

(** The predicate given to [std::remove_if]: the piece has no tile left. *)
Definition no_tile_left (p : Piece) : option bool :=
  found ← loop_until (λ r, loop_until (λ c, tg_get (tileGrid p) r c)
                                      (seqZ 0 MAX_WIDTH))
                     (seqZ 0 MAX_HEIGHT);
  Some (negb found).

(** [v.erase(std::remove_if(v.begin(), v.end(), pred), v.end())] *)
Fixpoint erase_remove_if {A} (pred : A → option bool) (v : list A) : option (list A) :=
  match v with
  | [] => Some []
  | x :: rest =>
      out ← pred x;
      rest' ← erase_remove_if pred rest;
      Some (if out : bool then rest' else x :: rest')
  end.

(** [pieceGrid[row][col]->removeTile(renderer, BLACK, row, col);
     pieceGrid[row][col] = nullptr;] *)
Definition clear_cell (r c : Z) (b : Board) : option Board :=
  cell ← grid_get (pieceGrid b) r c;
  i ← cell;
  p ← pieces b !! i;
  p' ← removeTile p r c;
  g ← grid_set (pieceGrid b) r c None;
  Some (set_pieceGrid g (set_pieces (<[i := p']> (pieces b)) b)).

(** [piece.moveTo(piece.row, piece.col, piece.tileGrid, *this)] for the
    element [i] of the vector. *)
Definition replace_piece (i : nat) (b : Board) : option Board :=
  p ← pieces b !! i;
  '(_, b1) ← moveTo i (row p) (col p) (tileGrid p) b;
  Some b1.

(** [while (!piece.move(Direction::DOWN, *this)) {}]: [fuel] bounds the
    number of calls of [move]. *)
Fixpoint settle (fuel : nat) (i : nat) (b : Board) : option Board :=
  match fuel with
  | O => None
  | S fuel' =>
      '(stopped, b1) ← move i DOWN b;
      if stopped : bool then Some b1 else settle fuel' i b1
  end.

(** The body of the loop of [Board::collapseFullRows] for one row. *)
Definition collapse_row (fuel : nat) (r : Z) (b : Board) : option Board :=
  '(full, b1) ← isRowFull r b;
  if negb full then Some b1
  else
    b2 ← loop_state (clear_cell r) (seqZ 0 NUM_COLS) b1;
    ps ← erase_remove_if no_tile_left (pieces b2);
    let b3 := set_pieceGrid GRID_NULL (set_pieces ps b2) in
    b4 ← loop_state replace_piece (seq 0 (length (pieces b3))) b3;
    loop_state (settle fuel) (seq 0 (length (pieces b4))) b4.

(** [Board::collapseFullRows] *)
Definition collapseFullRows (fuel : nat) (b : Board) : option Board :=
  loop_state (collapse_row fuel) (seqZ 0 NUM_ROWS) b.

(** [pieces.emplace_back()] followed by taking the address of the new
    element. *)
Definition emplace_back (rd : nat) (b : Board) : Board :=
  let '(p, ci) := Piece_ctor rd (colorIndex b) in
  set_activePiece (length (pieces b))
    (set_colorIndex ci (set_pieces (pieces b ++ [p]) b)).

(** [Board::update].  [rd] is what the random device returns if the call
    builds a piece. *)
Definition update (fuel : nat) (direction : Direction) (rd : nat) (b : Board)
    : option (bool * Board) :=
  '(shouldSpawn, b1) ←
     (if bool_decide (direction = UP)
      then b' ← rotate (activePiece b) b; Some (false, b')
      else move (activePiece b) direction b);
  if shouldSpawn : bool
  then
    b2 ← collapseFullRows fuel b1;
    let b3 := emplace_back rd b2 in
    p ← pieces b3 !! activePiece b3;
    '(placed, b4) ← moveTo (activePiece b3) (row p) (col p) (tileGrid p) b3;
    if negb placed
    then Some (false, set_pieces (removelast (pieces b4)) b4)
    else Some (true, b4)
  else Some (true, b1).

(** A sequence of commands, each with the draw of the random device that
    goes with it; it stops at the first call that returns false. *)
Fixpoint updates (fuel : nat) (cmds : list (Direction * nat)) (b : Board)
    : option (bool * Board) :=
  match cmds with
  | [] => Some (true, b)
  | (d, rd) :: rest =>
      '(ok, b1) ← update fuel d rd b;
      if ok : bool then updates fuel rest b1 else Some (false, b1)
  end.

(** ** Painting *)

(** The functions above leave the painting out.  What follows is the
    painting: the SDL renderer as a state, the functions that only paint, and
    the functions above that paint on their way, once more and with the
    renderer this time (lemma [update_painted_board] says that they do to the
    board what the functions above do).

    The renderer has a draw colour, a target and the picture that was last
    presented.  A pixel that was never painted is [None].  A rectangle is
    filled with the draw colour (the blend mode is the initial one, which
    overwrites), inside the 640 x 480 output; [SDL_RenderDrawRect] paints the
    four sides of the rectangle; [SDL_RenderPresent] shows the target, and the
    model takes it, as the program does, that the target keeps its pixels
    afterwards. *)

Definition SCREEN_WIDTH : Z := 640.
Definition SCREEN_HEIGHT : Z := 480.
Definition TILE_WIDTH : Z := 10.
Definition TILE_HEIGHT : Z := 10.
Definition START_X_PIXELS : Z := SCREEN_WIDTH `quot` 6.
Definition START_Y_PIXELS : Z := SCREEN_HEIGHT `quot` 6.
Definition BOARD_WIDTH_PIXELS : Z := NUM_COLS * TILE_WIDTH.
Definition BOARD_HEIGHT_PIXELS : Z := NUM_ROWS * TILE_HEIGHT.

Record SDL_Rect := mkRect { rect_x : Z; rect_y : Z; rect_w : Z; rect_h : Z }.

Record Renderer := mkRenderer {
  drawColor : Color;
  target : Z → Z → option Color;
  shown : Z → Z → option Color
}.

(** The pixel is inside the rectangle. *)
Definition in_rect (r : SDL_Rect) (px py : Z) : bool :=
  (rect_x r <=? px) && (px <? rect_x r + rect_w r)
  && (rect_y r <=? py) && (py <? rect_y r + rect_h r).

(** The pixel is on one of the four sides of the rectangle. *)
Definition on_outline (r : SDL_Rect) (px py : Z) : bool :=
  in_rect r px py
  && ((px =? rect_x r) || (px =? rect_x r + rect_w r - 1)
      || (py =? rect_y r) || (py =? rect_y r + rect_h r - 1)).

(** The pixel is inside the output of the renderer. *)
Definition on_screen (px py : Z) : bool :=
  (0 <=? px) && (px <? SCREEN_WIDTH) && (0 <=? py) && (py <? SCREEN_HEIGHT).

(** The conversion of an [int] argument to [Uint8]. *)
Definition Uint8 (v : Z) : Z := v `mod` 256.

Definition SDL_SetRenderDrawColor (r g b a : Z) (rn : Renderer) : Renderer :=
  mkRenderer (mkColor (Uint8 r) (Uint8 g) (Uint8 b) (Uint8 a)) (target rn) (shown rn).

Definition SDL_RenderFillRect (rect : SDL_Rect) (rn : Renderer) : Renderer :=
  mkRenderer (drawColor rn)
    (λ px py, if in_rect rect px py && on_screen px py
              then Some (drawColor rn) else target rn px py)
    (shown rn).

Definition SDL_RenderDrawRect (rect : SDL_Rect) (rn : Renderer) : Renderer :=
  mkRenderer (drawColor rn)
    (λ px py, if on_outline rect px py && on_screen px py
              then Some (drawColor rn) else target rn px py)
    (shown rn).

Definition SDL_RenderPresent (rn : Renderer) : Renderer :=
  mkRenderer (drawColor rn) (target rn) (target rn).

(** [drawTile] *)
Definition drawTile (color : Color) (row col : Z) (rn : Renderer) : Renderer :=
  let rn1 := SDL_SetRenderDrawColor (red color) (green color) (blue color)
                                    (alpha color) rn in
  let rect := mkRect (START_X_PIXELS + col * TILE_WIDTH)
                     (START_Y_PIXELS + row * TILE_HEIGHT)
                     TILE_WIDTH TILE_HEIGHT in
  SDL_RenderFillRect rect rn1.

(** [Piece::draw]; [color_] is the optional argument. *)
Definition draw (this : Piece) (color_ : option Color) (rn : Renderer)
    : option Renderer :=
  loop_state (λ subRow,
    loop_state (λ subCol rn,
      t ← tg_get (tileGrid this) subRow subCol;
      if t : bool
      then Some (drawTile (default (color this) color_)
                          (row this + subRow) (col this + subCol) rn)
      else Some rn)
      (seqZ 0 MAX_WIDTH))
    (seqZ 0 MAX_HEIGHT) rn.

(** [Piece::removeTile], with the painting. *)
Definition removeTile_painted (p : Piece) (backgroundColor : Color)
    (rowToRemove colToRemove : Z) (rn : Renderer) : option (Piece * Renderer) :=
  let subRow := rowToRemove - row p in
  let subCol := colToRemove - col p in
  t ← tg_get (tileGrid p) subRow subCol;
  if negb t then Some (p, rn)
  else
    let rn1 := drawTile backgroundColor rowToRemove colToRemove rn in
    tg ← tg_set (tileGrid p) subRow subCol false;
    Some (set_tileGrid tg p, rn1).

(** The rectangle of [Board::drawBorders] and its colour. *)
Definition outlineRect : SDL_Rect :=
  mkRect (START_X_PIXELS - 1) (START_Y_PIXELS - 1)
         (BOARD_WIDTH_PIXELS + 2) (BOARD_HEIGHT_PIXELS + 2).

(** [Board::drawBorders] *)
Definition drawBorders (rn : Renderer) : Renderer :=
  SDL_RenderDrawRect outlineRect (SDL_SetRenderDrawColor 0 255 0 255 rn).

(** [Board::draw] *)
Definition Board_draw (b : Board) (rn : Renderer) : option Renderer :=
  let rn1 := drawBorders rn in
  rn2 ← loop_state (λ piece rn, draw piece None rn) (pieces b) rn1;
  Some (SDL_RenderPresent rn2).

(** The body of the loop of [Board::collapseFullRows] that empties a row,
    with the painting. *)
Definition clear_cell_painted (r c : Z) (s : Board * Renderer)
    : option (Board * Renderer) :=
  let '(b, rn) := s in
  cell ← grid_get (pieceGrid b) r c;
  i ← cell;
  p ← pieces b !! i;
  '(p', rn1) ← removeTile_painted p BLACK r c rn;
  g ← grid_set (pieceGrid b) r c None;
  Some (set_pieceGrid g (set_pieces (<[i := p']> (pieces b)) b), rn1).

(** The body of the last loop of [Board::collapseFullRows]: the piece is
    painted over, falls and is painted again. *)
Definition fall_painted (fuel : nat) (i : nat) (s : Board * Renderer)
    : option (Board * Renderer) :=
  let '(b, rn) := s in
  p ← pieces b !! i;
  rn1 ← draw p (Some BLACK) rn;
  b1 ← settle fuel i b;
  p1 ← pieces b1 !! i;
  rn2 ← draw p1 None rn1;
  Some (b1, rn2).

(** The body of the loop of [Board::collapseFullRows] for one row, with the
    painting. *)
Definition collapse_row_painted (fuel : nat) (r : Z) (s : Board * Renderer)
    : option (Board * Renderer) :=
  let '(b, rn) := s in
  '(full, b1) ← isRowFull r b;
  if negb full then Some (b1, rn)
  else
    '(b2, rn2) ← loop_state (clear_cell_painted r) (seqZ 0 NUM_COLS) (b1, rn);
    ps ← erase_remove_if no_tile_left (pieces b2);
    let b3 := set_pieceGrid GRID_NULL (set_pieces ps b2) in
    b4 ← loop_state replace_piece (seq 0 (length (pieces b3))) b3;
    loop_state (fall_painted fuel) (seq 0 (length (pieces b4))) (b4, rn2).

(** [Board::collapseFullRows], with the painting. *)
Definition collapseFullRows_painted (fuel : nat) (s : Board * Renderer)
    : option (Board * Renderer) :=
  loop_state (collapse_row_painted fuel) (seqZ 0 NUM_ROWS) s.

(** [Board::update], with the painting. *)
Definition update_painted (fuel : nat) (direction : Direction) (rd : nat)
    (s : Board * Renderer) : option (bool * (Board * Renderer)) :=
  let '(b, rn) := s in
  p ← pieces b !! activePiece b;
  rn1 ← draw p (Some BLACK) rn;
  '(shouldSpawn, b1) ←
     (if bool_decide (direction = UP)
      then b' ← rotate (activePiece b) b; Some (false, b')
      else move (activePiece b) direction b);
  p1 ← pieces b1 !! activePiece b1;
  rn2 ← draw p1 None rn1;
  if shouldSpawn : bool
  then
    '(b2, rn3) ← collapseFullRows_painted fuel (b1, rn2);
    let b3 := emplace_back rd b2 in
    p ← pieces b3 !! activePiece b3;
    '(placed, b4) ← moveTo (activePiece b3) (row p) (col p) (tileGrid p) b3;
    if negb placed
    then Some (false, (set_pieces (removelast (pieces b4)) b4, SDL_RenderPresent rn3))
    else Some (true, (b4, SDL_RenderPresent rn3))
  else Some (true, (b1, SDL_RenderPresent rn2)).

(** A sequence of commands, with the painting; it stops at the first call
    that returns false. *)
Fixpoint updates_painted (fuel : nat) (cmds : list (Direction * nat))
    (s : Board * Renderer) : option (bool * (Board * Renderer)) :=
  match cmds with
  | [] => Some (true, s)
  | (d, rd) :: rest =>
      '(ok, s1) ← update_painted fuel d rd s;
      if ok : bool then updates_painted fuel rest s1 else Some (false, s1)
  end.

(** ** The loop of [main] *)

(** The loop of [main] reads the clock and the queue of events.  Both are
    inputs: a pass of the loop takes the time [now], the events that
    [SDL_PollEvent] hands out until the queue is empty, and, for each call
    of [Board::update] that it may make, the value of the random device.
    Time is counted in nanoseconds.  The painting and the messages are left
    out. *)

Definition GRAVITY_DURATION_SECONDS : Z := 1.

(** [std::chrono::seconds(n)] *)
Definition seconds (n : Z) : Z := n * 1000000000.

(** The key of a [SDL_KEYDOWN] event, as far as [main] tells keys apart. *)
Inductive SDL_Keycode := SDLK_UP | SDLK_DOWN | SDLK_LEFT | SDLK_RIGHT | SDLK_other.

(** The type of an event, as far as [main] tells events apart. *)
Inductive SDL_Event := SDL_QUIT | SDL_KEYDOWN (sym : SDL_Keycode) | SDL_other.

(** The variables of [main]. *)
Record MainState := mkMain {
  board : Board;
  gravityDeadline : Z;
  quit : bool;
  updateSuccess : bool
}.

(** The variables when the loop is entered. *)
Definition main_init (rd : nat) (now : Z) : MainState :=
  mkMain (Board_ctor rd) now false true.

(** [updateSuccess = board.update(direction);] *)
Definition key_update (fuel : nat) (direction : Direction) (rd : nat)
    (st : MainState) : option MainState :=
  '(ok, b) ← update fuel direction rd (board st);
  Some (mkMain b (gravityDeadline st) (quit st) ok).

(** The body of [while (SDL_PollEvent(&e))]. *)
Definition handle_event (fuel : nat) (erd : SDL_Event * nat) (st : MainState)
    : option MainState :=
  let '(e, rd) := erd in
  st1 ← match e with
        | SDL_QUIT => Some (mkMain (board st) (gravityDeadline st) true (updateSuccess st))
        | SDL_KEYDOWN sym =>
            match sym with
            | SDLK_UP => key_update fuel UP rd st
            | SDLK_DOWN => key_update fuel DOWN rd st
            | SDLK_LEFT => key_update fuel LEFT rd st
            | SDLK_RIGHT => key_update fuel RIGHT rd st
            | SDLK_other => Some st
            end
        | SDL_other => Some st
        end;
  if negb (updateSuccess st1)
  then Some (mkMain (board st1) (gravityDeadline st1) true (updateSuccess st1))
  else Some st1.

(** The body of [while (!quit)]. *)
Definition main_pass (fuel : nat) (now : Z) (rd : nat)
    (events : list (SDL_Event * nat)) (st : MainState) : option MainState :=
  st1 ← (if gravityDeadline st <? now
         then
           let deadline := now + seconds GRAVITY_DURATION_SECONDS in
           '(_, b) ← update fuel DOWN rd (board st);
           Some (mkMain b deadline (quit st) (updateSuccess st))
         else Some st);
  loop_state (handle_event fuel) events st1.

(** [while (!quit)], for the passes that are given. *)
Fixpoint main_loop (fuel : nat) (passes : list (Z * nat * list (SDL_Event * nat)))
    (st : MainState) : option MainState :=
  match passes with
  | [] => Some st
  | (now, rd, events) :: rest =>
      if quit st then Some st
      else st1 ← main_pass fuel now rd events st; main_loop fuel rest st1
  end.

(** * The vocabulary of the properties *)

(** ** Cells and footprints *)

(** The cell is on the board. *)
Definition in_bounds (r c : Z) : Prop :=
  0 <= r < NUM_ROWS ∧ 0 <= c < NUM_COLS.

(** The offset is inside the footprint array. *)
Definition in_window (r c : Z) : Prop :=
  0 <= r < MAX_HEIGHT ∧ 0 <= c < MAX_WIDTH.

(** The grid has the size of [std::array<std::array<Piece*, NUM_COLS>,
    NUM_ROWS>]. *)
Definition grid_wf (g : GridType) : Prop :=
  length g = Z.to_nat NUM_ROWS
  ∧ ∀ k line, g !! k = Some line → length line = Z.to_nat NUM_COLS.

(** The footprint [tg] anchored at [(r0, c0)] has a tile on the cell
    [(r, c)]. *)
Definition covers (tg : TileGridType) (r0 c0 r c : Z) : bool :=
  match tg_get tg (r - r0) (c - c0) with
  | Some true => true
  | _ => false
  end.

Definition occupies (p : Piece) (r c : Z) : bool :=
  covers (tileGrid p) (row p) (col p) r c.

(** The cells that [Piece::draw] paints: the anchor plus every sub-cell of
    the footprint that is set. *)
Definition occupiedCells (p : Piece) : list (Z * Z) :=
  subRow ← seqZ 0 MAX_HEIGHT;
  subCol ← seqZ 0 MAX_WIDTH;
  match tg_get (tileGrid p) subRow subCol with
  | Some true => [(row p + subRow, col p + subCol)]
  | _ => []
  end.

(** The sixteen sub-cells, in the order of the nested loops. *)
Definition window : list (Z * Z) :=
  r ← seqZ 0 MAX_HEIGHT; c ← seqZ 0 MAX_WIDTH; [(r, c)].

(** The cells of the board, row after row. *)
Definition board_cells : list (Z * Z) :=
  r ← seqZ 0 NUM_ROWS; c ← seqZ 0 NUM_COLS; [(r, c)].

(** ** Placements *)

(** The candidate placement is refused: a tile of the candidate footprint
    lands outside the board or on a cell that another piece owns. *)
Definition blocked (this : nat) (newRow newCol : Z) (newTileGrid : TileGridType)
    (b : Board) : Prop :=
  ∃ subRow subCol,
    tg_get newTileGrid subRow subCol = Some true ∧
    (¬ in_bounds (newRow + subRow) (newCol + subCol)
     ∨ ∃ q, grid_get (pieceGrid b) (newRow + subRow) (newCol + subCol) = Some (Some q)
            ∧ q ≠ this).

(** The anchor that [Piece::move] asks for. *)
Definition dest_row (d : Direction) (p : Piece) : Z :=
  row p + Z_of_bool (bool_decide (d = DOWN)) - Z_of_bool (bool_decide (d = UP)).
Definition dest_col (d : Direction) (p : Piece) : Z :=
  col p + Z_of_bool (bool_decide (d = RIGHT)) - Z_of_bool (bool_decide (d = LEFT)).

(** The end of [Board::update] when a piece is spawned, from
    [pieces.emplace_back()] on. *)
Definition spawn (rd : nat) (b2 : Board) : option (bool * Board) :=
  let b3 := emplace_back rd b2 in
  p ← pieces b3 !! activePiece b3;
  '(placed, b4) ← moveTo (activePiece b3) (row p) (col p) (tileGrid p) b3;
  if negb placed
  then Some (false, set_pieces (removelast (pieces b4)) b4)
  else Some (true, b4).

(** ** The invariant *)

(** Invariant I1 of the specification: a cell of the board is one of the
    occupied cells of a piece exactly when the grid points to that piece
    there. *)
Definition I1 (b : Board) : Prop :=
  ∀ i p, pieces b !! i = Some p →
  ∀ r c, in_bounds r c →
    (r, c) ∈ occupiedCells p ↔ grid_get (pieceGrid b) r c = Some (Some i).

(** The tiles of the piece are on the board and there is at least one. *)
Definition piece_ok (p : Piece) : Prop :=
  (∀ r c, occupies p r c = true → in_bounds r c)
  ∧ ∃ r c, occupies p r c = true.

(** The first [k] pieces of the vector are written in the grid, cell for
    cell, and nothing else is. *)
Record registered (k : nat) (b : Board) : Prop := mkRegistered {
  reg_wf : grid_wf (pieceGrid b);
  reg_grid : ∀ r c i,
    grid_get (pieceGrid b) r c = Some (Some i) →
    (i < k)%nat ∧ ∃ p, pieces b !! i = Some p ∧ occupies p r c = true;
  reg_piece : ∀ i p,
    (i < k)%nat → pieces b !! i = Some p →
    ∀ r c, occupies p r c = true → grid_get (pieceGrid b) r c = Some (Some i);
  reg_ok : ∀ i p, pieces b !! i = Some p → piece_ok p
}.

(** Grid and pieces agree. *)
Definition consistent (b : Board) : Prop := registered (length (pieces b)) b.

(** The state between two calls of [Board::update]: grid and pieces agree
    and [activePiece] points into the vector. *)
Definition Inv (b : Board) : Prop :=
  consistent b ∧ (activePiece b < length (pieces b))%nat.

(** Two pieces share no cell. *)
Definition disjoint (p q : Piece) : Prop :=
  ∀ r c, ¬ (occupies p r c = true ∧ occupies q r c = true).

(** No two pieces of the list share a cell. *)
Inductive apart : list Piece → Prop :=
  | apart_nil : apart []
  | apart_cons p ps : Forall (disjoint p) ps → apart ps → apart (p :: ps).

(** The state of the loop that empties the row [r], before the column [k]:
    the cells still to come point to pieces that have them. *)
Record clearing (r : Z) (k : nat) (b : Board) : Prop := mkClearing {
  clr_wf : grid_wf (pieceGrid b);
  clr_todo : ∀ c, Z.of_nat k <= c < NUM_COLS →
    ∃ i p, grid_get (pieceGrid b) r c = Some (Some i)
           ∧ pieces b !! i = Some p ∧ occupies p r c = true;
  clr_bounds : ∀ i p, pieces b !! i = Some p →
    ∀ r' c', occupies p r' c' = true → in_bounds r' c';
  clr_apart : apart (pieces b)
}.

(** ** The invariant as a test *)

Definition grid_wfb (g : GridType) : bool :=
  (length g =? Z.to_nat NUM_ROWS)%nat
  && forallb (λ line : list (option nat), (length line =? Z.to_nat NUM_COLS)%nat) g.

(** The cell is free or points to a piece that has a tile on it. *)
Definition cell_okb (b : Board) (rc : Z * Z) : bool :=
  match grid_get (pieceGrid b) rc.1 rc.2 with
  | Some (Some i) =>
      match pieces b !! i with
      | Some p => occupies p rc.1 rc.2
      | None => false
      end
  | _ => true
  end.

(** The tile, if set, is written in the grid under the index of its piece. *)
Definition tile_okb (b : Board) (i : nat) (p : Piece) (sc : Z * Z) : bool :=
  match tg_get (tileGrid p) sc.1 sc.2 with
  | Some true =>
      bool_decide (grid_get (pieceGrid b) (row p + sc.1) (col p + sc.2) = Some (Some i))
  | _ => true
  end.

Definition has_tileb (p : Piece) (sc : Z * Z) : bool :=
  bool_decide (tg_get (tileGrid p) sc.1 sc.2 = Some true).

Definition piece_okb (b : Board) (ip : nat * Piece) : bool :=
  forallb (tile_okb b ip.1 ip.2) window && existsb (has_tileb ip.2) window.

Definition consistentb (b : Board) : bool :=
  grid_wfb (pieceGrid b)
  && forallb (cell_okb b) board_cells
  && forallb (piece_okb b) (imap pair (pieces b)).

Definition Invb (b : Board) : bool :=
  consistentb b && (activePiece b <? length (pieces b))%nat.

(** ** Boards of the examples *)

(** Three of the default shapes: the bar, the hook whose arm points to the
    right, and the square. *)
Definition I_TILES : TileGridType := nth 0 DEFAULT_PIECES TILES_FALSE.
Definition J_TILES : TileGridType := nth 2 DEFAULT_PIECES TILES_FALSE.
Definition O_TILES : TileGridType := nth 4 DEFAULT_PIECES TILES_FALSE.

(** The board on which the given pieces are written, by the loop of
    [Board::collapseFullRows] that writes the grid again. *)
Definition place (ps : list Piece) (active : nat) (ci : nat) : Board :=
  let b := mkBoard GRID_NULL ps active 0 ci in
  default b (loop_state replace_piece (seq 0 (length ps)) b).

(** The bar alone, at the top and at the bottom of the board. *)
Definition bar_at_0_4 : Board := place [mkPiece I_TILES RED 0 4] 0 1.
Definition bar_at_19_4 : Board := place [mkPiece I_TILES RED 19 4] 0 1.

(** A game of 109 commands.  Two bars are laid on the bottom row, columns 0
    to 7.  A hook is stood on the first bar, in the left corner, its arm over
    the second column.  A square is brought down two columns to the right and
    pushed to the left, under the arm of the hook.  A third bar is taken to
    the right and down to the bottom row, which it fills. *)
Definition overhang_game : list (Direction * nat) :=
  replicate 19 (DOWN, 0%nat) ++ [(DOWN, 0%nat)]
  ++ replicate 4 (RIGHT, 0%nat) ++ replicate 19 (DOWN, 0%nat) ++ [(DOWN, 2%nat)]
  ++ replicate 16 (DOWN, 0%nat) ++ [(DOWN, 4%nat)]
  ++ replicate 2 (RIGHT, 0%nat) ++ replicate 17 (DOWN, 0%nat)
  ++ [(LEFT, 0%nat); (DOWN, 0%nat)]
  ++ replicate 8 (RIGHT, 0%nat) ++ replicate 19 (DOWN, 0%nat).

(** The board at the end of that game: the hook, third in the vector, has
    the square, fourth in the vector, under its arm; the bottom row is
    full and the third bar is still the active piece. *)
Definition overhang_board : Board :=
  place [ mkPiece I_TILES RED 19 0; mkPiece I_TILES GREEN 19 4;
          mkPiece J_TILES BLUE 16 0; mkPiece O_TILES RED 17 1;
          mkPiece I_TILES GREEN 19 8 ] 4 2.

(** ** Tiles and displacements *)

(** The number of tiles of a footprint. *)
Definition tile_count (tg : TileGridType) : nat :=
  sum_list_with
    (λ rc : Z * Z, match tg_get tg rc.1 rc.2 with
                   | Some t => Nat.b2n t
                   | None => 0%nat
                   end) window.

(** The number of tiles of all the pieces of the vector. *)
Definition tiles_on (b : Board) : nat :=
  sum_list_with (λ p, tile_count (tileGrid p)) (pieces b).

(** The cells of all the pieces, piece after piece. *)
Definition all_cells (b : Board) : list (Z * Z) := pieces b ≫= occupiedCells.


(** The board [s] is the board [b] in which the piece [this], [p] in [b], has
    been taken to the placement [q], over cells that no other piece of [b]
    has. *)
Record displaced (b : Board) (this : nat) (p q : Piece) (s : Board) : Prop :=
  mkDisplaced {
  dsp_pieces : pieces s = <[this := q]> (pieces b);
  dsp_active : activePiece s = activePiece b;
  dsp_rows : rowsCompleted s = rowsCompleted b;
  dsp_color : colorIndex s = colorIndex b;
  dsp_wf : grid_wf (pieceGrid s);
  dsp_grid : ∀ r c,
    grid_get (pieceGrid s) r c =
      if occupies q r c then Some (Some this)
      else if occupies p r c then Some None
      else grid_get (pieceGrid b) r c;
  dsp_free : ∀ r c, occupies q r c = true →
    in_bounds r c ∧ ∀ i, grid_get (pieceGrid b) r c = Some (Some i) → i = this
}.

(** Twenty bars on top of each other in the left corner, the last one, on the
    top row, being the active piece. *)
Definition tower_board : Board :=
  place ((λ k, mkPiece I_TILES RED (19 - k) 0) <$> seqZ 0 20) 19 2.

(** The call of [Board::update] puts a piece on the board: [shouldSpawn] is
    true, and the call returns true, that is, the piece that [emplace_back]
    builds is placed and is not taken away by [pop_back]. *)
Definition spawns (fuel : nat) (d : Direction) (rd : nat) (b : Board) : bool :=
  match (if bool_decide (d = UP)
         then b' ← rotate (activePiece b) b; Some (false, b')
         else move (activePiece b) d b) with
  | Some (true, _) =>
      match update fuel d rd b with
      | Some (true, _) => true
      | _ => false
      end
  | _ => false
  end.

(** The number of calls of a sequence of commands that put a piece on the
    board. *)
Fixpoint pieces_entered (fuel : nat) (cmds : list (Direction * nat)) (b : Board)
    : nat :=
  match cmds with
  | [] => 0
  | (d, rd) :: rest =>
      match update fuel d rd b with
      | Some (true, b1) =>
          ((if spawns fuel d rd b then 1 else 0) + pieces_entered fuel rest b1)%nat
      | _ => 0
      end
  end.

(** ** The picture *)

(** The rectangle that [drawTile] fills for a cell. *)
Definition tile_rect (r c : Z) : SDL_Rect :=
  mkRect (START_X_PIXELS + c * TILE_WIDTH) (START_Y_PIXELS + r * TILE_HEIGHT)
         TILE_WIDTH TILE_HEIGHT.

(** The colour as the renderer has it. *)
Definition as_bytes (c : Color) : Color :=
  mkColor (Uint8 (red c)) (Uint8 (green c)) (Uint8 (blue c)) (Uint8 (alpha c)).

(** The colour of the border. *)
Definition BORDER_COLOR : Color := mkColor 0 255 0 255.

(** The pixel is in the rectangle of a tile of the piece. *)
Definition covered (p : Piece) (px py : Z) : bool :=
  existsb (λ rc : Z * Z, in_rect (tile_rect rc.1 rc.2) px py) (occupiedCells p).

(** The pixel is in the rectangle of no cell of the board. *)
Definition off_board (px py : Z) : Prop :=
  ∀ r c, in_bounds r c → in_rect (tile_rect r c) px py = false.

(** The picture [t] shows the board, the piece [hidden] apart: on the
    rectangle of a cell of the board that a piece has, it has the colour of
    the piece; on the rectangle of a cell that no piece has, it is black or
    was never painted. *)
Definition shows (t : Z → Z → option Color) (b : Board) (hidden : option nat)
    : Prop :=
  ∀ r c px py, in_bounds r c → in_rect (tile_rect r c) px py = true →
    (∀ i p, pieces b !! i = Some p → hidden ≠ Some i → occupies p r c = true →
            t px py = Some (as_bytes (color p)))
    ∧ ((∀ i p, pieces b !! i = Some p → hidden ≠ Some i → occupies p r c = false) →
       t px py = None ∨ t px py = Some BLACK).

(** The picture has the border. *)
Definition framed (t : Z → Z → option Color) : Prop :=
  ∀ px py, on_outline outlineRect px py = true → t px py = Some BORDER_COLOR.

(** From [rn] to [rn'] nothing was presented and no pixel outside the
    rectangles of the cells of the board was painted. *)
Definition painted_from (rn rn' : Renderer) : Prop :=
  shown rn' = shown rn
  ∧ ∀ px py, off_board px py → target rn' px py = target rn px py.

(** A renderer on which nothing was painted. *)
Definition fresh_renderer : Renderer :=
  mkRenderer BLACK (λ _ _, None) (λ _ _, None).

(** The rectangles of the cells of the board are black or were never
    painted. *)
Definition blank_board (t : Z → Z → option Color) : Prop :=
  ∀ r c px py, in_bounds r c → in_rect (tile_rect r c) px py = true →
               t px py = None ∨ t px py = Some BLACK.

(** ** The commands of a pass of [main] *)

(** The command that an event gives, if it gives one. *)
Definition event_command (erd : SDL_Event * nat) : list (Direction * nat) :=
  match erd.1 with
  | SDL_KEYDOWN SDLK_UP => [(UP, erd.2)]
  | SDL_KEYDOWN SDLK_DOWN => [(DOWN, erd.2)]
  | SDL_KEYDOWN SDLK_LEFT => [(LEFT, erd.2)]
  | SDL_KEYDOWN SDLK_RIGHT => [(RIGHT, erd.2)]
  | _ => []
  end.

(** The event asks to quit. *)
Definition is_quit (erd : SDL_Event * nat) : bool :=
  match erd.1 with SDL_QUIT => true | _ => false end.

(** The commands of a pass: the fall when it is due, then the keys. *)
Definition pass_commands (now : Z) (rd : nat) (events : list (SDL_Event * nat))
    (st : MainState) : list (Direction * nat) :=
  (if gravityDeadline st <? now then [(DOWN, rd)] else [])
  ++ (events ≫= event_command).

(** The commands of the passes of the loop, up to the pass that sets [quit]:
    [deadline] and [stop] are [gravityDeadline] and [quit] when the first
    pass begins. *)
Fixpoint loop_commands (passes : list (Z * nat * list (SDL_Event * nat)))
    (deadline : Z) (stop : bool) : list (Direction * nat) :=
  match passes with
  | [] => []
  | (now, rd, events) :: rest =>
      if stop then []
      else
        (if deadline <? now then [(DOWN, rd)] else [])
        ++ (events ≫= event_command)
        ++ loop_commands rest
             (if deadline <? now then now + seconds GRAVITY_DURATION_SECONDS
              else deadline)
             (existsb is_quit events)
  end.

(** * Lemmas *)

(** ** Arrays, footprints and grids *)

Section arrays.
Context {A : Type}.
Implicit Types (a : array4 A) (i j : Z).

Lemma get4_Some a i x : get4 a i = Some x → 0 <= i < 4.
Proof.
  destruct i as [|[[?|?|]|[?|?|]|]|?]; simpl; intros; (discriminate || lia).
Qed.

Lemma get4_is_Some a i : 0 <= i < 4 → is_Some (get4 a i).
Proof.
  intros H. assert (i = 0 ∨ i = 1 ∨ i = 2 ∨ i = 3) as Hi by lia.
  destruct Hi as [->|[->|[->| ->]]]; simpl; eauto.
Qed.

Lemma set4_Some a i x a' : set4 a i x = Some a' → 0 <= i < 4.
Proof.
  destruct i as [|[[?|?|]|[?|?|]|]|?]; simpl; intros; (discriminate || lia).
Qed.

Lemma get4_set4 a i x a' j :
  set4 a i x = Some a' →
  get4 a' j = if decide (j = i) then Some x else get4 a j.
Proof.
  intros H. pose proof (set4_Some _ _ _ _ H) as Hi.
  assert (i = 0 ∨ i = 1 ∨ i = 2 ∨ i = 3) as Hc by lia.
  destruct (decide (j = i)) as [->|Hne].
  - destruct Hc as [->|[->|[->| ->]]]; simpl in H; injection H as <-; reflexivity.
  - destruct (decide (0 <= j < 4)) as [Hj|Hj].
    + assert (j = 0 ∨ j = 1 ∨ j = 2 ∨ j = 3) as Hd by lia.
      destruct Hc as [->|[->|[->| ->]]]; simpl in H; injection H as <-;
        destruct Hd as [->|[->|[->| ->]]]; (reflexivity || lia).
    + destruct (get4 a' j) eqn:E1; [apply get4_Some in E1; lia|].
      destruct (get4 a j) eqn:E2; [apply get4_Some in E2; lia|]. reflexivity.
Qed.

Lemma set4_is_Some a i x : 0 <= i < 4 → is_Some (set4 a i x).
Proof.
  intros H. assert (i = 0 ∨ i = 1 ∨ i = 2 ∨ i = 3) as Hi by lia.
  destruct Hi as [->|[->|[->| ->]]]; simpl; eauto.
Qed.
End arrays.

Lemma tg_get_Some tg r c t : tg_get tg r c = Some t → in_window r c.
Proof.
  unfold tg_get. destruct (get4 tg r) as [line|] eqn:E; simpl; [|discriminate].
  intros H. apply get4_Some in E. apply get4_Some in H.
  unfold in_window, MAX_HEIGHT, MAX_WIDTH. lia.
Qed.

Lemma tg_get_is_Some tg r c : in_window r c → is_Some (tg_get tg r c).
Proof.
  intros [Hr Hc]. unfold tg_get.
  destruct (get4_is_Some tg r Hr) as [line ->]. simpl.
  apply get4_is_Some, Hc.
Qed.

Lemma tg_get_None tg r c : ¬ in_window r c → tg_get tg r c = None.
Proof.
  intros H. destruct (tg_get tg r c) eqn:E; [|reflexivity].
  apply tg_get_Some in E. contradiction.
Qed.

Lemma tg_set_is_Some tg r c v : in_window r c → is_Some (tg_set tg r c v).
Proof.
  intros [Hr Hc]. unfold tg_set.
  destruct (get4_is_Some tg r Hr) as [line ->]. simpl.
  destruct (set4_is_Some line c v Hc) as [line' ->]. simpl.
  apply set4_is_Some, Hr.
Qed.

Lemma tg_get_set tg r c v tg' r' c' :
  tg_set tg r c v = Some tg' →
  tg_get tg' r' c' = if decide (r' = r ∧ c' = c) then Some v else tg_get tg r' c'.
Proof.
  unfold tg_set, tg_get.
  destruct (get4 tg r) as [line|] eqn:E; simpl; [|discriminate].
  destruct (set4 line c v) as [line'|] eqn:E'; simpl; [|discriminate].
  intros H. rewrite (get4_set4 _ _ _ _ r' H).
  destruct (decide (r' = r)) as [->|Hr]; simpl.
  - rewrite (get4_set4 _ _ _ _ c' E'), E. simpl.
    destruct (decide (c' = c)) as [->|Hc].
    + rewrite decide_True by done. reflexivity.
    + rewrite decide_False by (intros [_ ?]; done). reflexivity.
  - rewrite decide_False by (intros [? _]; done). reflexivity.
Qed.

Lemma covers_spec tg r0 c0 r c :
  covers tg r0 c0 r c = true ↔
  ∃ sr sc, tg_get tg sr sc = Some true ∧ r = r0 + sr ∧ c = c0 + sc.
Proof.
  unfold covers. split.
  - destruct (tg_get tg (r - r0) (c - c0)) as [[|]|] eqn:E; try discriminate.
    intros _. exists (r - r0), (c - c0). split; [done|lia].
  - intros (sr & sc & H & -> & ->).
    replace (r0 + sr - r0) with sr by lia. replace (c0 + sc - c0) with sc by lia.
    rewrite H. reflexivity.
Qed.

Lemma covers_tile tg r0 c0 sr sc :
  covers tg r0 c0 (r0 + sr) (c0 + sc) = true ↔ tg_get tg sr sc = Some true.
Proof.
  unfold covers.
  replace (r0 + sr - r0) with sr by lia. replace (c0 + sc - c0) with sc by lia.
  destruct (tg_get tg sr sc) as [[|]|]; split; congruence.
Qed.

Lemma occupiedCells_spec p r c :
  (r, c) ∈ occupiedCells p ↔ occupies p r c = true.
Proof.
  unfold occupiedCells, occupies. rewrite covers_spec. split.
  - intros H. apply list_elem_of_bind in H as (sr & H & _).
    apply list_elem_of_bind in H as (sc & H & _).
    destruct (tg_get (tileGrid p) sr sc) as [[|]|] eqn:E;
      try (apply elem_of_nil in H; contradiction).
    apply list_elem_of_singleton in H. injection H as -> ->. eauto.
  - intros (sr & sc & H & -> & ->).
    pose proof (tg_get_Some _ _ _ _ H) as [Hr Hc].
    apply list_elem_of_bind. exists sr. split; [|apply elem_of_seqZ; lia].
    apply list_elem_of_bind. exists sc. split; [|apply elem_of_seqZ; lia].
    rewrite H. apply list_elem_of_singleton. reflexivity.
Qed.

Lemma grid_get_in_bounds g r c :
  grid_wf g → in_bounds r c → is_Some (grid_get g r c).
Proof.
  intros [Hlen Hline] [Hr Hc]. unfold grid_get.
  rewrite andb_true_intro by (split; apply Z.leb_le; lia).
  destruct (lookup_lt_is_Some_2 g (Z.to_nat r)) as [line Hl].
  { rewrite Hlen. unfold NUM_ROWS in *. lia. }
  cbv iota. rewrite Hl. simpl. apply lookup_lt_is_Some_2.
  rewrite (Hline _ _ Hl). unfold NUM_COLS in *. lia.
Qed.

Lemma grid_get_Some g r c x :
  grid_wf g → grid_get g r c = Some x → in_bounds r c.
Proof.
  intros [Hlen Hline]. unfold grid_get.
  destruct (0 <=? r) eqn:Er; [|discriminate].
  destruct (0 <=? c) eqn:Ec; [|discriminate]. simpl.
  destruct (g !! Z.to_nat r) as [line|] eqn:Hl; [|discriminate]. simpl.
  intros H. apply lookup_lt_Some in H. rewrite (Hline _ _ Hl) in H.
  apply lookup_lt_Some in Hl. rewrite Hlen in Hl.
  apply Z.leb_le in Er, Ec. unfold in_bounds. lia.
Qed.

Lemma grid_set_spec g r c v :
  grid_wf g → in_bounds r c →
  ∃ g', grid_set g r c v = Some g' ∧ grid_wf g' ∧
        ∀ r' c', grid_get g' r' c' =
                 if decide (r' = r ∧ c' = c) then Some v else grid_get g r' c'.
Proof.
  intros Hwf Hb. destruct (grid_get_in_bounds g r c Hwf Hb) as [x Hx].
  destruct Hwf as [Hlen Hline]. destruct Hb as [Hr Hc].
  unfold grid_get in Hx. unfold grid_set.
  rewrite andb_true_intro in * by (split; apply Z.leb_le; lia).
  destruct (g !! Z.to_nat r) as [line|] eqn:Hl; [|discriminate]. simpl in *.
  rewrite Hx. simpl. eexists. split; [reflexivity|]. split.
  - split; [by rewrite length_insert|].
    intros k line' Hk. destruct (decide (k = Z.to_nat r)) as [->|Hne].
    + rewrite list_lookup_insert_eq in Hk by (by eapply lookup_lt_Some).
      injection Hk as <-. rewrite length_insert. by eapply Hline.
    + rewrite list_lookup_insert_ne in Hk by done. by eapply Hline.
  - intros r' c'. unfold grid_get.
    destruct (0 <=? r') eqn:Er; simpl; [|by rewrite decide_False by lia].
    destruct (0 <=? c') eqn:Ec; simpl; [|by rewrite decide_False by lia].
    apply Z.leb_le in Er, Ec.
    destruct (decide (r' = r)) as [->|Hr'].
    + rewrite list_lookup_insert_eq by (by eapply lookup_lt_Some). simpl.
      rewrite Hl. simpl. destruct (decide (c' = c)) as [->|Hc'].
      * rewrite decide_True by done.
        rewrite list_lookup_insert_eq by (by eapply lookup_lt_Some). reflexivity.
      * rewrite decide_False by (intros [_ ?]; done).
        rewrite list_lookup_insert_ne by lia. reflexivity.
    + rewrite decide_False by (intros [? _]; done).
      rewrite list_lookup_insert_ne by lia. reflexivity.
Qed.

Lemma GRID_NULL_wf : grid_wf GRID_NULL.
Proof.
  split; [apply length_replicate|].
  intros k line H. apply lookup_replicate in H as [-> _]. apply length_replicate.
Qed.

Lemma GRID_NULL_get r c : in_bounds r c → grid_get GRID_NULL r c = Some None.
Proof.
  intros [Hr Hc]. unfold grid_get, GRID_NULL.
  rewrite andb_true_intro by (split; apply Z.leb_le; lia). cbv iota.
  apply bind_Some. eexists.
  split; apply lookup_replicate_2; unfold NUM_ROWS, NUM_COLS in *; lia.
Qed.

(** ** Loops *)

Section loops.
Context {I : Type}.

Lemma loop_until_spec (P : I → Prop) (body : I → option bool) ixs :
  (∀ i, i ∈ ixs → ∃ x, body i = Some x ∧ (x = true ↔ P i)) →
  ∃ res, loop_until body ixs = Some res ∧ (res = true ↔ ∃ i, i ∈ ixs ∧ P i).
Proof.
  induction ixs as [|i ixs IH]; intros Hbody; simpl.
  - exists false. split; [done|]. split; [done|].
    intros (i & Hi & _). by apply elem_of_nil in Hi.
  - destruct (Hbody i) as (x & -> & Hx); [left|]. simpl. destruct x.
    + exists true. split; [done|]. split; [|done].
      intros _. exists i. split; [left|]. by apply Hx.
    + destruct IH as (res & -> & Hres).
      { intros j Hj. apply Hbody. by right. }
      exists res. split; [done|]. rewrite Hres. split.
      * intros (j & Hj & HP). exists j. split; [by right|done].
      * intros (j & Hj & HP). apply elem_of_cons in Hj as [->|Hj]; [|eauto].
        apply Hx in HP. discriminate.
Qed.

Lemma loop_until_app (body : I → option bool) l1 l2 :
  loop_until body (l1 ++ l2) =
  stop ← loop_until body l1; if stop : bool then Some true else loop_until body l2.
Proof.
  induction l1 as [|i l1 IH]; simpl; [done|].
  destruct (body i) as [[|]|]; simpl; done.
Qed.

Context {S : Type}.

Lemma loop_state_app (body : I → S → option S) l1 l2 s :
  loop_state body (l1 ++ l2) s = loop_state body l1 s ≫= loop_state body l2.
Proof.
  revert s. induction l1 as [|i l1 IH]; intros s; simpl; [done|].
  destruct (body i s) as [s'|]; simpl; [apply IH|done].
Qed.

(** A loop that keeps an invariant indexed by the number of turns made. *)
Lemma loop_state_ind (Q : nat → S → Prop) (body : I → S → option S) ixs s :
  Q 0%nat s →
  (∀ k i s0, ixs !! k = Some i → Q k s0 →
             ∃ s1, body i s0 = Some s1 ∧ Q (Datatypes.S k) s1) →
  ∃ s', loop_state body ixs s = Some s' ∧ Q (length ixs) s'.
Proof.
  revert Q s. induction ixs as [|i ixs IH]; intros Q s H0 Hstep; simpl.
  - eauto.
  - destruct (Hstep 0%nat i s) as (s1 & -> & H1); [done|done|]. simpl.
    apply (IH (λ k, Q (Datatypes.S k))); [done|].
    intros k j s0 Hk HQ. by apply (Hstep (Datatypes.S k)).
Qed.
End loops.

Lemma loop_until_nested {I J} (f : I → J → option bool) rs cs :
  loop_until (λ r, loop_until (f r) cs) rs =
  loop_until (λ rc, f rc.1 rc.2) (r ← rs; c ← cs; [(r, c)]).
Proof.
  induction rs as [|r rs IH]; [done|].
  rewrite bind_cons, loop_until_app, <- IH. simpl.
  assert (loop_until (f r) cs =
          loop_until (λ rc, f rc.1 rc.2) (c ← cs; [(r, c)])) as ->; [|done].
  clear IH. induction cs as [|c cs IH]; [done|].
  rewrite bind_cons. simpl. destruct (f r c) as [[|]|]; simpl; done.
Qed.

Lemma loop_state_nested {I J S} (f : I → J → S → option S) rs cs s :
  loop_state (λ r, loop_state (f r) cs) rs s =
  loop_state (λ rc, f rc.1 rc.2) (r ← rs; c ← cs; [(r, c)]) s.
Proof.
  revert s. induction rs as [|r rs IH]; intros s; [done|].
  rewrite bind_cons, loop_state_app. simpl.
  assert (∀ s0, loop_state (f r) cs s0 =
                loop_state (λ rc, f rc.1 rc.2) (c ← cs; [(r, c)]) s0) as ->.
  { clear. induction cs as [|c cs IH]; intros s0; [done|].
    rewrite bind_cons. simpl. destruct (f r c s0) as [s'|]; simpl; [apply IH|done]. }
  destruct (loop_state _ (c ← cs; [(r, c)]) s) as [s'|]; simpl; [apply IH|done].
Qed.

Lemma elem_of_window r c : (r, c) ∈ window ↔ in_window r c.
Proof.
  unfold window, in_window. split.
  - intros H. apply list_elem_of_bind in H as (r' & H & Hr).
    apply list_elem_of_bind in H as (c' & H & Hc).
    apply list_elem_of_singleton in H. injection H as -> ->.
    apply elem_of_seqZ in Hr, Hc. lia.
  - intros [Hr Hc]. apply list_elem_of_bind. exists r.
    split; [|apply elem_of_seqZ; lia].
    apply list_elem_of_bind. exists c. split; [|apply elem_of_seqZ; lia].
    by apply list_elem_of_singleton.
Qed.

(** ** The rotation of a footprint *)

Lemma rotate_tiles_spec tg :
  ∃ ntg, rotate_tiles tg = Some ntg ∧
         ∀ r c, in_window r c → tg_get ntg c (MAX_HEIGHT - 1 - r) = tg_get tg r c.
Proof.
  destruct tg as [[? ? ? ?] [? ? ? ?] [? ? ? ?] [? ? ? ?]].
  eexists. split; [vm_compute; reflexivity|].
  intros r c [Hr Hc]. unfold MAX_HEIGHT, MAX_WIDTH in *.
  assert (r = 0 ∨ r = 1 ∨ r = 2 ∨ r = 3) as Hr' by lia.
  assert (c = 0 ∨ c = 1 ∨ c = 2 ∨ c = 3) as Hc' by lia.
  destruct Hr' as [->|[->|[->| ->]]]; destruct Hc' as [->|[->|[->| ->]]];
    reflexivity.
Qed.

Lemma rotate_tiles_nonempty tg ntg :
  rotate_tiles tg = Some ntg →
  (∃ r c, tg_get tg r c = Some true) → ∃ r c, tg_get ntg r c = Some true.
Proof.
  intros Hrot (r & c & H). destruct (rotate_tiles_spec tg) as (ntg' & Hrot' & Hspec).
  rewrite Hrot in Hrot'. injection Hrot' as <-.
  exists c, (MAX_HEIGHT - 1 - r). rewrite Hspec; [done|]. by eapply tg_get_Some.
Qed.

(** ** [Piece::moveTo] *)

Lemma moveTo_rejects_spec this nr nc ntg b sr sc :
  grid_wf (pieceGrid b) → in_window sr sc →
  ∃ x, moveTo_rejects this nr nc ntg b sr sc = Some x ∧
       (x = true ↔
        tg_get ntg sr sc = Some true ∧
        (¬ in_bounds (nr + sr) (nc + sc)
         ∨ ∃ q, grid_get (pieceGrid b) (nr + sr) (nc + sc) = Some (Some q) ∧ q ≠ this)).
Proof.
  intros Hwf Hw. unfold moveTo_rejects.
  destruct (tg_get_is_Some ntg sr sc Hw) as [t Ht]. rewrite Ht. simpl.
  destruct t; simpl.
  2:{ exists false. split; [done|]. split; [done|]. intros [? _]. done. }
  destruct ((nr + sr <? 0) || (nr + sr >=? NUM_ROWS)
            || (nc + sc <? 0) || (nc + sc >=? NUM_COLS)) eqn:E.
  - exists true. split; [done|]. split; [|done]. intros _. split; [done|]. left.
    unfold in_bounds. intros [? ?].
    rewrite !orb_true_iff, !Z.ltb_lt, !Z.geb_le in E. lia.
  - rewrite !orb_false_iff, !Z.ltb_ge in E.
    destruct E as [[[E1 E2] E3] E4].
    assert (in_bounds (nr + sr) (nc + sc)) as Hb.
    { unfold in_bounds. split.
      - split; [done|]. destruct (Z.geb_spec (nr + sr) NUM_ROWS); [done|lia].
      - split; [done|]. destruct (Z.geb_spec (nc + sc) NUM_COLS); [done|lia]. }
    destruct (grid_get_in_bounds _ _ _ Hwf Hb) as [cell Hcell]. rewrite Hcell. simpl.
    destruct cell as [q|].
    + eexists. split; [done|]. rewrite negb_true_iff, Nat.eqb_neq. split.
      * intros Hq. split; [done|]. right. eauto.
      * intros [_ [?|(q' & Hq' & ?)]]; [done|]. congruence.
    + exists false. split; [done|]. split; [done|].
      intros [_ [?|(q' & Hq' & ?)]]; [done|]. congruence.
Qed.

Lemma moveTo_check this nr nc ntg b :
  grid_wf (pieceGrid b) →
  ∃ res,
    loop_until (λ subRow,
      loop_until (λ subCol, moveTo_rejects this nr nc ntg b subRow subCol)
                 (seqZ 0 MAX_WIDTH))
      (seqZ 0 MAX_HEIGHT) = Some res
    ∧ (res = true ↔ blocked this nr nc ntg b).
Proof.
  intros Hwf.
  rewrite (loop_until_nested (moveTo_rejects this nr nc ntg b)).
  fold window.
  destruct (loop_until_spec
              (λ rc : Z * Z,
                 tg_get ntg rc.1 rc.2 = Some true ∧
                 (¬ in_bounds (nr + rc.1) (nc + rc.2)
                  ∨ ∃ q, grid_get (pieceGrid b) (nr + rc.1) (nc + rc.2) = Some (Some q)
                         ∧ q ≠ this))
              (λ rc, moveTo_rejects this nr nc ntg b rc.1 rc.2) window)
    as (res & Hres & Hiff).
  { intros [sr sc] Hin. apply elem_of_window in Hin.
    by apply moveTo_rejects_spec. }
  exists res. split; [done|]. rewrite Hiff. unfold blocked. split.
  - intros ([sr sc] & _ & H). eauto.
  - intros (sr & sc & Ht & H). exists (sr, sc). split; [|done].
    apply elem_of_window. by eapply tg_get_Some.
Qed.

Lemma write_tile_unfold tg r0 c0 v sr sc g :
  write_tile tg r0 c0 v sr sc g =
  tg_get tg sr sc ≫= λ t : bool,
    if t then grid_set g (r0 + sr) (c0 + sc) v else Some g.
Proof. reflexivity. Qed.

Lemma write_cells_spec tg r0 c0 v cells g :
  grid_wf g →
  (∀ sr sc, (sr, sc) ∈ cells → tg_get tg sr sc = Some true →
            in_bounds (r0 + sr) (c0 + sc)) →
  (∀ sr sc, (sr, sc) ∈ cells → in_window sr sc) →
  ∃ g', loop_state (λ rc : Z * Z, write_tile tg r0 c0 v rc.1 rc.2) cells g = Some g'
        ∧ grid_wf g'
        ∧ (∀ sr sc, (sr, sc) ∈ cells → tg_get tg sr sc = Some true →
                    grid_get g' (r0 + sr) (c0 + sc) = Some v)
        ∧ (∀ r c, (∀ sr sc, (sr, sc) ∈ cells → tg_get tg sr sc = Some true →
                            ¬ (r = r0 + sr ∧ c = c0 + sc)) →
                  grid_get g' r c = grid_get g r c).
Proof.
  revert g.
  induction cells as [|[sr sc] cells IH]; intros g Hwf Hin Hwin;
    cbn [loop_state fst snd].
  - exists g. split; [done|]. split; [done|]. split; [|done].
    intros ? ? H. by apply elem_of_nil in H.
  - rewrite write_tile_unfold.
    destruct (tg_get_is_Some tg sr sc) as [t Ht]; [apply Hwin; left|].
    rewrite Ht. cbn [mbind option_bind].
    assert (∃ g1, (if t then grid_set g (r0 + sr) (c0 + sc) v else Some g) = Some g1
                  ∧ grid_wf g1
                  ∧ ∀ r c, grid_get g1 r c =
                           if decide (t = true ∧ r = r0 + sr ∧ c = c0 + sc)
                           then Some v else grid_get g r c)
      as (g1 & -> & Hwf1 & Hg1).
    { destruct t.
      - destruct (grid_set_spec g (r0 + sr) (c0 + sc) v Hwf) as (g1 & ? & ? & Hg1).
        { apply Hin; [left|done]. }
        exists g1. split; [done|]. split; [done|]. intros r c. rewrite Hg1.
        destruct (decide (r = r0 + sr ∧ c = c0 + sc)).
        + by rewrite decide_True.
        + rewrite decide_False; [done|]. intros [_ ?]. done.
      - exists g. split; [done|]. split; [done|]. intros r c.
        rewrite decide_False; [done|]. intros [? _]. done. }
    cbn [mbind option_bind]. destruct (IH g1 Hwf1) as (g' & Hg' & Hwf' & Hset & Hkeep).
    { intros ? ? ?. apply Hin. by right. }
    { intros ? ? ?. apply Hwin. by right. }
    exists g'. split; [done|]. split; [done|]. split.
    + intros sr' sc' Hin' Ht'.
      destruct (decide ((sr', sc') ∈ cells)) as [?|Hnin]; [by apply Hset|].
      apply elem_of_cons in Hin' as [Heq|?]; [|done]. injection Heq as -> ->.
      rewrite Hkeep.
      * rewrite Hg1. rewrite decide_True; [done|].
        rewrite Ht in Ht'. by injection Ht' as ->.
      * intros a c' Hin'' _ [? ?]. assert (a = sr) as -> by lia.
        assert (c' = sc) as -> by lia. done.
    + intros r c Hno. rewrite Hkeep.
      * rewrite Hg1. rewrite decide_False; [done|].
        intros (-> & ? & ?). eapply (Hno sr sc); [left|done|done].
      * intros ? ? ? ?. apply Hno; [by right|done].
Qed.

Lemma write_tiles_spec tg r0 c0 v g :
  grid_wf g →
  (∀ r c, covers tg r0 c0 r c = true → in_bounds r c) →
  ∃ g', write_tiles tg r0 c0 v g = Some g' ∧ grid_wf g' ∧
        ∀ r c, grid_get g' r c =
               if covers tg r0 c0 r c then Some v else grid_get g r c.
Proof.
  intros Hwf Hb. unfold write_tiles.
  rewrite (loop_state_nested (write_tile tg r0 c0 v)). fold window.
  destruct (write_cells_spec tg r0 c0 v window g Hwf)
    as (g' & Hg' & Hwf' & Hset & Hkeep).
  { intros sr sc _ Ht. apply Hb. by apply covers_tile. }
  { intros sr sc H. by apply elem_of_window. }
  exists g'. split; [done|]. split; [done|]. intros r c.
  destruct (covers tg r0 c0 r c) eqn:E.
  - apply covers_spec in E as (sr & sc & Ht & -> & ->).
    apply Hset; [|done]. apply elem_of_window. by eapply tg_get_Some.
  - apply Hkeep. intros sr sc _ Ht [-> ->].
    apply (proj2 (covers_tile tg r0 c0 sr sc)) in Ht. congruence.
Qed.

Lemma in_bounds_dec r c : in_bounds r c ∨ ¬ in_bounds r c.
Proof. unfold in_bounds. lia. Qed.

(** The placement is accepted: every tile of the candidate is on the board,
    on a free cell or on a cell of the piece itself. *)
Lemma not_blocked_iff this nr nc ntg b :
  ¬ blocked this nr nc ntg b ↔
  ∀ r c, covers ntg nr nc r c = true →
         in_bounds r c ∧ ∀ q, grid_get (pieceGrid b) r c = Some (Some q) → q = this.
Proof.
  unfold blocked. split.
  - intros Hnb r c Hc. apply covers_spec in Hc as (sr & sc & Ht & -> & ->). split.
    + destruct (in_bounds_dec (nr + sr) (nc + sc)) as [?|Hout]; [done|].
      exfalso. apply Hnb. eauto.
    + intros q Hq. destruct (decide (q = this)) as [?|Hne]; [done|].
      exfalso. apply Hnb. exists sr, sc. split; [done|]. right. eauto.
  - intros Hfree (sr & sc & Ht & Hbad).
    destruct (Hfree (nr + sr) (nc + sc)) as [Hin Hq]; [by apply covers_tile|].
    destruct Hbad as [?|(q & Hq' & Hne)]; [done|]. by apply Hq in Hq'.
Qed.

Lemma moveTo_blocked this nr nc ntg b p :
  grid_wf (pieceGrid b) → pieces b !! this = Some p →
  blocked this nr nc ntg b →
  moveTo this nr nc ntg b = Some (false, b).
Proof.
  intros Hwf Hp Hbl. unfold moveTo. rewrite Hp. cbn [mbind option_bind].
  destruct (moveTo_check this nr nc ntg b Hwf) as (res & -> & Hres).
  apply Hres in Hbl as ->. reflexivity.
Qed.

Lemma moveTo_free this nr nc ntg b p :
  grid_wf (pieceGrid b) → pieces b !! this = Some p →
  ¬ blocked this nr nc ntg b →
  (∀ r c, occupies p r c = true → in_bounds r c) →
  ∃ g', moveTo this nr nc ntg b =
          Some (true, set_pieces (<[this := set_anchor nr nc p]> (pieces b))
                        (set_pieceGrid g' b))
        ∧ grid_wf g'
        ∧ ∀ r c, grid_get g' r c =
                 if covers ntg nr nc r c then Some (Some this)
                 else if occupies p r c then Some None
                 else grid_get (pieceGrid b) r c.
Proof.
  intros Hwf Hp Hnb Hin. unfold moveTo. rewrite Hp. cbn [mbind option_bind].
  destruct (moveTo_check this nr nc ntg b Hwf) as (res & -> & Hres).
  destruct res; [exfalso; by apply Hnb, Hres|]. cbn [mbind option_bind].
  destruct (write_tiles_spec (tileGrid p) (row p) (col p) None (pieceGrid b) Hwf Hin)
    as (g1 & -> & Hwf1 & Hg1).
  cbn [mbind option_bind].
  destruct (write_tiles_spec ntg nr nc (Some this) g1 Hwf1) as (g2 & -> & Hwf2 & Hg2).
  { intros r c Hc. by apply (proj1 (not_blocked_iff _ _ _ _ _) Hnb). }
  cbn [mbind option_bind]. exists g2. split; [done|]. split; [done|].
  intros r c. rewrite Hg2, Hg1. reflexivity.
Qed.

Lemma moveTo_total this nr nc ntg b p :
  grid_wf (pieceGrid b) → pieces b !! this = Some p →
  (∀ r c, occupies p r c = true → in_bounds r c) →
  blocked this nr nc ntg b ∨ ¬ blocked this nr nc ntg b.
Proof.
  intros Hwf _ _. destruct (moveTo_check this nr nc ntg b Hwf) as ([|] & _ & Hres).
  - left. by apply Hres.
  - right. intros H. apply Hres in H. discriminate.
Qed.

(** ** The invariant of the board *)

Lemma consistent_I1 b : consistent b → I1 b.
Proof.
  intros [Hwf Hgrid Hpiece Hok] i p Hp r c Hb. rewrite occupiedCells_spec. split.
  - apply Hpiece; [by eapply lookup_lt_Some|done].
  - intros H. destruct (Hgrid r c i H) as (_ & q & Hq & Ho). congruence.
Qed.

Lemma set_anchor_same p : set_anchor (row p) (col p) p = p.
Proof. by destruct p. Qed.

(** A piece of a consistent board takes an accepted placement. *)
Lemma relocate_consistent this nr nc ntg b p g' :
  consistent b → pieces b !! this = Some p →
  ¬ blocked this nr nc ntg b →
  (∃ r c, tg_get ntg r c = Some true) →
  grid_wf g' →
  (∀ r c, grid_get g' r c =
          if covers ntg nr nc r c then Some (Some this)
          else if occupies p r c then Some None
          else grid_get (pieceGrid b) r c) →
  consistent (set_pieces (<[this := mkPiece ntg (color p) nr nc]> (pieces b))
                         (set_pieceGrid g' b)).
Proof.
  intros [Hwf Hgrid Hpiece Hok] Hp Hnb Hne Hwf' Hg'.
  pose proof (lookup_lt_Some _ _ _ Hp) as Hlt.
  pose proof (proj1 (not_blocked_iff _ _ _ _ _) Hnb) as Hfree.
  unfold consistent. cbn [pieces set_pieces set_pieceGrid pieceGrid].
  rewrite length_insert. constructor; cbn [pieces set_pieces set_pieceGrid pieceGrid].
  - done.
  - intros r c i Hi. rewrite Hg' in Hi.
    destruct (covers ntg nr nc r c) eqn:Ec.
    + injection Hi as <-. split; [done|]. eexists.
      rewrite list_lookup_insert_eq by done. split; [done|]. done.
    + destruct (occupies p r c) eqn:Eo; [discriminate|].
      destruct (Hgrid r c i Hi) as (Hlt' & q & Hq & Hoq). split; [done|].
      destruct (decide (i = this)) as [->|Hne'].
      { rewrite Hp in Hq. injection Hq as <-. congruence. }
      exists q. by rewrite list_lookup_insert_ne.
  - intros i q Hlt' Hq r c Hoq. rewrite Hg'.
    destruct (decide (i = this)) as [->|Hne'].
    + rewrite list_lookup_insert_eq in Hq by done. injection Hq as <-.
      change (covers ntg nr nc r c = true) in Hoq. by rewrite Hoq.
    + rewrite list_lookup_insert_ne in Hq by done.
      pose proof (Hpiece i q Hlt' Hq r c Hoq) as Hold.
      destruct (covers ntg nr nc r c) eqn:Ec.
      * destruct (Hfree r c Ec) as [_ Hq']. apply Hq' in Hold. done.
      * destruct (occupies p r c) eqn:Eo; [|done].
        rewrite (Hpiece this p Hlt Hp r c Eo) in Hold. by injection Hold.
  - intros i q Hq. destruct (decide (i = this)) as [->|Hne'].
    + rewrite list_lookup_insert_eq in Hq by done. injection Hq as <-. split.
      * intros r c Hc. by apply Hfree.
      * destruct Hne as (sr & sc & Ht). exists (nr + sr), (nc + sc).
        by apply covers_tile.
    + rewrite list_lookup_insert_ne in Hq by done. by eapply Hok.
Qed.

(** The piece [k], not yet written, takes its own place in the grid. *)
Lemma register_step k b p :
  registered k b → pieces b !! k = Some p →
  ¬ blocked k (row p) (col p) (tileGrid p) b →
  ∃ g', moveTo k (row p) (col p) (tileGrid p) b = Some (true, set_pieceGrid g' b)
        ∧ registered (S k) (set_pieceGrid g' b).
Proof.
  intros [Hwf Hgrid Hpiece Hok] Hp Hnb.
  pose proof (proj1 (not_blocked_iff _ _ _ _ _) Hnb) as Hfree.
  destruct (moveTo_free k (row p) (col p) (tileGrid p) b p Hwf Hp Hnb)
    as (g' & Hmove & Hwf' & Hg').
  { by apply (Hok k p). }
  rewrite set_anchor_same, list_insert_id in Hmove by done.
  exists g'. split; [by destruct b|].
  constructor; cbn [pieces set_pieceGrid pieceGrid].
  - done.
  - intros r c i Hi. rewrite Hg' in Hi. fold (occupies p r c) in Hi.
    destruct (occupies p r c) eqn:Eo.
    + injection Hi as <-. split; [lia|]. eauto.
    + destruct (Hgrid r c i Hi) as (Hlt' & Hq). split; [lia|done].
  - intros i q Hlt' Hq r c Hoq. rewrite Hg'. fold (occupies p r c).
    destruct (decide (i = k)) as [->|Hne'].
    + rewrite Hp in Hq. injection Hq as <-. by rewrite Hoq.
    + assert (i < k)%nat as Hlt by lia.
      pose proof (Hpiece i q Hlt Hq r c Hoq) as Hold.
      destruct (occupies p r c) eqn:Eo; [|done].
      destruct (Hfree r c Eo) as [_ Hq']. apply Hq' in Hold. done.
  - done.
Qed.

Lemma register_blocked k b p :
  registered k b → pieces b !! k = Some p →
  blocked k (row p) (col p) (tileGrid p) b →
  moveTo k (row p) (col p) (tileGrid p) b = Some (false, b).
Proof. intros [Hwf _ _ _] Hp Hbl. by eapply moveTo_blocked. Qed.

(** ** [Piece::move] and [Piece::rotate] *)

Lemma dest_DOWN p : dest_row DOWN p = row p + 1 ∧ dest_col DOWN p = col p.
Proof.
  unfold dest_row, dest_col.
  rewrite bool_decide_true, !bool_decide_false by done. cbn. lia.
Qed.

Lemma move_blocked this d b p :
  grid_wf (pieceGrid b) → pieces b !! this = Some p →
  blocked this (dest_row d p) (dest_col d p) (tileGrid p) b →
  move this d b = Some (bool_decide (d = DOWN), b).
Proof.
  intros Hwf Hp Hbl. unfold move. rewrite Hp. cbn [mbind option_bind].
  fold (dest_row d p) (dest_col d p).
  by rewrite (moveTo_blocked _ _ _ _ _ _ Hwf Hp Hbl).
Qed.

Lemma move_free this d b p :
  grid_wf (pieceGrid b) → pieces b !! this = Some p →
  (∀ r c, occupies p r c = true → in_bounds r c) →
  ¬ blocked this (dest_row d p) (dest_col d p) (tileGrid p) b →
  ∃ g', move this d b =
          Some (false,
                set_pieces (<[this := set_anchor (dest_row d p) (dest_col d p) p]>
                              (pieces b))
                           (set_pieceGrid g' b))
        ∧ grid_wf g'
        ∧ ∀ r c, grid_get g' r c =
                 if covers (tileGrid p) (dest_row d p) (dest_col d p) r c
                 then Some (Some this)
                 else if occupies p r c then Some None
                 else grid_get (pieceGrid b) r c.
Proof.
  intros Hwf Hp Hin Hnb. unfold move. rewrite Hp. cbn [mbind option_bind].
  fold (dest_row d p) (dest_col d p).
  destruct (moveTo_free _ _ _ _ _ _ Hwf Hp Hnb Hin) as (g' & -> & Hwf' & Hg').
  exists g'. done.
Qed.

Lemma move_free_consistent this d b p :
  consistent b → pieces b !! this = Some p →
  ¬ blocked this (dest_row d p) (dest_col d p) (tileGrid p) b →
  ∃ b', move this d b = Some (false, b')
        ∧ consistent b'
        ∧ pieces b' = <[this := set_anchor (dest_row d p) (dest_col d p) p]> (pieces b)
        ∧ activePiece b' = activePiece b.
Proof.
  intros Hc Hp Hnb. pose proof Hc as [Hwf _ _ Hok].
  destruct (Hok this p Hp) as [Hin (r & c & Ho)].
  destruct (move_free this d b p Hwf Hp Hin Hnb) as (g' & Hmove & Hwf' & Hg').
  eexists. split; [done|]. split; [|done].
  apply (relocate_consistent this _ _ (tileGrid p) b p g'); try done.
  unfold occupies in Ho. apply covers_spec in Ho as (sr & sc & Ht & _). eauto.
Qed.

Lemma occupies_set_anchor p r0 c0 r c :
  occupies (set_anchor r0 c0 p) r c = covers (tileGrid p) r0 c0 r c.
Proof. reflexivity. Qed.

Lemma covers_shift tg r0 c0 r c dr dc :
  covers tg (r0 + dr) (c0 + dc) (r + dr) (c + dc) = covers tg r0 c0 r c.
Proof.
  unfold covers.
  replace (r + dr - (r0 + dr)) with (r - r0) by lia.
  replace (c + dc - (c0 + dc)) with (c - c0) by lia. reflexivity.
Qed.

(** The loop [while (!piece.move(Direction::DOWN, *this))] ends: a piece with
    a tile on row [r] goes down fewer than [NUM_ROWS - r] times. *)
Lemma settle_consistent_aux i fuel :
  ∀ b p r c,
    consistent b → pieces b !! i = Some p → occupies p r c = true →
    (Z.to_nat (NUM_ROWS - r) ≤ fuel)%nat →
    ∃ b', settle fuel i b = Some b' ∧ consistent b'
          ∧ length (pieces b') = length (pieces b)
          ∧ ∃ p', pieces b' !! i = Some p'
                  ∧ blocked i (row p' + 1) (col p') (tileGrid p') b'.
Proof.
  induction fuel as [|fuel IH]; intros b p r c Hc Hp Ho Hfuel.
  - pose proof Hc as [_ _ _ Hok]. destruct (Hok i p Hp) as [Hin _].
    apply Hin in Ho as [Hr _]. unfold NUM_ROWS in *. lia.
  - pose proof Hc as [Hwf _ _ Hok]. destruct (Hok i p Hp) as [Hin _].
    cbn [settle].
    destruct (moveTo_total i (dest_row DOWN p) (dest_col DOWN p) (tileGrid p) b p
                Hwf Hp Hin) as [Hbl|Hnb].
    + rewrite (move_blocked i DOWN b p Hwf Hp Hbl). cbn.
      exists b. split; [done|]. split; [done|]. split; [done|].
      exists p. split; [done|].
      destruct (dest_DOWN p) as [Er Ec]. by rewrite Er, Ec in Hbl.
    + destruct (move_free_consistent i DOWN b p Hc Hp Hnb)
        as (b1 & -> & Hc1 & Hps & _). cbn [mbind option_bind].
      assert (pieces b1 !! i = Some (set_anchor (dest_row DOWN p) (dest_col DOWN p) p))
        as Hp1.
      { rewrite Hps. apply list_lookup_insert_eq. by eapply lookup_lt_Some. }
      assert (occupies (set_anchor (dest_row DOWN p) (dest_col DOWN p) p) (r + 1) c = true)
        as Ho1.
      { rewrite occupies_set_anchor. destruct (dest_DOWN p) as [-> ->].
        unfold occupies in Ho. rewrite <- (covers_shift _ _ _ _ _ 1 0) in Ho.
        by replace (col p + 0) with (col p) in Ho by lia;
           replace (c + 0) with c in Ho by lia. }
      destruct (IH b1 _ (r + 1) c Hc1 Hp1 Ho1) as (b' & Hb' & Hc' & Hlen & Hp').
      { pose proof Hc1 as [_ _ _ Hok1]. destruct (Hok1 i _ Hp1) as [Hin1 _].
        apply Hin1 in Ho1 as [Hr _]. unfold NUM_ROWS in *. lia. }
      exists b'. split; [done|]. split; [done|]. split; [|done].
      rewrite Hlen, Hps. apply length_insert.
Qed.

Lemma settle_consistent i fuel b :
  consistent b → (i < length (pieces b))%nat → (Z.to_nat NUM_ROWS ≤ fuel)%nat →
  ∃ b', settle fuel i b = Some b' ∧ consistent b'
        ∧ length (pieces b') = length (pieces b)
        ∧ ∃ p', pieces b' !! i = Some p'
                ∧ blocked i (row p' + 1) (col p') (tileGrid p') b'.
Proof.
  intros Hc Hi Hfuel. destruct (lookup_lt_is_Some_2 _ _ Hi) as [p Hp].
  pose proof Hc as [_ _ _ Hok]. destruct (Hok i p Hp) as [Hin (r & c & Ho)].
  apply (settle_consistent_aux i fuel b p r c); try done.
  apply Hin in Ho as [Hr _]. unfold NUM_ROWS in *. lia.
Qed.

Lemma option_bind_Some {A B} (x : A) (f : A → option B) : Some x ≫= f = f x.
Proof. reflexivity. Qed.

Lemma rotate_blocked this b p ntg :
  grid_wf (pieceGrid b) → pieces b !! this = Some p →
  rotate_tiles (tileGrid p) = Some ntg →
  blocked this (row p) (col p) ntg b →
  rotate this b = Some b.
Proof.
  intros Hwf Hp Hrot Hbl. unfold rotate.
  rewrite Hp, option_bind_Some, Hrot, option_bind_Some.
  rewrite (moveTo_blocked _ _ _ _ _ _ Hwf Hp Hbl). reflexivity.
Qed.

Lemma rotate_free this b p ntg :
  grid_wf (pieceGrid b) → pieces b !! this = Some p →
  (∀ r c, occupies p r c = true → in_bounds r c) →
  rotate_tiles (tileGrid p) = Some ntg →
  ¬ blocked this (row p) (col p) ntg b →
  ∃ g', rotate this b =
          Some (set_pieces (<[this := mkPiece ntg (color p) (row p) (col p)]> (pieces b))
                           (set_pieceGrid g' b))
        ∧ grid_wf g'
        ∧ ∀ r c, grid_get g' r c =
                 if covers ntg (row p) (col p) r c then Some (Some this)
                 else if occupies p r c then Some None
                 else grid_get (pieceGrid b) r c.
Proof.
  intros Hwf Hp Hin Hrot Hnb. unfold rotate.
  rewrite Hp, option_bind_Some, Hrot, option_bind_Some. clear Hrot.
  destruct (moveTo_free _ _ _ _ _ _ Hwf Hp Hnb Hin) as (g' & -> & Hwf' & Hg').
  cbn [mbind option_bind pieces set_pieces].
  rewrite list_lookup_insert_eq by (eapply lookup_lt_Some, Hp).
  cbn [mbind option_bind]. rewrite list_insert_insert_eq.
  exists g'. split; [reflexivity|]. split; [exact Hwf'|exact Hg'].
Qed.

Lemma rotate_consistent this b :
  consistent b → (this < length (pieces b))%nat →
  ∃ b', rotate this b = Some b' ∧ consistent b'
        ∧ length (pieces b') = length (pieces b)
        ∧ activePiece b' = activePiece b.
Proof.
  intros Hc Hlt. destruct (lookup_lt_is_Some_2 _ _ Hlt) as [p Hp].
  pose proof Hc as [Hwf _ _ Hok]. destruct (Hok this p Hp) as [Hin (r & c & Ho)].
  destruct (rotate_tiles_spec (tileGrid p)) as (ntg & Hrot & _).
  assert (∃ sr sc, tg_get ntg sr sc = Some true) as Hne.
  { apply (rotate_tiles_nonempty (tileGrid p) ntg Hrot).
    unfold occupies in Ho. apply covers_spec in Ho as (sr & sc & Ht & _). eauto. }
  destruct (moveTo_total this (row p) (col p) ntg b p Hwf Hp Hin) as [Hbl|Hnb].
  - exists b. rewrite (rotate_blocked this b p ntg Hwf Hp Hrot Hbl). clear Hrot. done.
  - destruct (rotate_free this b p ntg Hwf Hp Hin Hrot Hnb) as (g' & -> & Hwf' & Hg').
    clear Hrot.
    eexists. split; [done|]. split; [|split; [apply length_insert|done]].
    by apply (relocate_consistent this _ _ ntg b p g').
Qed.

(** ** Pieces that share no cell *)

Lemma disjoint_sym p q : disjoint p q → disjoint q p.
Proof. intros H r c [? ?]. by apply (H r c). Qed.

Lemma apart_lookup ps i j p q :
  apart ps → ps !! i = Some p → ps !! j = Some q → i ≠ j → disjoint p q.
Proof.
  intros Ha. revert i j. induction Ha as [|x ps Hx Ha IH]; intros i j Hi Hj Hne.
  - done.
  - destruct i as [|i], j as [|j]; simpl in *; try done.
    + injection Hi as <-. eapply Forall_lookup_1 in Hx; eauto.
    + injection Hj as <-. apply disjoint_sym.
      eapply Forall_lookup_1 in Hx; eauto.
    + eapply IH; eauto.
Qed.

Lemma lookup_apart ps :
  (∀ i j p q, ps !! i = Some p → ps !! j = Some q → i ≠ j → disjoint p q) →
  apart ps.
Proof.
  induction ps as [|x ps IH]; intros H; constructor.
  - apply Forall_lookup_2. intros j q Hj. by apply (H 0%nat (S j)).
  - apply IH. intros i j p q Hi Hj Hne. apply (H (S i) (S j)); [done|done|lia].
Qed.

Lemma consistent_apart b : consistent b → apart (pieces b).
Proof.
  intros [_ _ Hpiece _]. apply lookup_apart. intros i j p q Hi Hj Hne r c [Hp Hq].
  apply (Hpiece i p (lookup_lt_Some _ _ _ Hi) Hi) in Hp.
  apply (Hpiece j q (lookup_lt_Some _ _ _ Hj) Hj) in Hq. congruence.
Qed.

Lemma apart_shrink ps i p p' :
  apart ps → ps !! i = Some p →
  (∀ r c, occupies p' r c = true → occupies p r c = true) →
  apart (<[i := p']> ps).
Proof.
  intros Ha Hp Hsub. pose proof (lookup_lt_Some _ _ _ Hp) as Hlt.
  apply lookup_apart. intros j k q1 q2 Hj Hk Hne r c [H1 H2].
  destruct (decide (j = i)) as [->|Hji], (decide (k = i)) as [->|Hki]; try done.
  - rewrite list_lookup_insert_eq in Hj by done. injection Hj as <-.
    rewrite list_lookup_insert_ne in Hk by done.
    apply (apart_lookup ps i k p q2 Ha Hp Hk Hne r c). split; [by apply Hsub|done].
  - rewrite list_lookup_insert_eq in Hk by done. injection Hk as <-.
    rewrite list_lookup_insert_ne in Hj by done.
    apply (apart_lookup ps j i q1 p Ha Hj Hp Hne r c). split; [done|by apply Hsub].
  - rewrite list_lookup_insert_ne in Hj, Hk by done.
    apply (apart_lookup ps j k q1 q2 Ha Hj Hk Hne r c). done.
Qed.

(** ** [Piece::removeTile] *)

Lemma removeTile_tile p r c :
  occupies p r c = true →
  ∃ tg, tg_set (tileGrid p) (r - row p) (c - col p) false = Some tg
        ∧ removeTile p r c = Some (set_tileGrid tg p)
        ∧ ∀ r' c', occupies (set_tileGrid tg p) r' c' =
                   if decide (r' = r ∧ c' = c) then false else occupies p r' c'.
Proof.
  unfold occupies, covers, removeTile. intros Ho.
  destruct (tg_get (tileGrid p) (r - row p) (c - col p)) as [[|]|] eqn:E; try done.
  destruct (tg_set_is_Some (tileGrid p) (r - row p) (c - col p) false) as [tg Htg].
  { by eapply tg_get_Some. }
  exists tg. cbn [mbind option_bind negb]. rewrite Htg. cbn [mbind option_bind].
  split; [done|]. split; [done|]. intros r' c'. cbn [tileGrid set_tileGrid row col].
  rewrite (tg_get_set _ _ _ _ _ (r' - row p) (c' - col p) Htg).
  destruct (decide (r' = r ∧ c' = c)) as [[-> ->]|Hne].
  - by rewrite decide_True.
  - rewrite decide_False; [done|]. intros [? ?]. apply Hne. lia.
Qed.

Lemma removeTile_no_tile p r c :
  in_window (r - row p) (c - col p) → occupies p r c = false →
  removeTile p r c = Some p.
Proof.
  unfold occupies, covers, removeTile. intros Hw Ho.
  destruct (tg_get_is_Some (tileGrid p) _ _ Hw) as [t Ht]. rewrite Ht in *.
  destruct t; [done|]. reflexivity.
Qed.

Lemma removeTile_outside p r c :
  ¬ in_window (r - row p) (c - col p) → removeTile p r c = None.
Proof.
  intros Hw. unfold removeTile. by rewrite (tg_get_None _ _ _ Hw).
Qed.

(** ** [Board::isRowFull] *)

Lemma isRowFull_spec r b :
  grid_wf (pieceGrid b) → 0 <= r < NUM_ROWS →
  ∃ full,
    isRowFull r b =
      Some (full, if full : bool then set_rowsCompleted (rowsCompleted b + 1) b else b)
    ∧ (full = true ↔
       ∀ c, 0 <= c < NUM_COLS → ∃ i, grid_get (pieceGrid b) r c = Some (Some i)).
Proof.
  intros Hwf Hr. unfold isRowFull.
  destruct (loop_until_spec
              (λ c, grid_get (pieceGrid b) r c = Some None)
              (λ c, cell ← grid_get (pieceGrid b) r c;
                    Some (bool_decide (cell = None)))
              (seqZ 0 NUM_COLS)) as (hole & -> & Hhole).
  { intros c Hc. apply elem_of_seqZ in Hc.
    destruct (grid_get_in_bounds (pieceGrid b) r c Hwf) as [cell Hcell].
    { unfold in_bounds. lia. }
    rewrite Hcell. cbn [mbind option_bind]. eexists. split; [done|].
    rewrite bool_decide_eq_true. split; congruence. }
  cbn [mbind option_bind]. destruct hole.
  - exists false. split; [done|]. split; [done|]. intros Hall.
    destruct (proj1 Hhole eq_refl) as (c & Hc & Hnone).
    apply elem_of_seqZ in Hc. destruct (Hall c) as [i Hi]; [lia|]. congruence.
  - exists true. split; [done|]. split; [|done]. intros _ c Hc.
    destruct (grid_get_in_bounds (pieceGrid b) r c Hwf) as [[i|] Hcell].
    { unfold in_bounds. lia. }
    + eauto.
    + assert (false = true); [|done]. apply Hhole. exists c.
      split; [apply elem_of_seqZ; lia|done].
Qed.

(** ** One row of [Board::collapseFullRows] *)

Lemma no_tile_left_spec p :
  ∃ x, no_tile_left p = Some x ∧ (x = false ↔ ∃ r c, occupies p r c = true).
Proof.
  unfold no_tile_left.
  rewrite (loop_until_nested (tg_get (tileGrid p))). fold window.
  destruct (loop_until_spec
              (λ rc : Z * Z, tg_get (tileGrid p) rc.1 rc.2 = Some true)
              (λ rc, tg_get (tileGrid p) rc.1 rc.2) window) as (found & -> & Hfound).
  { intros [sr sc] Hin. apply elem_of_window in Hin.
    destruct (tg_get_is_Some (tileGrid p) sr sc Hin) as [t Ht].
    exists t. split; [done|]. cbn [fst snd]. rewrite Ht. split; congruence. }
  cbn [mbind option_bind]. eexists. split; [done|].
  rewrite negb_false_iff, Hfound. split.
  - intros ([sr sc] & _ & Ht). exists (row p + sr), (col p + sc).
    by apply covers_tile.
  - intros (r & c & Ho). apply covers_spec in Ho as (sr & sc & Ht & _).
    exists (sr, sc). split; [|done]. apply elem_of_window. by eapply tg_get_Some.
Qed.

Lemma erase_spec ps :
  ∃ ps', erase_remove_if no_tile_left ps = Some ps'
         ∧ (∀ q, q ∈ ps' → q ∈ ps ∧ ∃ r c, occupies q r c = true)
         ∧ (apart ps → apart ps').
Proof.
  induction ps as [|x ps (ps' & IH & Hin & Hap)]; cbn [erase_remove_if].
  - exists []. split; [done|]. split; [|done]. intros q Hq. by apply elem_of_nil in Hq.
  - destruct (no_tile_left_spec x) as (out & -> & Hout). rewrite IH.
    cbn [mbind option_bind]. eexists. split; [done|]. destruct out.
    + split.
      * intros q Hq. destruct (Hin q Hq). split; [by right|done].
      * intros Ha. inversion Ha. auto.
    + split.
      * intros q Hq. apply elem_of_cons in Hq as [->|Hq].
        -- split; [left|]. by apply Hout.
        -- destruct (Hin q Hq). split; [by right|done].
      * intros Ha. inversion Ha as [|? ? Hx Ha']; subst. constructor; [|auto].
        apply Forall_forall. intros q Hq. destruct (Hin q Hq) as [Hq' _].
        by eapply Forall_forall in Hx.
Qed.

Lemma clear_cell_step r k b :
  0 <= r < NUM_ROWS → Z.of_nat k < NUM_COLS → clearing r k b →
  ∃ b', clear_cell r (Z.of_nat k) b = Some b' ∧ clearing r (S k) b'.
Proof.
  intros Hr Hk [Hwf Htodo Hbounds Hapart].
  destruct (Htodo (Z.of_nat k)) as (i & p & Hcell & Hp & Ho); [lia|].
  unfold clear_cell. rewrite Hcell. cbn [mbind option_bind]. rewrite Hp.
  cbn [mbind option_bind].
  destruct (removeTile_tile p r (Z.of_nat k) Ho) as (tg & _ & -> & Hocc).
  cbn [mbind option_bind].
  destruct (grid_set_spec (pieceGrid b) r (Z.of_nat k) None Hwf) as (g' & -> & Hwf' & Hg').
  { unfold in_bounds. lia. }
  cbn [mbind option_bind]. eexists. split; [done|].
  pose proof (lookup_lt_Some _ _ _ Hp) as Hlt.
  constructor; cbn [pieces pieceGrid set_pieces set_pieceGrid].
  - done.
  - intros c Hc. destruct (Htodo c) as (j & q & Hcell' & Hq & Hoq); [lia|].
    rewrite Hg', decide_False by lia.
    destruct (decide (j = i)) as [->|Hne].
    + exists i, (set_tileGrid tg p). split; [done|].
      rewrite list_lookup_insert_eq by done. split; [done|].
      rewrite Hocc, decide_False by lia. congruence.
    + exists j, q. split; [done|]. by rewrite list_lookup_insert_ne.
  - intros j q Hq r' c' Hoq. destruct (decide (j = i)) as [->|Hne].
    + rewrite list_lookup_insert_eq in Hq by done. injection Hq as <-.
      rewrite Hocc in Hoq. destruct (decide (r' = r ∧ c' = Z.of_nat k)); [done|].
      by eapply Hbounds.
    + rewrite list_lookup_insert_ne in Hq by done. by eapply Hbounds.
  - apply (apart_shrink _ _ p); [done|done|].
    intros r' c' Hoq. rewrite Hocc in Hoq.
    by destruct (decide (r' = r ∧ c' = Z.of_nat k)).
Qed.

Lemma registered_ext k b b' :
  pieceGrid b' = pieceGrid b → pieces b' = pieces b →
  registered k b → registered k b'.
Proof.
  intros Hg Hp [Hwf Hgrid Hpiece Hok]. constructor; rewrite ?Hg, ?Hp; done.
Qed.

(** Pieces that share no cell are written back one after the other. *)
Lemma replace_piece_step k b :
  registered k b → apart (pieces b) → (k < length (pieces b))%nat →
  ∃ g', replace_piece k b = Some (set_pieceGrid g' b)
        ∧ registered (S k) (set_pieceGrid g' b).
Proof.
  intros Hreg Hap Hk. destruct (lookup_lt_is_Some_2 _ _ Hk) as [p Hp].
  assert (¬ blocked k (row p) (col p) (tileGrid p) b) as Hnb.
  { apply not_blocked_iff. intros r c Hc. pose proof Hreg as [_ Hgrid _ Hok].
    split; [by apply (Hok k p Hp)|].
    intros q Hq. destruct (Hgrid r c q Hq) as (Hlt & p' & Hp' & Ho).
    exfalso. apply (apart_lookup _ q k p' p Hap Hp' Hp) with r c; [lia|done]. }
  destruct (register_step k b p Hreg Hp Hnb) as (g' & Hmove & Hreg').
  exists g'. unfold replace_piece. rewrite Hp. cbn [mbind option_bind].
  rewrite Hmove. done.
Qed.

Lemma collapse_row_consistent fuel r b :
  consistent b → 0 <= r < NUM_ROWS → (Z.to_nat NUM_ROWS ≤ fuel)%nat →
  ∃ b', collapse_row fuel r b = Some b' ∧ consistent b'.
Proof.
  intros Hc Hr Hfuel. pose proof Hc as [Hwf Hgrid Hpiece Hok]. unfold collapse_row.
  destruct (isRowFull_spec r b Hwf Hr) as (full & -> & Hfull).
  cbn [mbind option_bind]. destruct full; cbn [negb]; [|by exists b].
  (* the tiles of the row are taken away *)
  destruct (loop_state_ind (clearing r) (clear_cell r) (seqZ 0 NUM_COLS)
              (set_rowsCompleted (rowsCompleted b + 1) b)) as (b2 & -> & Hclr).
  { constructor; cbn [pieces pieceGrid set_rowsCompleted].
    - done.
    - intros c Hcol. destruct (proj1 Hfull eq_refl c) as [i Hi]; [lia|].
      destruct (Hgrid r c i Hi) as (_ & p & Hp & Ho). eauto.
    - intros i p Hp. by apply (Hok i p).
    - by apply consistent_apart. }
  { intros k c s0 Hk HQ. apply lookup_seqZ in Hk as [-> Hk].
    rewrite Z.add_0_l. by apply clear_cell_step. }
  cbn [mbind option_bind]. destruct Hclr as [_ _ Hbounds Hapart].
  (* the empty pieces leave the vector *)
  destruct (erase_spec (pieces b2)) as (ps & -> & Hps & Hap).
  cbn [mbind option_bind]. specialize (Hap Hapart).
  (* the grid is written again *)
  destruct (loop_state_ind (λ k s, registered k s ∧ pieces s = ps) replace_piece
              (seq 0 (length (pieces (set_pieceGrid GRID_NULL (set_pieces ps b2)))))
              (set_pieceGrid GRID_NULL (set_pieces ps b2)))
    as (b4 & -> & Hreg & Hps4).
  { split; [|done]. constructor; cbn [pieces pieceGrid set_pieces set_pieceGrid].
    - apply GRID_NULL_wf.
    - intros r' c' i Hi.
      pose proof (grid_get_Some _ _ _ _ GRID_NULL_wf Hi) as Hb.
      rewrite (GRID_NULL_get _ _ Hb) in Hi. done.
    - intros i p Hlt. lia.
    - intros i p Hp. apply list_elem_of_lookup_2 in Hp.
      destruct (Hps p Hp) as [Hin Hne]. split; [|done].
      apply list_elem_of_lookup_1 in Hin as [j Hj]. by apply (Hbounds j p). }
  { intros k i s0 Hk [Hreg Hpieces]. apply lookup_seq in Hk as [-> Hk].
    cbn [pieces set_pieces set_pieceGrid] in Hk. rewrite Nat.add_0_l.
    destruct (replace_piece_step k s0 Hreg) as (g' & -> & Hreg').
    { by rewrite Hpieces. } { by rewrite Hpieces. }
    eexists. split; [done|]. split; [done|]. by destruct s0. }
  cbn [mbind option_bind]. rewrite length_seq in Hreg.
  cbn [pieces set_pieces set_pieceGrid] in Hreg.
  (* the pieces fall, one after the other *)
  destruct (loop_state_ind
              (λ (k : nat) s, consistent s ∧ length (pieces s) = length (pieces b4))
              (settle fuel) (seq 0 (length (pieces b4))) b4) as (b5 & -> & Hc5 & _).
  { split; [|done]. unfold consistent. by rewrite Hps4. }
  { intros k i s0 Hk [Hcs Hlen]. apply lookup_seq in Hk as [-> Hk].
    rewrite Nat.add_0_l.
    destruct (settle_consistent k fuel s0 Hcs) as (s1 & -> & Hc1 & Hlen1 & _);
      [lia|done|].
    exists s1. split; [done|]. split; [done|]. congruence. }
  by exists b5.
Qed.

Lemma collapseFullRows_consistent fuel b :
  consistent b → (Z.to_nat NUM_ROWS ≤ fuel)%nat →
  ∃ b', collapseFullRows fuel b = Some b' ∧ consistent b'.
Proof.
  intros Hc Hfuel. unfold collapseFullRows.
  destruct (loop_state_ind (λ _ : nat, consistent) (collapse_row fuel)
              (seqZ 0 NUM_ROWS) b Hc) as (b' & Hb' & Hc'); [|by exists b'].
  intros k r s0 Hk Hcs. apply lookup_seqZ in Hk as [-> Hk].
  apply collapse_row_consistent; [done|lia|done].
Qed.

(** ** Spawning *)

Lemma Piece_ctor_anchor rd ci :
  row (Piece_ctor rd ci).1 = 0 ∧ col (Piece_ctor rd ci).1 = 0
  ∧ tileGrid (Piece_ctor rd ci).1 ∈ DEFAULT_PIECES.
Proof.
  split; [done|]. split; [done|]. cbn [Piece_ctor fst tileGrid].
  pose proof (Nat.mod_upper_bound rd NUM_DEFAULT_PIECES) as Hlt.
  destruct (rd mod NUM_DEFAULT_PIECES)%nat as [|[|[|[|[|n]]]]];
    [| | | | |unfold NUM_DEFAULT_PIECES in Hlt; lia];
    cbn [nth DEFAULT_PIECES]; repeat ((by left) || right).
Qed.

Lemma Piece_ctor_ok rd ci : piece_ok (Piece_ctor rd ci).1.
Proof.
  destruct (Piece_ctor_anchor rd ci) as (Hr & Hc & Htg). split.
  - intros r c Ho. apply covers_spec in Ho as (sr & sc & Ht & -> & ->).
    apply tg_get_Some in Ht as [? ?]. rewrite Hr, Hc.
    unfold in_bounds, MAX_HEIGHT, MAX_WIDTH, NUM_ROWS, NUM_COLS in *. lia.
  - exists (row (Piece_ctor rd ci).1 + 0), (col (Piece_ctor rd ci).1 + 1).
    apply covers_tile. revert Htg. generalize (tileGrid (Piece_ctor rd ci).1).
    intros tg Htg. unfold DEFAULT_PIECES in Htg.
    repeat (apply elem_of_cons in Htg as [->|Htg]; [reflexivity|]).
    by apply elem_of_nil in Htg.
Qed.

Lemma emplace_back_spec rd b :
  pieces (emplace_back rd b) = pieces b ++ [(Piece_ctor rd (colorIndex b)).1]
  ∧ activePiece (emplace_back rd b) = length (pieces b)
  ∧ pieceGrid (emplace_back rd b) = pieceGrid b
  ∧ rowsCompleted (emplace_back rd b) = rowsCompleted b.
Proof. done. Qed.

Lemma emplace_back_registered rd b :
  consistent b → registered (length (pieces b)) (emplace_back rd b).
Proof.
  intros [Hwf Hgrid Hpiece Hok].
  destruct (emplace_back_spec rd b) as (Hps & _ & Hg & _).
  constructor; rewrite ?Hps, ?Hg.
  - done.
  - intros r c i Hi. destruct (Hgrid r c i Hi) as (Hlt & p & Hp & Ho).
    split; [done|]. exists p. by rewrite lookup_app_l.
  - intros i p Hlt Hp. rewrite lookup_app_l in Hp by done. by apply Hpiece.
  - intros i p Hp. apply lookup_app_Some in Hp as [Hp|[_ Hp]]; [by eapply Hok|].
    apply list_lookup_singleton_Some in Hp as [_ <-]. apply Piece_ctor_ok.
Qed.

Lemma update_unfold fuel d rd b :
  update fuel d rd b =
  '(shouldSpawn, b1) ←
     (if bool_decide (d = UP)
      then b' ← rotate (activePiece b) b; Some (false, b')
      else move (activePiece b) d b);
  if shouldSpawn : bool
  then b2 ← collapseFullRows fuel b1; spawn rd b2
  else Some (true, b1).
Proof. reflexivity. Qed.

Lemma spawn_spec rd b2 :
  consistent b2 →
  let b3 := emplace_back rd b2 in
  let fresh := (Piece_ctor rd (colorIndex b2)).1 in
  (blocked (activePiece b3) 0 0 (tileGrid fresh) b3 →
   spawn rd b2 = Some (false, set_pieces (pieces b2) b3))
  ∧ (¬ blocked (activePiece b3) 0 0 (tileGrid fresh) b3 →
     ∃ g', spawn rd b2 = Some (true, set_pieceGrid g' b3)
           ∧ Inv (set_pieceGrid g' b3)).
Proof.
  intros Hc b3 fresh.
  pose proof (emplace_back_registered rd b2 Hc) as Hreg. fold b3 in Hreg.
  destruct (emplace_back_spec rd b2) as (Hps & Hact & Hg & _).
  fold b3 fresh in Hps, Hact, Hg.
  assert (pieces b3 !! activePiece b3 = Some fresh) as Hp.
  { rewrite Hps, Hact. by apply list_lookup_middle. }
  destruct (Piece_ctor_anchor rd (colorIndex b2)) as (Hr & Hcol & _).
  fold fresh in Hr, Hcol. unfold spawn. fold b3. rewrite Hp.
  cbn [mbind option_bind]. rewrite Hr, Hcol. rewrite Hact in *. split.
  - intros Hbl. rewrite (moveTo_blocked _ _ _ _ _ _ (reg_wf _ _ Hreg) Hp Hbl).
    cbn [mbind option_bind negb]. by rewrite Hps, removelast_last.
  - intros Hnb.
    destruct (register_step (length (pieces b2)) b3 fresh Hreg Hp) as (g' & Hmove & Hreg').
    { by rewrite Hr, Hcol. }
    rewrite Hr, Hcol in Hmove. rewrite Hmove. cbn [mbind option_bind negb].
    exists g'. split; [done|]. split.
    + unfold consistent. cbn [pieces set_pieceGrid]. rewrite Hps, length_app.
      cbn [length]. by rewrite Nat.add_1_r.
    + cbn [pieces activePiece set_pieceGrid]. rewrite Hact, Hps, length_app.
      cbn [length]. lia.
Qed.

(** ** [Board::update] *)

Lemma move_true_blocked this d b b1 p :
  grid_wf (pieceGrid b) → pieces b !! this = Some p →
  (∀ r c, occupies p r c = true → in_bounds r c) →
  move this d b = Some (true, b1) →
  d = DOWN ∧ b1 = b ∧ blocked this (dest_row d p) (dest_col d p) (tileGrid p) b.
Proof.
  intros Hwf Hp Hin Hmove.
  destruct (moveTo_total this (dest_row d p) (dest_col d p) (tileGrid p) b p Hwf Hp Hin)
    as [Hbl|Hnb].
  - rewrite (move_blocked this d b p Hwf Hp Hbl) in Hmove.
    injection Hmove as Hd <-. by apply bool_decide_eq_true in Hd.
  - destruct (move_free this d b p Hwf Hp Hin Hnb) as (g' & Hm & _).
    rewrite Hm in Hmove. done.
Qed.

(** [Board::update] keeps the invariant, and is defined on every state that
    has it. *)
Lemma update_Inv fuel d rd b :
  Inv b → (Z.to_nat NUM_ROWS ≤ fuel)%nat →
  ∃ ok b', update fuel d rd b = Some (ok, b')
           ∧ consistent b' ∧ (ok = true → Inv b').
Proof.
  intros [Hc Hact] Hfuel. rewrite update_unfold.
  destruct (lookup_lt_is_Some_2 _ _ Hact) as [p Hp].
  pose proof Hc as [Hwf _ _ Hok]. destruct (Hok _ p Hp) as [Hin _].
  destruct (decide (d = UP)) as [->|Hd].
  - rewrite bool_decide_true by done.
    destruct (rotate_consistent (activePiece b) b Hc Hact) as (b' & -> & Hc' & Hlen & Ha).
    rewrite !option_bind_Some. exists true, b'. split; [done|]. split; [done|].
    intros _. split; [done|]. by rewrite Hlen, Ha.
  - rewrite bool_decide_false by done.
    destruct (moveTo_total (activePiece b) (dest_row d p) (dest_col d p) (tileGrid p) b p
                Hwf Hp Hin) as [Hbl|Hnb].
    + rewrite (move_blocked _ d b p Hwf Hp Hbl), option_bind_Some.
      destruct (bool_decide (d = DOWN)).
      * destruct (collapseFullRows_consistent fuel b Hc Hfuel) as (b2 & -> & Hc2).
        rewrite option_bind_Some.
        destruct (spawn_spec rd b2 Hc2) as [Hsb Hsf].
        destruct (moveTo_total (activePiece (emplace_back rd b2)) 0 0
                    (tileGrid (Piece_ctor rd (colorIndex b2)).1) (emplace_back rd b2)
                    (Piece_ctor rd (colorIndex b2)).1) as [Hbl'|Hnb'].
        { apply (reg_wf _ _ (emplace_back_registered rd b2 Hc2)). }
        { destruct (emplace_back_spec rd b2) as (-> & -> & _).
          by apply list_lookup_middle. }
        { apply Piece_ctor_ok. }
        -- rewrite (Hsb Hbl'). eexists _, _. split; [done|]. split; [|done].
           eapply registered_ext; [| |exact Hc2]; done.
        -- destruct (Hsf Hnb') as (g' & -> & Hinv). eexists _, _.
           split; [done|]. split; [apply Hinv|done].
      * exists true, b. done.
    + destruct (move_free_consistent _ d b p Hc Hp Hnb) as (b' & -> & Hc' & Hps & Ha).
      rewrite option_bind_Some. exists true, b'. split; [done|]. split; [done|].
      intros _. split; [done|]. by rewrite Ha, Hps, length_insert.
Qed.

(** ** More fuel changes nothing *)

Lemma loop_state_mono {I S} (body body' : I → S → option S) ixs s s' :
  (∀ i s0 s1, body i s0 = Some s1 → body' i s0 = Some s1) →
  loop_state body ixs s = Some s' → loop_state body' ixs s = Some s'.
Proof.
  intros Hmono. revert s. induction ixs as [|i ixs IH]; intros s; cbn [loop_state].
  - done.
  - destruct (body i s) as [s1|] eqn:E; [|done].
    rewrite (Hmono _ _ _ E). cbn [mbind option_bind]. apply IH.
Qed.

Lemma settle_mono fuel fuel' i b b' :
  (fuel ≤ fuel')%nat → settle fuel i b = Some b' → settle fuel' i b = Some b'.
Proof.
  revert fuel' b. induction fuel as [|fuel IH]; intros fuel' b Hle; [done|].
  destruct fuel' as [|fuel']; [lia|]. cbn [settle].
  destruct (move i DOWN b) as [[[|] b1]|]; cbn [mbind option_bind]; try done.
  apply IH. lia.
Qed.

Lemma collapse_row_mono fuel fuel' r b b' :
  (fuel ≤ fuel')%nat →
  collapse_row fuel r b = Some b' → collapse_row fuel' r b = Some b'.
Proof.
  intros Hle. unfold collapse_row.
  destruct (isRowFull r b) as [[[|] b1]|]; cbn [mbind option_bind negb]; try done.
  destruct (loop_state (clear_cell r) (seqZ 0 NUM_COLS) b1) as [b2|];
    cbn [mbind option_bind]; [|done].
  destruct (erase_remove_if no_tile_left (pieces b2)) as [ps|];
    cbn [mbind option_bind]; [|done].
  destruct (loop_state replace_piece _ _) as [b4|]; cbn [mbind option_bind]; [|done].
  apply loop_state_mono. intros i s0 s1. by apply settle_mono.
Qed.

Lemma collapseFullRows_mono fuel fuel' b b' :
  (fuel ≤ fuel')%nat →
  collapseFullRows fuel b = Some b' → collapseFullRows fuel' b = Some b'.
Proof.
  intros Hle. apply loop_state_mono. intros r s0 s1. by apply collapse_row_mono.
Qed.

Lemma update_mono fuel fuel' d rd b res :
  (fuel ≤ fuel')%nat →
  update fuel d rd b = Some res → update fuel' d rd b = Some res.
Proof.
  intros Hle. rewrite !update_unfold.
  destruct (if bool_decide (d = UP)
            then b' ← rotate (activePiece b) b; Some (false, b')
            else move (activePiece b) d b) as [[[|] b1]|];
    rewrite ?option_bind_Some; try done.
  destruct (collapseFullRows fuel b1) as [b2|] eqn:E; [|done].
  by rewrite (collapseFullRows_mono fuel fuel' b1 b2 Hle E).
Qed.

Lemma updates_mono fuel fuel' cmds b res :
  (fuel ≤ fuel')%nat →
  updates fuel cmds b = Some res → updates fuel' cmds b = Some res.
Proof.
  intros Hle. revert b. induction cmds as [|[d rd] cmds IH]; intros b; [done|].
  cbn [updates]. destruct (update fuel d rd b) as [[ok b1]|] eqn:E; [|done].
  rewrite (update_mono fuel fuel' d rd b _ Hle E). cbn [mbind option_bind].
  destruct ok; [apply IH|done].
Qed.

(** [Piece::Piece] looks at the draw modulo the number of shapes only. *)
Lemma update_draw fuel d rd b :
  update fuel d rd b = update fuel d (rd mod NUM_DEFAULT_PIECES)%nat b.
Proof.
  rewrite !update_unfold.
  assert (∀ b2, spawn rd b2 = spawn (rd mod NUM_DEFAULT_PIECES)%nat b2) as Hs.
  { intros b2. unfold spawn, emplace_back, Piece_ctor.
    by rewrite Nat.Div0.mod_mod. }
  destruct (if bool_decide (d = UP)
            then b' ← rotate (activePiece b) b; Some (false, b')
            else move (activePiece b) d b) as [[[|] b1]|];
    rewrite ?option_bind_Some; try done.
  destruct (collapseFullRows fuel b1) as [b2|]; [|done].
  rewrite !option_bind_Some. apply Hs.
Qed.

(** ** The test of the invariant is sound *)

Lemma grid_wfb_sound g : grid_wfb g = true → grid_wf g.
Proof.
  unfold grid_wfb. rewrite andb_true_iff, Nat.eqb_eq, forallb_forall.
  intros [Hlen Hall]. split; [done|]. intros k line Hk.
  apply Nat.eqb_eq, Hall, list_elem_of_In. by eapply list_elem_of_lookup_2.
Qed.

Lemma elem_of_board_cells r c : (r, c) ∈ board_cells ↔ in_bounds r c.
Proof.
  unfold board_cells, in_bounds. split.
  - intros H. apply list_elem_of_bind in H as (r' & H & Hr).
    apply list_elem_of_bind in H as (c' & H & Hc).
    apply list_elem_of_singleton in H. injection H as -> ->.
    apply elem_of_seqZ in Hr, Hc. lia.
  - intros [Hr Hc]. apply list_elem_of_bind. exists r.
    split; [|apply elem_of_seqZ; lia].
    apply list_elem_of_bind. exists c. split; [|apply elem_of_seqZ; lia].
    by apply list_elem_of_singleton.
Qed.

Lemma consistentb_sound b : consistentb b = true → consistent b.
Proof.
  unfold consistentb. rewrite !andb_true_iff, !forallb_forall.
  intros [[Hwf Hcells] Hpieces]. apply grid_wfb_sound in Hwf.
  assert (∀ i p sr sc, pieces b !! i = Some p → tg_get (tileGrid p) sr sc = Some true →
            grid_get (pieceGrid b) (row p + sr) (col p + sc) = Some (Some i)) as Htile.
  { intros i p sr sc Hp Ht. specialize (Hpieces (i, p)).
    unfold piece_okb in Hpieces. rewrite andb_true_iff, forallb_forall in Hpieces.
    destruct Hpieces as [Hall _].
    { apply list_elem_of_In, list_elem_of_lookup. exists i.
      by rewrite list_lookup_imap, Hp. }
    specialize (Hall (sr, sc)). unfold tile_okb in Hall. cbn [fst snd] in Hall.
    rewrite Ht in Hall. eapply bool_decide_eq_true_1, Hall, list_elem_of_In.
    apply elem_of_window. by eapply tg_get_Some. }
  constructor.
  - done.
  - intros r c i Hi. specialize (Hcells (r, c)). unfold cell_okb in Hcells.
    cbn [fst snd] in Hcells. rewrite Hi in Hcells.
    destruct (pieces b !! i) as [p|] eqn:Hp.
    + split; [by eapply lookup_lt_Some|]. exists p. split; [done|].
      apply Hcells, list_elem_of_In, elem_of_board_cells. by eapply grid_get_Some.
    + assert (false = true); [|done].
      apply Hcells, list_elem_of_In, elem_of_board_cells. by eapply grid_get_Some.
  - intros i p _ Hp r c Ho. apply covers_spec in Ho as (sr & sc & Ht & -> & ->).
    by apply Htile.
  - intros i p Hp. split.
    + intros r c Ho. apply covers_spec in Ho as (sr & sc & Ht & -> & ->).
      eapply grid_get_Some; [done|]. by apply (Htile i).
    + specialize (Hpieces (i, p)). unfold piece_okb in Hpieces.
      rewrite andb_true_iff, existsb_exists in Hpieces.
      destruct Hpieces as [_ ([sr sc] & _ & Ht)].
      { apply list_elem_of_In, list_elem_of_lookup. exists i.
        by rewrite list_lookup_imap, Hp. }
      apply bool_decide_eq_true_1 in Ht. exists (row p + sr), (col p + sc).
      by apply covers_tile.
Qed.

Lemma Invb_sound b : Invb b = true → Inv b.
Proof.
  unfold Invb. rewrite andb_true_iff, Nat.ltb_lt. intros [Hc Ha].
  split; [by apply consistentb_sound|done].
Qed.

(** ** The boards of the examples *)

Lemma bar_at_0_4_reached fuel :
  updates fuel (replicate 4 (RIGHT, 0%nat)) (Board_ctor 0) = Some (true, bar_at_0_4).
Proof. vm_compute. reflexivity. Qed.

Lemma overhang_board_reached fuel :
  updates fuel overhang_game (Board_ctor 0) = Some (true, overhang_board).
Proof. vm_compute. reflexivity. Qed.

Lemma Board_ctor_draw rd : Board_ctor rd = Board_ctor (rd mod NUM_DEFAULT_PIECES)%nat.
Proof. unfold Board_ctor, Piece_ctor. by rewrite Nat.Div0.mod_mod. Qed.

(** * The properties of the specification *)

(** C1.  The specification asks that after every call of [Board::update], from
    the initial board on, a cell is in the occupied cells of a piece exactly
    when the grid points to that piece there.  The constructor of the board
    puts the first piece in the vector and does not write it in the grid, so
    that the property fails as long as this piece has not moved: whatever the
    shape drawn, a first call [update(LEFT)] is refused by the left wall,
    returns true, leaves the board as it is, and the invariant does not hold
    on it. *)
Theorem first_piece_not_in_grid fuel rd rd' :
  update fuel LEFT rd' (Board_ctor rd) = Some (true, Board_ctor rd)
  ∧ ¬ I1 (Board_ctor rd).
Proof.
  rewrite (Board_ctor_draw rd).
  pose proof (Nat.mod_upper_bound rd NUM_DEFAULT_PIECES) as Hlt.
  destruct (rd mod NUM_DEFAULT_PIECES)%nat as [|[|[|[|[|n]]]]];
    [| | | | |unfold NUM_DEFAULT_PIECES in Hlt; lia];
    (split; [vm_compute; reflexivity|]);
    intros H;
    (eassert (grid_get (pieceGrid (Board_ctor _)) 0 1 = Some (Some 0%nat)) as Hcell;
     [apply (H 0%nat _ eq_refl 0 1);
      [unfold in_bounds, NUM_ROWS, NUM_COLS; lia
      |apply occupiedCells_spec; reflexivity]
     |vm_compute in Hcell; discriminate Hcell]).
Qed.

(** The first piece enters the grid with its first move that succeeds. *)
Lemma first_update fuel d rd rd' :
  ∃ b', update fuel d rd' (Board_ctor rd) = Some (true, b')
        ∧ (Inv b' ∨ b' = Board_ctor rd).
Proof.
  rewrite (Board_ctor_draw rd).
  pose proof (Nat.mod_upper_bound rd NUM_DEFAULT_PIECES) as Hlt.
  destruct (rd mod NUM_DEFAULT_PIECES)%nat as [|[|[|[|[|n]]]]];
    [| | | | |unfold NUM_DEFAULT_PIECES in Hlt; lia];
    destruct d; eexists;
    (split; [vm_compute; reflexivity|]);
    ((right; reflexivity) || (left; apply Invb_sound; vm_compute; reflexivity)).
Qed.

(** Every sequence of calls of [Board::update] from the initial board is
    defined, and each board on the way either has the invariant or is still
    the initial board. *)
Theorem updates_from_start fuel cmds rd :
  (Z.to_nat NUM_ROWS ≤ fuel)%nat →
  ∃ ok b, updates fuel cmds (Board_ctor rd) = Some (ok, b)
          ∧ (consistent b ∨ b = Board_ctor rd)
          ∧ (ok = true → Inv b ∨ b = Board_ctor rd).
Proof.
  intros Hfuel.
  assert (∀ b0, Inv b0 ∨ b0 = Board_ctor rd →
            ∃ ok b, updates fuel cmds b0 = Some (ok, b)
                    ∧ (consistent b ∨ b = Board_ctor rd)
                    ∧ (ok = true → Inv b ∨ b = Board_ctor rd)) as H; [|by apply H; right].
  induction cmds as [|[d rd'] cmds IH]; intros b0 H0; cbn [updates].
  - exists true, b0. split; [done|]. split; [|done].
    destruct H0 as [[? _]|?]; [by left|by right].
  - assert (∃ ok b1, update fuel d rd' b0 = Some (ok, b1)
                     ∧ (consistent b1 ∨ b1 = Board_ctor rd)
                     ∧ (ok = true → Inv b1 ∨ b1 = Board_ctor rd))
      as (ok & b1 & -> & Hc1 & Hi1).
    { destruct H0 as [Hinv| ->].
      - destruct (update_Inv fuel d rd' b0 Hinv Hfuel) as (ok & b1 & ? & ? & ?).
        exists ok, b1. split; [done|]. split; [by left|]. intros ?. left. auto.
      - destruct (first_update fuel d rd rd') as (b1 & ? & Hb1).
        exists true, b1. split; [done|]. split; [|done].
        destruct Hb1 as [[? _]|?]; [by left|by right]. }
    cbn [mbind option_bind]. destruct ok.
    + by apply IH, Hi1.
    + exists false, b1. done.
Qed.

Lemma bar_at_0_4_consistent : consistent bar_at_0_4.
Proof. apply consistentb_sound. vm_compute. reflexivity. Qed.

Lemma bar_at_19_4_Inv : Inv bar_at_19_4.
Proof. apply Invb_sound. vm_compute. reflexivity. Qed.

Lemma overhang_board_Inv : Inv overhang_board.
Proof. apply Invb_sound. vm_compute. reflexivity. Qed.

(** C2.  [Piece::moveTo] is atomic on failure: when a tile of the candidate
    footprint, placed at the candidate anchor, lands outside the board or on a
    cell owned by another piece, the call returns false and the board (grid,
    anchor and footprint of the piece) is exactly as before.  A cell owned by
    the piece itself does not make it fail: when every tile of the candidate
    lands on the board, on a free cell or on a cell of the piece itself, the
    call returns true. *)
Theorem moveTo_atomic_on_failure this newRow newCol newTileGrid b p :
  grid_wf (pieceGrid b) → pieces b !! this = Some p →
  (blocked this newRow newCol newTileGrid b →
   moveTo this newRow newCol newTileGrid b = Some (false, b))
  ∧ ((∀ subRow subCol,
        tg_get newTileGrid subRow subCol = Some true →
        in_bounds (newRow + subRow) (newCol + subCol)
        ∧ (grid_get (pieceGrid b) (newRow + subRow) (newCol + subCol) = Some None
           ∨ grid_get (pieceGrid b) (newRow + subRow) (newCol + subCol)
             = Some (Some this))) →
     (∀ r c, occupies p r c = true → in_bounds r c) →
     ∃ b', moveTo this newRow newCol newTileGrid b = Some (true, b')).
Proof.
  intros Hwf Hp. split.
  - by apply (moveTo_blocked _ _ _ _ _ p).
  - intros Hfree Hin.
    destruct (moveTo_free this newRow newCol newTileGrid b p Hwf Hp) as (g' & -> & _).
    + intros (sr & sc & Ht & Hbad). destruct (Hfree sr sc Ht) as [Hb Hcell].
      destruct Hbad as [?|(q & Hq & Hne)]; [done|].
      destruct Hcell as [Hcell|Hcell]; congruence.
    + done.
    + by eexists.
Qed.

Lemma moveTo_atomic_on_failure_witness :
  moveTo 0 0 (-1) I_TILES bar_at_0_4 = Some (false, bar_at_0_4)
  ∧ ∃ b', moveTo 0 0 5 I_TILES bar_at_0_4 = Some (true, b').
Proof.
  split.
  - apply (proj1 (moveTo_atomic_on_failure 0 0 (-1) I_TILES bar_at_0_4
                    (mkPiece I_TILES RED 0 4)
                    (reg_wf _ _ bar_at_0_4_consistent) eq_refl)).
    exists 0, 0. split; [reflexivity|]. left.
    unfold in_bounds, NUM_ROWS, NUM_COLS. lia.
  - apply (proj2 (moveTo_atomic_on_failure 0 0 5 I_TILES bar_at_0_4
                    (mkPiece I_TILES RED 0 4)
                    (reg_wf _ _ bar_at_0_4_consistent) eq_refl)).
    + intros sr sc Ht. pose proof (tg_get_Some _ _ _ _ Ht) as [Hr Hc].
      unfold MAX_HEIGHT, MAX_WIDTH in *.
      assert (sr = 0 ∨ sr = 1 ∨ sr = 2 ∨ sr = 3) as Hr' by lia.
      assert (sc = 0 ∨ sc = 1 ∨ sc = 2 ∨ sc = 3) as Hc' by lia.
      destruct Hr' as [->|[->|[->| ->]]]; destruct Hc' as [->|[->|[->| ->]]];
        try discriminate Ht;
        (split; [unfold in_bounds, NUM_ROWS, NUM_COLS; lia|]);
        vm_compute; auto.
    + apply (reg_ok _ _ bar_at_0_4_consistent 0%nat). reflexivity.
Defined.

(** C3, as the code has it.  [Piece::move] does not return whether the move
    succeeded; it returns the signal to spawn: for DOWN it returns true exactly
    when the relocation one row down was refused, and for the other
    directions it returns false whether the relocation succeeded or not. *)
Theorem move_returns_settle_signal this direction b p :
  grid_wf (pieceGrid b) → pieces b !! this = Some p →
  (∀ r c, occupies p r c = true → in_bounds r c) →
  ∃ moved res b',
    moveTo this (dest_row direction p) (dest_col direction p) (tileGrid p) b
      = Some (moved, b')
    ∧ move this direction b = Some (res, b')
    ∧ (moved = false ↔
       blocked this (dest_row direction p) (dest_col direction p) (tileGrid p) b)
    ∧ (direction = DOWN → (res = true ↔ moved = false))
    ∧ (direction ≠ DOWN → res = false).
Proof.
  intros Hwf Hp Hin.
  destruct (moveTo_total this (dest_row direction p) (dest_col direction p)
              (tileGrid p) b p Hwf Hp Hin) as [Hbl|Hnb].
  - exists false, (bool_decide (direction = DOWN)), b.
    split; [by apply (moveTo_blocked _ _ _ _ _ p)|]. split; [by apply (move_blocked _ _ _ p)|].
    split; [done|]. split.
    + intros ->. done.
    + intros Hd. by apply bool_decide_eq_false.
  - destruct (moveTo_free _ _ _ _ _ _ Hwf Hp Hnb Hin) as (g' & Hm & _).
    destruct (move_free this direction b p Hwf Hp Hin Hnb) as (g'' & Hmv & _).
    unfold move in Hmv. rewrite Hp, option_bind_Some in Hmv.
    fold (dest_row direction p) (dest_col direction p) in Hmv.
    rewrite Hm, option_bind_Some in Hmv.
    eexists true, false, _. split; [exact Hm|]. split.
    { unfold move. rewrite Hp, option_bind_Some.
      fold (dest_row direction p) (dest_col direction p).
      rewrite Hm, option_bind_Some. reflexivity. }
    split; [done|]. done.
Qed.

Lemma move_returns_settle_signal_witness :
  ∃ moved res b',
    moveTo 0 0 5 I_TILES bar_at_0_4 = Some (moved, b')
    ∧ move 0 RIGHT bar_at_0_4 = Some (res, b')
    ∧ (moved = false ↔ blocked 0 0 5 I_TILES bar_at_0_4)
    ∧ (RIGHT = DOWN → (res = true ↔ moved = false))
    ∧ (RIGHT ≠ DOWN → res = false).
Proof.
  apply (move_returns_settle_signal 0 RIGHT bar_at_0_4 (mkPiece I_TILES RED 0 4)
           (reg_wf _ _ bar_at_0_4_consistent) eq_refl).
  apply (reg_ok _ _ bar_at_0_4_consistent 0%nat). reflexivity.
Defined.

(** C3, as the specification has it, fails: on the board with the bar at
    (0, 4) the relocation one cell to the right succeeds and [Piece::move]
    returns false. *)
Lemma move_right_succeeds_and_returns_false :
  ∃ b', moveTo 0 0 5 I_TILES bar_at_0_4 = Some (true, b')
        ∧ move 0 RIGHT bar_at_0_4 = Some (false, b').
Proof. eexists. split; vm_compute; reflexivity. Qed.

(** C4.  When [Piece::move] signals on a DOWN command that the active piece
    has settled, [Board::update] runs [collapseFullRows] and then puts a fresh
    piece, anchored at the fixed spawn cell (0, 0) with one of the default
    footprints, at the end of the vector.  It returns false exactly when the
    placement of the fresh piece is refused, and then the fresh piece is
    taken out again: the vector and the grid are the ones left by the
    collapse.  Otherwise it returns true, the fresh piece is the last of the
    vector and the active one, and the board has the invariant again. *)
Theorem update_settle_then_spawn fuel rd b b1 :
  Inv b → (Z.to_nat NUM_ROWS ≤ fuel)%nat →
  move (activePiece b) DOWN b = Some (true, b1) →
  ∃ b2, collapseFullRows fuel b1 = Some b2 ∧
    let fresh := (Piece_ctor rd (colorIndex b2)).1 in
    row fresh = 0 ∧ col fresh = 0 ∧ tileGrid fresh ∈ DEFAULT_PIECES ∧
    ∃ ok b',
      update fuel DOWN rd b = Some (ok, b')
      ∧ (ok = false ↔
         blocked (length (pieces b2)) 0 0 (tileGrid fresh) (emplace_back rd b2))
      ∧ (ok = false → pieces b' = pieces b2 ∧ pieceGrid b' = pieceGrid b2)
      ∧ (ok = true →
         pieces b' = pieces b2 ++ [fresh] ∧ activePiece b' = length (pieces b2)
         ∧ Inv b').
Proof.
  intros [Hc Hact] Hfuel Hmove.
  destruct (lookup_lt_is_Some_2 _ _ Hact) as [p Hp].
  pose proof Hc as [Hwf _ _ Hok]. destruct (Hok _ p Hp) as [Hin _].
  destruct (move_true_blocked _ _ _ _ p Hwf Hp Hin Hmove) as (_ & -> & Hbl).
  destruct (collapseFullRows_consistent fuel b Hc Hfuel) as (b2 & Hcol & Hc2).
  exists b2. split; [done|]. intros fresh.
  destruct (Piece_ctor_anchor rd (colorIndex b2)) as (Hr & Hcl & Htg).
  split; [done|]. split; [done|]. split; [done|].
  rewrite update_unfold, bool_decide_false, Hmove, option_bind_Some by done.
  rewrite Hcol, option_bind_Some.
  destruct (spawn_spec rd b2 Hc2) as [Hsb Hsf].
  destruct (emplace_back_spec rd b2) as (Hps & Ha & Hg & _).
  rewrite Ha in Hsb, Hsf. fold fresh in Hsb, Hsf, Hps.
  destruct (moveTo_total (length (pieces b2)) 0 0 (tileGrid fresh) (emplace_back rd b2)
              fresh) as [Hbl'|Hnb'].
  { apply (reg_wf _ _ (emplace_back_registered rd b2 Hc2)). }
  { rewrite Hps. by apply list_lookup_middle. }
  { apply Piece_ctor_ok. }
  - rewrite (Hsb Hbl'). eexists false, _. split; [done|]. split; [done|].
    split; [|done]. intros _. done.
  - destruct (Hsf Hnb') as (g' & -> & Hinv). eexists true, _. split; [done|].
    split; [split; [done|]; intros ?; by exfalso|]. split; [done|].
    intros _. done.
Qed.

Lemma update_settle_then_spawn_witness :
  ∃ b2, collapseFullRows 20 bar_at_19_4 = Some b2 ∧
    let fresh := (Piece_ctor 0 (colorIndex b2)).1 in
    row fresh = 0 ∧ col fresh = 0 ∧ tileGrid fresh ∈ DEFAULT_PIECES ∧
    ∃ ok b',
      update 20 DOWN 0 bar_at_19_4 = Some (ok, b')
      ∧ (ok = false ↔
         blocked (length (pieces b2)) 0 0 (tileGrid fresh) (emplace_back 0 b2))
      ∧ (ok = false → pieces b' = pieces b2 ∧ pieceGrid b' = pieceGrid b2)
      ∧ (ok = true →
         pieces b' = pieces b2 ++ [fresh] ∧ activePiece b' = length (pieces b2)
         ∧ Inv b').
Proof.
  apply (update_settle_then_spawn 20 0 bar_at_19_4 bar_at_19_4).
  - apply Invb_sound. vm_compute. reflexivity.
  - vm_compute. lia.
  - vm_compute. reflexivity.
Defined.

(** C5.  [Piece::rotate] builds the footprint turned by a quarter clockwise,
    [destination[c][bound - 1 - r] = source[r][c]] with [bound] = 4, and asks
    for the same anchor with it.  When the placement is accepted the piece
    has the turned footprint, at the same anchor; when it is refused the board
    is unchanged, footprint and anchor included. *)
Theorem rotate_turns_or_keeps this b p :
  grid_wf (pieceGrid b) → pieces b !! this = Some p →
  (∀ r c, occupies p r c = true → in_bounds r c) →
  ∃ newTileGrid,
    rotate_tiles (tileGrid p) = Some newTileGrid
    ∧ (∀ r c, in_window r c →
         tg_get newTileGrid c (MAX_HEIGHT - 1 - r) = tg_get (tileGrid p) r c)
    ∧ (blocked this (row p) (col p) newTileGrid b → rotate this b = Some b)
    ∧ (¬ blocked this (row p) (col p) newTileGrid b →
       ∃ b', rotate this b = Some b'
             ∧ pieces b' = <[this := mkPiece newTileGrid (color p) (row p) (col p)]>
                             (pieces b)
             ∧ ∀ r c, grid_get (pieceGrid b') r c =
                      if covers newTileGrid (row p) (col p) r c then Some (Some this)
                      else if occupies p r c then Some None
                      else grid_get (pieceGrid b) r c).
Proof.
  intros Hwf Hp Hin.
  destruct (rotate_tiles_spec (tileGrid p)) as (ntg & Hrot & Hspec).
  exists ntg. split; [exact Hrot|]. split; [exact Hspec|]. split.
  - intros Hbl. exact (rotate_blocked this b p ntg Hwf Hp Hrot Hbl).
  - intros Hnb.
    destruct (rotate_free this b p ntg Hwf Hp Hin Hrot Hnb) as (g' & Hr & _ & Hg').
    eexists. split; [exact Hr|]. split; [reflexivity|exact Hg'].
Qed.

Lemma rotate_turns_or_keeps_witness :
  ∃ newTileGrid,
    rotate_tiles I_TILES = Some newTileGrid
    ∧ (∀ r c, in_window r c →
         tg_get newTileGrid c (MAX_HEIGHT - 1 - r) = tg_get I_TILES r c)
    ∧ (blocked 0 19 4 newTileGrid bar_at_19_4 → rotate 0 bar_at_19_4 = Some bar_at_19_4)
    ∧ (¬ blocked 0 19 4 newTileGrid bar_at_19_4 →
       ∃ b', rotate 0 bar_at_19_4 = Some b'
             ∧ pieces b' = <[0%nat := mkPiece newTileGrid RED 19 4]> (pieces bar_at_19_4)
             ∧ ∀ r c, grid_get (pieceGrid b') r c =
                      if covers newTileGrid 19 4 r c then Some (Some 0%nat)
                      else if occupies (mkPiece I_TILES RED 19 4) r c then Some None
                      else grid_get (pieceGrid bar_at_19_4) r c).
Proof.
  apply (rotate_turns_or_keeps 0 bar_at_19_4 (mkPiece I_TILES RED 19 4)).
  - apply grid_wfb_sound. vm_compute. reflexivity.
  - reflexivity.
  - intros r c Ho. apply (reg_ok _ _ (proj1 bar_at_19_4_Inv) 0%nat _ eq_refl), Ho.
Defined.

(** The bar on the bottom row cannot turn: the turned bar would leave the
    board, and the call changes nothing. *)
Lemma rotate_refused_at_the_bottom : rotate 0 bar_at_19_4 = Some bar_at_19_4.
Proof. vm_compute. reflexivity. Qed.

(** C6.  Turning a footprint four times gives the footprint back. *)
Theorem rotate_tiles_four_times tg :
  ((rotate_tiles tg ≫= rotate_tiles) ≫= rotate_tiles) ≫= rotate_tiles = Some tg.
Proof.
  destruct tg as [[? ? ? ?] [? ? ? ?] [? ? ? ?] [? ? ? ?]].
  vm_compute. reflexivity.
Qed.

(** C7.  For a row of the board, [Board::isRowFull] returns true exactly when
    each of the twelve cells of the row has an owner.  It adds one to
    [rowsCompleted] when it returns true and leaves the board alone when it
    returns false; nothing else changes, so that a second call on the same
    row returns true again and counts the row a second time. *)
Theorem isRowFull_counts r b :
  grid_wf (pieceGrid b) → 0 <= r < NUM_ROWS →
  ∃ full,
    isRowFull r b =
      Some (full, if full : bool then set_rowsCompleted (rowsCompleted b + 1) b else b)
    ∧ (full = true ↔
       ∀ c, 0 <= c < NUM_COLS → ∃ i, grid_get (pieceGrid b) r c = Some (Some i))
    ∧ (full = true →
       isRowFull r (set_rowsCompleted (rowsCompleted b + 1) b)
       = Some (true, set_rowsCompleted (rowsCompleted b + 2) b)).
Proof.
  intros Hwf Hr. destruct (isRowFull_spec r b Hwf Hr) as (full & Hcall & Hfull).
  exists full. split; [done|]. split; [done|]. intros ->.
  destruct (isRowFull_spec r (set_rowsCompleted (rowsCompleted b + 1) b) Hwf Hr)
    as (full' & Hcall' & Hfull').
  cbn [pieceGrid set_rowsCompleted] in Hfull'.
  assert (full' = true) as -> by (by apply Hfull', Hfull).
  rewrite Hcall'. unfold set_rowsCompleted. cbn. do 3 f_equal. lia.
Qed.

Lemma isRowFull_counts_witness :
  ∃ full,
    isRowFull 19 overhang_board =
      Some (full, if full : bool
                  then set_rowsCompleted (rowsCompleted overhang_board + 1) overhang_board
                  else overhang_board)
    ∧ (full = true ↔
       ∀ c, 0 <= c < NUM_COLS →
            ∃ i, grid_get (pieceGrid overhang_board) 19 c = Some (Some i))
    ∧ (full = true →
       isRowFull 19 (set_rowsCompleted (rowsCompleted overhang_board + 1) overhang_board)
       = Some (true, set_rowsCompleted (rowsCompleted overhang_board + 2) overhang_board)).
Proof.
  apply (isRowFull_counts 19 overhang_board).
  - apply grid_wfb_sound. vm_compute. reflexivity.
  - unfold NUM_ROWS. lia.
Defined.

(** The bottom row of the board of the hook and the square is full, and is
    counted at each call. *)
Lemma isRowFull_twice :
  isRowFull 19 overhang_board = Some (true, set_rowsCompleted 1 overhang_board)
  ∧ isRowFull 19 (set_rowsCompleted 1 overhang_board)
    = Some (true, set_rowsCompleted 2 overhang_board).
Proof. split; vm_compute; reflexivity. Qed.

(** C8, as the code has it.  For a cell whose offset from the anchor of the
    piece is inside the 4 x 4 footprint, [Piece::removeTile] clears the
    sub-cell of that offset when it is set, leaving the anchor, the color and
    the other sub-cells as they are, and does nothing when it is not set. *)
Theorem removeTile_inside_window p rowToRemove colToRemove :
  in_window (rowToRemove - row p) (colToRemove - col p) →
  (occupies p rowToRemove colToRemove = true →
   ∃ tg, removeTile p rowToRemove colToRemove = Some (mkPiece tg (color p) (row p) (col p))
         ∧ ∀ r c, tg_get tg r c =
                  if decide (r = rowToRemove - row p ∧ c = colToRemove - col p)
                  then Some false else tg_get (tileGrid p) r c)
  ∧ (occupies p rowToRemove colToRemove = false →
     removeTile p rowToRemove colToRemove = Some p).
Proof.
  intros Hw. split.
  - intros Ho. destruct (removeTile_tile p _ _ Ho) as (tg & Hset & Hrm & _).
    exists tg. split; [done|]. intros r c. by apply tg_get_set.
  - by apply removeTile_no_tile.
Qed.

Lemma removeTile_inside_window_witness :
  (occupies (mkPiece I_TILES RED 19 4) 19 5 = true →
   ∃ tg, removeTile (mkPiece I_TILES RED 19 4) 19 5 = Some (mkPiece tg RED 19 4)
         ∧ ∀ r c, tg_get tg r c =
                  if decide (r = 19 - 19 ∧ c = 5 - 4)
                  then Some false else tg_get I_TILES r c)
  ∧ (occupies (mkPiece I_TILES RED 19 4) 19 5 = false →
     removeTile (mkPiece I_TILES RED 19 4) 19 5 = Some (mkPiece I_TILES RED 19 4)).
Proof.
  apply (removeTile_inside_window (mkPiece I_TILES RED 19 4) 19 5).
  unfold in_window, MAX_HEIGHT, MAX_WIDTH. simpl. lia.
Defined.

(** C8, as the specification has it, fails: [Piece::removeTile] reads the
    footprint without any check of the offset, and for the cell (10, 10) and a
    piece anchored at (0, 0) the read is outside the array instead of being
    a call that does nothing. *)
Lemma removeTile_reads_outside_the_footprint :
  ¬ in_window (10 - 0) (10 - 0)
  ∧ tg_get I_TILES (10 - 0) (10 - 0) = None
  ∧ removeTile (mkPiece I_TILES RED 0 0) 10 10 = None.
Proof.
  split; [|split; reflexivity].
  unfold in_window, MAX_HEIGHT, MAX_WIDTH. lia.
Qed.

Lemma updates_snoc fuel cmds d rd b b1 res :
  updates fuel cmds b = Some (true, b1) →
  update fuel d rd b1 = Some res →
  updates fuel (cmds ++ [(d, rd)]) b = Some res.
Proof.
  revert b. induction cmds as [|[d0 rd0] cmds IH]; intros b Hpre Hlast.
  - injection Hpre as ->. cbn [app updates]. rewrite Hlast.
    cbn [mbind option_bind]. by destruct res as [[|] ?].
  - cbn [app updates] in *.
    destruct (update fuel d0 rd0 b) as [[[|] b0]|]; cbn [mbind option_bind] in *;
      try done.
    by apply IH.
Qed.

Lemma Piece_ctor_draw rd ci :
  Piece_ctor rd ci = Piece_ctor (rd mod NUM_DEFAULT_PIECES)%nat ci.
Proof. unfold Piece_ctor. by rewrite Nat.Div0.mod_mod. Qed.

(** The bar goes down one row at each of the first nineteen commands. *)
Lemma bar_goes_down fuel rd k :
  (k ≤ 19)%nat →
  updates fuel (replicate k (DOWN, rd)) bar_at_0_4
  = Some (true, place [mkPiece I_TILES RED (Z.of_nat k) 4] 0 1).
Proof.
  intros Hk.
  do 20 (destruct k as [|k]; [vm_compute; reflexivity|]). lia.
Qed.

(** The twentieth command: the bar stays on row 19 and a piece is spawned. *)
Lemma bar_settles fuel rd :
  ∃ b20,
    update fuel DOWN rd bar_at_19_4 = Some (true, b20)
    ∧ pieces b20 = [mkPiece I_TILES RED 19 4; (Piece_ctor rd 1).1]
    ∧ activePiece b20 = 1%nat
    ∧ Inv b20.
Proof.
  rewrite update_draw, Piece_ctor_draw.
  pose proof (Nat.mod_upper_bound rd NUM_DEFAULT_PIECES) as Hlt.
  destruct (rd mod NUM_DEFAULT_PIECES)%nat as [|[|[|[|[|n]]]]];
    [| | | | |unfold NUM_DEFAULT_PIECES in Hlt; lia];
    eexists; (split; [vm_compute; reflexivity|]);
    (split; [reflexivity|]); (split; [reflexivity|]);
    apply Invb_sound; vm_compute; reflexivity.
Qed.

Lemma twenty_downs fuel rd :
  ∃ b20,
    updates fuel (replicate 20 (DOWN, rd)) bar_at_0_4 = Some (true, b20)
    ∧ pieces b20 = [mkPiece I_TILES RED 19 4; (Piece_ctor rd 1).1]
    ∧ activePiece b20 = 1%nat
    ∧ Inv b20.
Proof.
  destruct (bar_settles fuel rd) as (b20 & Hup & Hrest).
  exists b20. split; [|done]. rewrite replicate_S_end.
  eapply updates_snoc; [|exact Hup]. by apply (bar_goes_down fuel rd 19).
Qed.

(** C9, as the code has it.  On the empty board with the bar at (0, 4), each
    of the first nineteen DOWN commands takes the bar one row down, to row 19;
    there the move down is refused, and the twentieth command returns true
    with the bar settled at (19, 4) and a fresh active piece anchored at
    (0, 0), the spawn cell of [Piece::Piece]. *)
Theorem bar_settles_on_row_19 fuel rd :
  (∀ k, (k ≤ 19)%nat →
        updates fuel (replicate k (DOWN, rd)) bar_at_0_4
        = Some (true, place [mkPiece I_TILES RED (Z.of_nat k) 4] 0 1))
  ∧ move 0 DOWN bar_at_19_4 = Some (true, bar_at_19_4)
  ∧ ∃ b20 fresh,
      updates fuel (replicate 20 (DOWN, rd)) bar_at_0_4 = Some (true, b20)
      ∧ pieces b20 = [mkPiece I_TILES RED 19 4; fresh]
      ∧ activePiece b20 = 1%nat
      ∧ row fresh = 0 ∧ col fresh = 0 ∧ tileGrid fresh ∈ DEFAULT_PIECES
      ∧ Inv b20.
Proof.
  split; [intros k Hk; exact (bar_goes_down fuel rd k Hk)|].
  split; [vm_compute; reflexivity|].
  destruct (twenty_downs fuel rd) as (b20 & Hup & Hps & Hact & Hinv).
  destruct (Piece_ctor_anchor rd 1) as (Hr & Hc & Htg).
  exists b20, (Piece_ctor rd 1).1.
  exact (conj Hup (conj Hps (conj Hact (conj Hr (conj Hc (conj Htg Hinv)))))).
Qed.

(** C9, as the specification has it, fails: whatever the shape drawn, the
    active piece after the twentieth command is not anchored at (0, 4). *)
Lemma fresh_piece_not_at_0_4 :
  ¬ ∃ rd b20 p,
      updates 20 (replicate 20 (DOWN, rd)) bar_at_0_4 = Some (true, b20)
      ∧ pieces b20 !! activePiece b20 = Some p
      ∧ row p = 0 ∧ col p = 4.
Proof.
  intros (rd & b20 & p & Hup & Hp & _ & Hcol).
  destruct (twenty_downs 20 rd) as (b & Hup' & Hps & Hact & _).
  rewrite Hup' in Hup. injection Hup as <-.
  rewrite Hps, Hact in Hp. injection Hp as <-. discriminate Hcol.
Qed.

(** The collapse of the board of the hook and the square: the bars are gone,
    the square went down one row, the hook stayed where it was and can go
    down. *)
Lemma overhang_board_collapse :
  ∃ b', collapseFullRows 20 overhang_board = Some b'
        ∧ pieces b' = [mkPiece J_TILES BLUE 16 0; mkPiece O_TILES RED 18 1]
        ∧ ∃ b'', move 0 DOWN b' = Some (false, b'')
                 ∧ pieces b'' !! 0%nat = Some (mkPiece J_TILES BLUE 17 0).
Proof.
  eexists. split; [vm_compute; reflexivity|]. split; [reflexivity|].
  eexists. split; [vm_compute; reflexivity|]. reflexivity.
Qed.

(** The collapse of that board completes one row. *)
Lemma overhang_board_collapse_counts b' :
  collapseFullRows 20 overhang_board = Some b' →
  rowsCompleted b' = rowsCompleted overhang_board + 1.
Proof. intros H. vm_compute in H. injection H as <-. reflexivity. Qed.

(** On that board every piece has settled: its move down is refused. *)
Lemma overhang_board_settled i p :
  pieces overhang_board !! i = Some p →
  blocked i (row p + 1) (col p) (tileGrid p) overhang_board.
Proof.
  intros Hp. pose proof overhang_board_Inv as [Hc _].
  pose proof Hc as [Hwf _ _ Hok]. destruct (Hok i p Hp) as [Hin _].
  assert (move i DOWN overhang_board = Some (true, overhang_board)) as Hm.
  { clear Hin. destruct i as [|[|[|[|[|i]]]]]; [vm_compute; reflexivity..|].
    vm_compute in Hp. discriminate Hp. }
  destruct (move_true_blocked i DOWN _ _ p Hwf Hp Hin Hm) as (_ & _ & Hbl).
  destruct (dest_DOWN p) as [Er Ec]. by rewrite Er, Ec in Hbl.
Qed.

(** C10.  There is a board with the invariant, reached from the initial board
    by calls of [Board::update], on which every piece has settled (the move
    down of each is refused) and on which [collapseFullRows] completes a row
    and returns while a piece can still go down.  The bottom row is cleared;
    the hook, first of the two pieces that remain in the vector, is tried
    first and is held, at its turn, by the square under its arm, which comes
    after it in the vector; the square goes down a row afterwards, and the
    pass is over: the hook is where it was before the call, with free cells
    under all its tiles, and its move down is accepted. *)
Theorem collapse_leaves_a_piece_floating :
  ∃ cmds b,
    (∀ fuel, updates fuel cmds (Board_ctor 0) = Some (true, b))
    ∧ I1 b ∧ Inv b
    ∧ (∀ i p, pieces b !! i = Some p →
              blocked i (row p + 1) (col p) (tileGrid p) b)
    ∧ ∀ fuel, (Z.to_nat NUM_ROWS ≤ fuel)%nat →
        ∃ b' i p,
          collapseFullRows fuel b = Some b'
          ∧ rowsCompleted b' = rowsCompleted b + 1
          ∧ I1 b'
          ∧ pieces b' !! i = Some p
          ∧ p ∈ pieces b
          ∧ ¬ blocked i (row p + 1) (col p) (tileGrid p) b'
          ∧ (∃ b'', move i DOWN b' = Some (false, b''))
          ∧ ∃ j q,
              (i < j)%nat ∧ pieces b' !! j = Some q
              ∧ set_anchor (row q - 1) (col q) q ∈ pieces b
              ∧ ∃ r c,
                  occupies p r c = true
                  ∧ occupies (set_anchor (row q - 1) (col q) q) (r + 1) c = true.
Proof.
  exists overhang_game, overhang_board. pose proof overhang_board_Inv as Hinv.
  split; [exact overhang_board_reached|].
  split; [apply consistent_I1, Hinv|]. split; [done|].
  split; [exact overhang_board_settled|]. intros fuel Hfuel.
  destruct overhang_board_collapse as (b' & Hcol & Hps & b'' & Hmove & _).
  destruct (collapseFullRows_consistent 20 overhang_board (proj1 Hinv))
    as (b2 & Hcol2 & Hc2); [done|].
  rewrite Hcol in Hcol2. injection Hcol2 as <-. pose proof Hc2 as [Hwf _ _ _].
  exists b', 0%nat, (mkPiece J_TILES BLUE 16 0).
  split; [by apply (collapseFullRows_mono 20)|].
  split; [by apply overhang_board_collapse_counts|].
  split; [by apply consistent_I1|].
  split; [by rewrite Hps|].
  split; [apply (list_elem_of_lookup_2 _ 2%nat); reflexivity|].
  split; [|split; [by exists b''|]].
  - intros Hbl.
    rewrite (move_blocked 0 DOWN b' (mkPiece J_TILES BLUE 16 0) Hwf) in Hmove.
    + discriminate Hmove.
    + by rewrite Hps.
    + destruct (dest_DOWN (mkPiece J_TILES BLUE 16 0)) as [-> ->]. exact Hbl.
  - exists 1%nat, (mkPiece O_TILES RED 18 1). split; [lia|].
    split; [by rewrite Hps|].
    split; [apply (list_elem_of_lookup_2 _ 3%nat); reflexivity|].
    exists 16, 1. split; reflexivity.
Qed.

(** * Further lemmas *)

(** ** Frames *)

Lemma moveTo_frame this nr nc ntg b ok b' :
  moveTo this nr nc ntg b = Some (ok, b') →
  activePiece b' = activePiece b ∧ rowsCompleted b' = rowsCompleted b
  ∧ colorIndex b' = colorIndex b
  ∧ (ok = false → b' = b)
  ∧ (ok = true →
     ∃ p, pieces b !! this = Some p
          ∧ pieces b' = <[this := set_anchor nr nc p]> (pieces b)).
Proof.
  unfold moveTo. destruct (pieces b !! this) as [p|] eqn:Hp; [|done].
  cbn [mbind option_bind].
  match goal with |- context [loop_until ?f ?l] =>
    destruct (loop_until f l) as [[|]|] end; cbn [mbind option_bind]; [| |done].
  - intros [= <- <-]. done.
  - destruct (write_tiles _ _ _ None _) as [g1|]; cbn [mbind option_bind]; [|done].
    destruct (write_tiles _ _ _ (Some this) _) as [g2|]; cbn [mbind option_bind]; [|done].
    intros [= <- <-]. cbn. split_and!; try done. intros _. eauto.
Qed.

Lemma fmap_tileGrid_set_anchor (ps : list Piece) i p r c :
  ps !! i = Some p →
  tileGrid <$> <[i := set_anchor r c p]> ps = tileGrid <$> ps.
Proof.
  intros Hp. rewrite list_fmap_insert. cbn [tileGrid set_anchor].
  apply list_insert_id. by rewrite list_lookup_fmap, Hp.
Qed.

Lemma move_frame this d b res b' :
  move this d b = Some (res, b') →
  activePiece b' = activePiece b ∧ rowsCompleted b' = rowsCompleted b
  ∧ colorIndex b' = colorIndex b
  ∧ tileGrid <$> pieces b' = tileGrid <$> pieces b
  ∧ color <$> pieces b' = color <$> pieces b
  ∧ ∀ j, j ≠ this → pieces b' !! j = pieces b !! j.
Proof.
  unfold move. destruct (pieces b !! this) as [p|] eqn:Hp; [|done].
  cbn [mbind option_bind].
  destruct (moveTo _ _ _ _ _) as [[ok b1]|] eqn:Hm; [|done].
  cbn [mbind option_bind]. intros [= _ <-].
  destruct (moveTo_frame _ _ _ _ _ _ _ Hm) as (Ha & Hr & Hc & Hf & Ht).
  split_and!; try done.
  - destruct ok; [|by rewrite Hf].
    destruct (Ht eq_refl) as (p' & Hp' & ->). by apply fmap_tileGrid_set_anchor.
  - destruct ok; [|by rewrite Hf].
    destruct (Ht eq_refl) as (p' & Hp' & ->). rewrite list_fmap_insert.
    cbn [color set_anchor]. apply list_insert_id. by rewrite list_lookup_fmap, Hp'.
  - intros j Hj. destruct ok; [|by rewrite Hf].
    destruct (Ht eq_refl) as (p' & Hp' & ->). by rewrite list_lookup_insert_ne.
Qed.

Lemma settle_frame fuel i b b' :
  settle fuel i b = Some b' →
  activePiece b' = activePiece b ∧ rowsCompleted b' = rowsCompleted b
  ∧ colorIndex b' = colorIndex b
  ∧ tileGrid <$> pieces b' = tileGrid <$> pieces b
  ∧ color <$> pieces b' = color <$> pieces b
  ∧ ∀ j, j ≠ i → pieces b' !! j = pieces b !! j.
Proof.
  revert b. induction fuel as [|fuel IH]; intros b; [done|]. cbn [settle].
  destruct (move i DOWN b) as [[stopped b1]|] eqn:Hm; [|done].
  cbn [mbind option_bind].
  destruct (move_frame _ _ _ _ _ Hm) as (Ha & Hr & Hc & Ht & Hcol & Ho).
  destruct stopped.
  - intros [= <-]. done.
  - intros Hs. destruct (IH _ Hs) as (Ha' & Hr' & Hc' & Ht' & Hcol' & Ho').
    split_and!; try congruence. intros j Hj. rewrite Ho', Ho; done.
Qed.

Lemma tiles_on_footprints b b' :
  tileGrid <$> pieces b' = tileGrid <$> pieces b → tiles_on b' = tiles_on b.
Proof.
  unfold tiles_on. generalize (pieces b) (pieces b').
  induction l as [|p ps IH]; intros [|p' ps']; try done.
  cbn. intros [= Hp Hps]. rewrite Hp. f_equal. by apply IH.
Qed.

(** ** Counting tiles *)

Lemma bind_pairs_filter {A} (g : Z → Z → option bool) (h : Z → Z → A)
    (rs cs : list Z) :
  (rs ≫= λ r, cs ≫= λ c, match g r c with Some true => [h r c] | _ => [] end)
  = (λ rc : Z * Z, h rc.1 rc.2)
      <$> filter (λ rc : Z * Z, g rc.1 rc.2 = Some true)
                 (rs ≫= λ r, cs ≫= λ c, [(r, c)]).
Proof.
  induction rs as [|r rs IH]; [done|].
  rewrite !bind_cons, filter_app, fmap_app, IH. f_equal.
  clear IH. induction cs as [|c cs IH]; [done|].
  rewrite !bind_cons, filter_app, fmap_app, IH. f_equal.
  rewrite filter_cons, filter_nil. cbn [fst snd].
  destruct (g r c) as [[|]|]; by case_decide.
Qed.

Lemma occupiedCells_fmap p :
  occupiedCells p
  = (λ rc : Z * Z, (row p + rc.1, col p + rc.2))
      <$> filter (λ rc : Z * Z, tg_get (tileGrid p) rc.1 rc.2 = Some true) window.
Proof.
  unfold occupiedCells, window.
  apply (bind_pairs_filter (tg_get (tileGrid p)) (λ r c, (row p + r, col p + c))).
Qed.

Lemma length_filter_tiles (g : Z * Z → option bool) (l : list (Z * Z)) :
  length (filter (λ rc, g rc = Some true) l)
  = sum_list_with (λ rc, match g rc with Some t => Nat.b2n t | None => 0%nat end) l.
Proof.
  induction l as [|x l IH]; [done|]. rewrite filter_cons. cbn [sum_list_with].
  destruct (g x) as [[|]|] eqn:E; case_decide; try done; cbn; by rewrite IH.
Qed.

Lemma length_occupiedCells p : length (occupiedCells p) = tile_count (tileGrid p).
Proof.
  rewrite occupiedCells_fmap, length_fmap. unfold tile_count.
  apply (length_filter_tiles (λ rc, tg_get (tileGrid p) rc.1 rc.2)).
Qed.

Lemma length_all_cells b : length (all_cells b) = tiles_on b.
Proof.
  unfold all_cells, tiles_on. induction (pieces b) as [|p ps IH]; [done|].
  rewrite bind_cons, length_app, IH, length_occupiedCells. done.
Qed.

Lemma NoDup_window : NoDup window.
Proof.
  apply NoDup_bind; [| |apply NoDup_seqZ].
  - intros r1 r2 [r c] _ _ H1 H2.
    apply list_elem_of_bind in H1 as (? & H1 & _).
    apply list_elem_of_bind in H2 as (? & H2 & _).
    apply list_elem_of_singleton in H1, H2. congruence.
  - intros r _. apply NoDup_bind; [| |apply NoDup_seqZ].
    + intros c1 c2 y _ _ H1 H2. apply list_elem_of_singleton in H1, H2. congruence.
    + intros c _. apply NoDup_singleton.
Qed.

Lemma NoDup_board_cells : NoDup board_cells.
Proof.
  apply NoDup_bind; [| |apply NoDup_seqZ].
  - intros r1 r2 [r c] _ _ H1 H2.
    apply list_elem_of_bind in H1 as (? & H1 & _).
    apply list_elem_of_bind in H2 as (? & H2 & _).
    apply list_elem_of_singleton in H1, H2. congruence.
  - intros r _. apply NoDup_bind; [| |apply NoDup_seqZ].
    + intros c1 c2 y _ _ H1 H2. apply list_elem_of_singleton in H1, H2. congruence.
    + intros c _. apply NoDup_singleton.
Qed.

Lemma length_board_cells : length board_cells = Z.to_nat (NUM_ROWS * NUM_COLS).
Proof. reflexivity. Qed.

Lemma NoDup_occupiedCells p : NoDup (occupiedCells p).
Proof.
  rewrite occupiedCells_fmap. apply NoDup_fmap_2_strong.
  - intros [r1 c1] [r2 c2] _ _ [= ? ?]. f_equal; lia.
  - apply NoDup_filter, NoDup_window.
Qed.

Lemma NoDup_apart (ps : list Piece) : apart ps → NoDup (ps ≫= occupiedCells).
Proof.
  induction 1 as [|p ps Hp Ha IH]; [constructor|].
  rewrite bind_cons. apply NoDup_app. split_and!; [apply NoDup_occupiedCells| |done].
  intros [r c] H1 H2. apply list_elem_of_bind in H2 as (q & H2 & Hq).
  rewrite Forall_forall in Hp. apply (Hp q Hq r c).
  split; by apply occupiedCells_spec.
Qed.

Lemma all_cells_on_board b :
  consistent b → ∀ rc, rc ∈ all_cells b → rc ∈ board_cells.
Proof.
  intros [_ _ _ Hok] [r c] H. apply list_elem_of_bind in H as (p & H & Hp).
  apply list_elem_of_lookup_1 in Hp as [i Hi]. apply elem_of_board_cells.
  apply (Hok i p Hi). by apply occupiedCells_spec.
Qed.

Lemma all_cells_grid b r c :
  consistent b →
  (r, c) ∈ all_cells b ↔ ∃ i, grid_get (pieceGrid b) r c = Some (Some i).
Proof.
  intros [_ Hgrid Hpiece _]. split.
  - intros H. apply list_elem_of_bind in H as (p & H & Hp).
    apply list_elem_of_lookup_1 in Hp as [i Hi]. exists i.
    apply (Hpiece i p); [by eapply lookup_lt_Some|done|by apply occupiedCells_spec].
  - intros [i Hi]. destruct (Hgrid r c i Hi) as (_ & p & Hp & Ho).
    apply list_elem_of_bind. exists p. split; [by apply occupiedCells_spec|].
    by eapply list_elem_of_lookup_2.
Qed.

Lemma length_pieces_le_tiles (ps : list Piece) :
  (∀ p, p ∈ ps → ∃ r c, occupies p r c = true) →
  (length ps ≤ length (ps ≫= occupiedCells))%nat.
Proof.
  induction ps as [|p ps IH]; intros H; [done|].
  rewrite bind_cons, length_app. cbn [length].
  destruct (H p) as (r & c & Ho); [left|].
  apply occupiedCells_spec in Ho.
  assert (0 < length (occupiedCells p))%nat.
  { destruct (occupiedCells p); [by apply elem_of_nil in Ho|cbn; lia]. }
  assert (length ps ≤ length (ps ≫= occupiedCells))%nat.
  { apply IH. intros q Hq. apply H. by right. }
  lia.
Qed.

(** On a consistent board there are no more tiles than cells, and fewer when
    a cell of the board is free. *)
Lemma tiles_on_le b :
  consistent b → (tiles_on b ≤ Z.to_nat (NUM_ROWS * NUM_COLS))%nat.
Proof.
  intros Hc. rewrite <- length_all_cells, <- length_board_cells.
  apply submseteq_length, NoDup_submseteq.
  - apply (NoDup_apart (pieces b)). by apply consistent_apart.
  - by apply (all_cells_on_board b).
Qed.

Lemma tiles_on_lt b r c :
  consistent b → in_bounds r c → grid_get (pieceGrid b) r c = Some None →
  (tiles_on b < Z.to_nat (NUM_ROWS * NUM_COLS))%nat.
Proof.
  intros Hc Hb Hfree.
  assert (length ((r, c) :: all_cells b) ≤ length board_cells)%nat as Hle.
  { apply submseteq_length, NoDup_submseteq.
    - apply NoDup_cons. split.
      + intros H. apply (all_cells_grid b) in H as [i Hi]; [|done]. congruence.
      + apply (NoDup_apart (pieces b)). by apply consistent_apart.
    - intros rc H. apply elem_of_cons in H as [->|H].
      + by apply elem_of_board_cells.
      + by apply (all_cells_on_board b). }
  cbn [length] in Hle. rewrite length_all_cells, length_board_cells in Hle. lia.
Qed.

Lemma length_pieces_le b :
  consistent b → (length (pieces b) ≤ tiles_on b)%nat.
Proof.
  intros Hc. rewrite <- length_all_cells. apply length_pieces_le_tiles.
  intros p Hp. apply list_elem_of_lookup_1 in Hp as [i Hi].
  pose proof Hc as [_ _ _ Hok]. by apply (Hok i p Hi).
Qed.

(** ** Tiles through a collapse *)

Lemma tile_count_clear tg r c tg' :
  tg_get tg r c = Some true → tg_set tg r c false = Some tg' →
  (tile_count tg' + 1 = tile_count tg)%nat.
Proof.
  intros Hg Hs. pose proof (tg_get_Some _ _ _ _ Hg) as [Hr Hc].
  unfold MAX_HEIGHT, MAX_WIDTH in *.
  assert (r = 0 ∨ r = 1 ∨ r = 2 ∨ r = 3) as Hr' by lia.
  assert (c = 0 ∨ c = 1 ∨ c = 2 ∨ c = 3) as Hc' by lia.
  destruct tg as [[? ? ? ?] [? ? ? ?] [? ? ? ?] [? ? ? ?]].
  destruct Hr' as [->|[->|[->| ->]]]; destruct Hc' as [->|[->|[->| ->]]];
    cbn in Hg, Hs; injection Hg as ->; injection Hs as <-;
    unfold tile_count;
    (let w := eval vm_compute in window in change window with w);
    cbn -[Nat.b2n Nat.add]; change (Nat.b2n true) with 1%nat;
    change (Nat.b2n false) with 0%nat; lia.
Qed.

Lemma tile_count_rotate tg ntg :
  rotate_tiles tg = Some ntg → tile_count ntg = tile_count tg.
Proof.
  destruct tg as [[? ? ? ?] [? ? ? ?] [? ? ? ?] [? ? ? ?]].
  intros H. vm_compute in H. injection H as <-.
  unfold tile_count.
  (let w := eval vm_compute in window in change window with w).
  cbn -[Nat.b2n Nat.add]. lia.
Qed.

Lemma sum_list_with_insert {A} (f : A → nat) (l : list A) i x y :
  l !! i = Some x →
  (sum_list_with f (<[i := y]> l) + f x = sum_list_with f l + f y)%nat.
Proof.
  revert i. induction l as [|z l IH]; intros [|i] Hi; try done; simpl in *.
  - injection Hi as ->. lia.
  - specialize (IH i Hi). lia.
Qed.

Lemma tile_count_no_tile p :
  (¬ ∃ r c, occupies p r c = true) → tile_count (tileGrid p) = 0%nat.
Proof.
  intros Hno. rewrite <- length_occupiedCells.
  destruct (occupiedCells p) as [|[r c] l] eqn:E; [done|].
  exfalso. apply Hno. exists r, c. apply occupiedCells_spec. rewrite E. left.
Qed.

Lemma erase_count ps ps' :
  erase_remove_if no_tile_left ps = Some ps' →
  sum_list_with (λ p, tile_count (tileGrid p)) ps'
  = sum_list_with (λ p, tile_count (tileGrid p)) ps
  ∧ (length ps' ≤ length ps)%nat.
Proof.
  revert ps'. induction ps as [|x ps IH]; intros ps'; cbn [erase_remove_if].
  - by intros [= <-].
  - destruct (no_tile_left_spec x) as (out & -> & Hout). cbn [mbind option_bind].
    destruct (erase_remove_if no_tile_left ps) as [rest|]; [|done].
    cbn [mbind option_bind]. intros [= <-]. destruct (IH rest eq_refl) as [IH1 IH2].
    destruct out; cbn [sum_list_with length].
    + rewrite IH1, tile_count_no_tile; [lia|].
      intros H. apply Hout in H. done.
    + rewrite IH1. lia.
Qed.

Lemma clear_cell_count r k b b' :
  clearing r k b → Z.of_nat k < NUM_COLS →
  clear_cell r (Z.of_nat k) b = Some b' →
  (tiles_on b' + 1 = tiles_on b)%nat
  ∧ rowsCompleted b' = rowsCompleted b ∧ activePiece b' = activePiece b
  ∧ colorIndex b' = colorIndex b ∧ length (pieces b') = length (pieces b).
Proof.
  intros [Hwf Htodo _ _] Hk.
  destruct (Htodo (Z.of_nat k)) as (i & p & Hcell & Hp & Ho); [lia|].
  unfold clear_cell. rewrite Hcell. cbn [mbind option_bind]. rewrite Hp.
  cbn [mbind option_bind].
  destruct (removeTile_tile p r (Z.of_nat k) Ho) as (tg & Hset & -> & _).
  cbn [mbind option_bind].
  destruct (grid_set (pieceGrid b) r (Z.of_nat k) None) as [g'|]; [|done].
  cbn [mbind option_bind]. intros [= <-].
  cbn [rowsCompleted activePiece colorIndex pieces set_pieceGrid set_pieces].
  split; [|by rewrite length_insert].
  unfold tiles_on. cbn [pieces set_pieceGrid set_pieces].
  pose proof (sum_list_with_insert (λ p, tile_count (tileGrid p)) (pieces b) i p
                (set_tileGrid tg p) Hp) as Hsum.
  cbn [tileGrid set_tileGrid] in Hsum.
  assert (tile_count tg + 1 = tile_count (tileGrid p))%nat.
  { apply (tile_count_clear _ (r - row p) (Z.of_nat k - col p)); [|done].
    unfold occupies, covers in Ho.
    by destruct (tg_get (tileGrid p) (r - row p) (Z.of_nat k - col p)) as [[|]|]. }
  lia.
Qed.

(** One row of the collapse, with the count of the tiles. *)
Lemma collapse_row_full fuel r b :
  consistent b → 0 <= r < NUM_ROWS → (Z.to_nat NUM_ROWS ≤ fuel)%nat →
  (∀ c, 0 <= c < NUM_COLS → ∃ i, grid_get (pieceGrid b) r c = Some (Some i)) →
  ∃ b', collapse_row fuel r b = Some b' ∧ consistent b'
        ∧ (tiles_on b' + Z.to_nat NUM_COLS = tiles_on b)%nat
        ∧ rowsCompleted b' = rowsCompleted b + 1
        ∧ activePiece b' = activePiece b ∧ colorIndex b' = colorIndex b
        ∧ (length (pieces b') ≤ length (pieces b))%nat.
Proof.
  intros Hc Hr Hfuel Hrow. pose proof Hc as [Hwf Hgrid Hpiece Hok].
  unfold collapse_row.
  destruct (isRowFull_spec r b Hwf Hr) as (full & -> & Hfull).
  cbn [mbind option_bind]. apply Hfull in Hrow as ->. cbn [negb].
  set (b1 := set_rowsCompleted (rowsCompleted b + 1) b).
  destruct (loop_state_ind
              (λ k s, clearing r k s
                      ∧ (tiles_on s + k = tiles_on b1)%nat
                      ∧ rowsCompleted s = rowsCompleted b1
                      ∧ activePiece s = activePiece b1
                      ∧ colorIndex s = colorIndex b1
                      ∧ length (pieces s) = length (pieces b1))
              (clear_cell r) (seqZ 0 NUM_COLS) b1)
    as (b2 & -> & Hclr & Hn2 & Hr2 & Ha2 & Hc2 & Hl2).
  { split; [|split_and!; try done; lia].
    subst b1. constructor; cbn [pieces pieceGrid set_rowsCompleted].
    - done.
    - intros c Hcol. destruct (proj1 Hfull eq_refl c) as [i Hi]; [lia|].
      destruct (Hgrid r c i Hi) as (_ & p & Hp & Ho). eauto.
    - intros i p Hp. by apply (Hok i p).
    - by apply consistent_apart. }
  { intros k c s0 Hk (HQ & Hn & Hrc & Ha & Hci & Hl).
    apply lookup_seqZ in Hk as [-> Hk]. rewrite Z.add_0_l.
    destruct (clear_cell_step r k s0 Hr Hk HQ) as (s1 & Hs1 & HQ1).
    destruct (clear_cell_count r k s0 s1 HQ Hk Hs1) as (Hn1 & Hr1 & Ha1 & Hc1 & Hl1).
    exists s1. split; [done|]. split; [done|].
    split_and!; try congruence. lia. }
  rewrite length_seqZ in Hn2.
  cbn [mbind option_bind]. destruct Hclr as [_ _ Hbounds Hapart].
  destruct (erase_spec (pieces b2)) as (ps & Herase & Hps & Hap).
  rewrite Herase. destruct (erase_count _ _ Herase) as [Hcount Hlen].
  cbn [mbind option_bind]. specialize (Hap Hapart).
  destruct (loop_state_ind
              (λ k s, registered k s ∧ pieces s = ps
                      ∧ rowsCompleted s = rowsCompleted b2
                      ∧ activePiece s = activePiece b2
                      ∧ colorIndex s = colorIndex b2)
              replace_piece
              (seq 0 (length (pieces (set_pieceGrid GRID_NULL (set_pieces ps b2)))))
              (set_pieceGrid GRID_NULL (set_pieces ps b2)))
    as (b4 & -> & Hreg & Hps4 & Hr4 & Ha4 & Hc4).
  { split; [|done]. constructor; cbn [pieces pieceGrid set_pieces set_pieceGrid].
    - apply GRID_NULL_wf.
    - intros r' c' i Hi.
      pose proof (grid_get_Some _ _ _ _ GRID_NULL_wf Hi) as Hb.
      rewrite (GRID_NULL_get _ _ Hb) in Hi. done.
    - intros i p Hlt. lia.
    - intros i p Hp. apply list_elem_of_lookup_2 in Hp.
      destruct (Hps p Hp) as [Hin Hne]. split; [|done].
      apply list_elem_of_lookup_1 in Hin as [j Hj]. by apply (Hbounds j p). }
  { intros k i s0 Hk (Hreg & Hpieces & Hrs & Has & Hcs).
    apply lookup_seq in Hk as [-> Hk].
    cbn [pieces set_pieces set_pieceGrid] in Hk. rewrite Nat.add_0_l.
    destruct (replace_piece_step k s0 Hreg) as (g' & -> & Hreg').
    { by rewrite Hpieces. } { by rewrite Hpieces. }
    eexists. split; [done|]. split; [done|]. by destruct s0. }
  cbn [mbind option_bind]. rewrite length_seq in Hreg.
  cbn [pieces set_pieces set_pieceGrid] in Hreg.
  destruct (loop_state_ind
              (λ (k : nat) s, consistent s
                              ∧ length (pieces s) = length (pieces b4)
                              ∧ tileGrid <$> pieces s = tileGrid <$> pieces b4
                              ∧ rowsCompleted s = rowsCompleted b4
                              ∧ activePiece s = activePiece b4
                              ∧ colorIndex s = colorIndex b4)
              (settle fuel) (seq 0 (length (pieces b4))) b4)
    as (b5 & -> & Hc5 & Hl5 & Ht5 & Hr5 & Ha5 & Hci5).
  { split; [|done]. unfold consistent. by rewrite Hps4. }
  { intros k i s0 Hk (Hcs & Hlens & Hts & Hrs & Has & Hcis).
    apply lookup_seq in Hk as [-> Hk]. rewrite Nat.add_0_l.
    destruct (settle_consistent k fuel s0 Hcs) as (s1 & Hs1 & Hc1 & Hlen1 & _);
      [lia|done|].
    destruct (settle_frame _ _ _ _ Hs1) as (Ha1 & Hr1 & Hci1 & Ht1 & _).
    exists s1. split; [done|]. split; [done|]. split_and!; congruence. }
  exists b5. split; [done|]. split; [done|]. subst b1.
  cbn [rowsCompleted activePiece colorIndex pieces set_pieces set_pieceGrid
       set_rowsCompleted] in *.
  split_and!; try congruence.
  rewrite (tiles_on_footprints b4 b5 Ht5). unfold tiles_on in *.
  rewrite Hps4, Hcount. unfold NUM_COLS in *. exact Hn2.
Qed.

Lemma collapse_row_not_full fuel r b :
  grid_wf (pieceGrid b) → 0 <= r < NUM_ROWS →
  (∃ c, 0 <= c < NUM_COLS ∧ grid_get (pieceGrid b) r c = Some None) →
  collapse_row fuel r b = Some b.
Proof.
  intros Hwf Hr (c & Hc & Hnull). unfold collapse_row.
  destruct (isRowFull_spec r b Hwf Hr) as (full & -> & Hfull).
  cbn [mbind option_bind]. destruct full; [|done].
  destruct (proj1 Hfull eq_refl c Hc) as [i Hi]. congruence.
Qed.

Lemma row_full_dec b r :
  grid_wf (pieceGrid b) → 0 <= r < NUM_ROWS →
  (∀ c, 0 <= c < NUM_COLS → ∃ i, grid_get (pieceGrid b) r c = Some (Some i))
  ∨ (∃ c, 0 <= c < NUM_COLS ∧ grid_get (pieceGrid b) r c = Some None).
Proof.
  intros Hwf Hr.
  destruct (loop_until_spec
              (λ c, grid_get (pieceGrid b) r c = Some None)
              (λ c, cell ← grid_get (pieceGrid b) r c;
                    Some (bool_decide (cell = None)))
              (seqZ 0 NUM_COLS)) as (hole & _ & Hhole).
  { intros c Hc. apply elem_of_seqZ in Hc.
    destruct (grid_get_in_bounds (pieceGrid b) r c Hwf) as [cell Hcell].
    { unfold in_bounds. lia. }
    rewrite Hcell. cbn [mbind option_bind]. eexists. split; [done|].
    rewrite bool_decide_eq_true. split; congruence. }
  destruct hole.
  - right. destruct (proj1 Hhole eq_refl) as (c & Hc & Hn).
    apply elem_of_seqZ in Hc. exists c. split; [lia|done].
  - left. intros c Hc.
    destruct (grid_get_in_bounds (pieceGrid b) r c Hwf) as [[i|] Hcell].
    { unfold in_bounds. lia. }
    + eauto.
    + assert (false = true); [|done]. apply Hhole. exists c.
      split; [apply elem_of_seqZ; lia|done].
Qed.

(** ** The whole of collapseFullRows *)

(** The collapse, with the count of the tiles and of the rows. *)
Lemma collapseFullRows_count fuel b :
  consistent b → (Z.to_nat NUM_ROWS ≤ fuel)%nat →
  ∃ b', collapseFullRows fuel b = Some b' ∧ consistent b'
        ∧ rowsCompleted b <= rowsCompleted b' <= rowsCompleted b + NUM_ROWS
        ∧ Z.of_nat (tiles_on b') + NUM_COLS * (rowsCompleted b' - rowsCompleted b)
          = Z.of_nat (tiles_on b)
        ∧ activePiece b' = activePiece b ∧ colorIndex b' = colorIndex b
        ∧ (length (pieces b') ≤ length (pieces b))%nat
        ∧ (rowsCompleted b' = rowsCompleted b → b' = b)
        ∧ (tiles_on b' < Z.to_nat (NUM_ROWS * NUM_COLS))%nat.
Proof.
  intros Hc Hfuel. unfold collapseFullRows.
  destruct (loop_state_ind
              (λ (k : nat) s,
                 consistent s
                 ∧ rowsCompleted b <= rowsCompleted s <= rowsCompleted b + Z.of_nat k
                 ∧ Z.of_nat (tiles_on s) + NUM_COLS * (rowsCompleted s - rowsCompleted b)
                   = Z.of_nat (tiles_on b)
                 ∧ activePiece s = activePiece b ∧ colorIndex s = colorIndex b
                 ∧ (length (pieces s) ≤ length (pieces b))%nat
                 ∧ (rowsCompleted s = rowsCompleted b → s = b)
                 ∧ (0 < k → tiles_on s < Z.to_nat (NUM_ROWS * NUM_COLS))%nat)
              (collapse_row fuel) (seqZ 0 NUM_ROWS) b)
    as (b' & Hb' & Hc' & Hr' & Ht' & Ha' & Hci' & Hl' & Hid' & Hlt').
  { split_and!; try done; lia. }
  { intros k r s0 Hk (Hcs & Hrs & Hts & Has & Hcis & Hls & Hids & _).
    apply lookup_seqZ in Hk as [-> Hk]. rewrite Z.add_0_l.
    pose proof Hcs as [Hwf _ _ _].
    assert (0 <= Z.of_nat k < NUM_ROWS) as Hrow by lia.
    destruct (row_full_dec s0 (Z.of_nat k) Hwf Hrow) as [Hfull|Hhole].
    - destruct (collapse_row_full fuel (Z.of_nat k) s0 Hcs) as
        (s1 & -> & Hc1 & Ht1 & Hr1 & Ha1 & Hci1 & Hl1); [done|done|done|].
      exists s1. split; [done|].
      pose proof (tiles_on_le s0 Hcs) as Hle.
      unfold NUM_ROWS, NUM_COLS in *. split_and!; try done; try congruence; lia.
    - rewrite (collapse_row_not_full fuel (Z.of_nat k) s0 Hwf Hrow Hhole).
      exists s0. split; [done|]. split_and!; try done; try lia.
      intros _. destruct Hhole as (c & Hcol & Hnull).
      apply (tiles_on_lt s0 (Z.of_nat k) c); [done| |done].
      unfold in_bounds. lia. }
  exists b'. rewrite length_seqZ in Hr', Hlt'. unfold NUM_ROWS in *.
  split_and!; try done; try lia.
Qed.

Lemma rotate_frame this b b' :
  rotate this b = Some b' →
  activePiece b' = activePiece b ∧ rowsCompleted b' = rowsCompleted b
  ∧ colorIndex b' = colorIndex b
  ∧ length (pieces b') = length (pieces b)
  ∧ color <$> pieces b' = color <$> pieces b
  ∧ row <$> pieces b' = row <$> pieces b
  ∧ col <$> pieces b' = col <$> pieces b
  ∧ ∀ j, j ≠ this → pieces b' !! j = pieces b !! j.
Proof.
  unfold rotate. destruct (pieces b !! this) as [p|] eqn:Hp; [|done].
  rewrite option_bind_Some.
  destruct (rotate_tiles (tileGrid p)) as [ntg|]; [|done].
  rewrite option_bind_Some.
  destruct (moveTo this (row p) (col p) ntg b) as [[ok b1]|] eqn:Hm; [|done].
  rewrite option_bind_Some.
  destruct (moveTo_frame _ _ _ _ _ _ _ Hm) as (Ha & Hr & Hc & Hf & Ht).
  destruct ok.
  - destruct (Ht eq_refl) as (p' & Hp' & Hps). rewrite Hp in Hp'. injection Hp' as <-.
    rewrite Hps, list_lookup_insert_eq by (by eapply lookup_lt_Some).
    rewrite option_bind_Some. intros [= <-].
    cbn [activePiece rowsCompleted colorIndex pieces set_pieces].
    rewrite list_insert_insert_eq, length_insert, !list_fmap_insert.
    cbn [color row col set_tileGrid set_anchor].
    split_and!; try done.
    + apply list_insert_id. by rewrite list_lookup_fmap, Hp.
    + apply list_insert_id. by rewrite list_lookup_fmap, Hp.
    + apply list_insert_id. by rewrite list_lookup_fmap, Hp.
    + intros j Hj. by rewrite list_lookup_insert_ne.
  - intros [= <-]. by rewrite (Hf eq_refl).
Qed.

(** ** A piece taken to another placement *)

Lemma grid_ext (g1 g2 : list (list (option nat))) :
  grid_wf g1 → grid_wf g2 →
  (∀ r c, in_bounds r c → grid_get g1 r c = grid_get g2 r c) → g1 = g2.
Proof.
  intros [Hl1 Hw1] [Hl2 Hw2] Hget. apply list_eq. intros i.
  destruct (decide (i < Z.to_nat NUM_ROWS)%nat) as [Hi|Hi].
  2:{ rewrite !lookup_ge_None_2; [done|lia|lia]. }
  destruct (lookup_lt_is_Some_2 g1 i) as [l1 E1]; [lia|].
  destruct (lookup_lt_is_Some_2 g2 i) as [l2 E2]; [lia|].
  rewrite E1, E2. f_equal. apply list_eq. intros j.
  pose proof (Hw1 _ _ E1) as Hlen1. pose proof (Hw2 _ _ E2) as Hlen2.
  destruct (decide (j < Z.to_nat NUM_COLS)%nat) as [Hj|Hj].
  2:{ rewrite !lookup_ge_None_2; [done|lia|lia]. }
  specialize (Hget (Z.of_nat i) (Z.of_nat j)). unfold grid_get in Hget.
  rewrite andb_true_intro, !Nat2Z.id, E1, E2 in Hget by (split; apply Z.leb_le; lia).
  apply Hget. unfold in_bounds. lia.
Qed.

Lemma board_eta b : mkBoard (pieceGrid b) (pieces b) (activePiece b)
                            (rowsCompleted b) (colorIndex b) = b.
Proof. by destruct b. Qed.

Lemma board_eq b s :
  pieceGrid s = pieceGrid b → pieces s = pieces b → activePiece s = activePiece b →
  rowsCompleted s = rowsCompleted b → colorIndex s = colorIndex b → s = b.
Proof. destruct b, s; cbn. by intros -> -> -> -> ->. Qed.

Lemma displaced_refl b this p :
  consistent b → pieces b !! this = Some p → displaced b this p p b.
Proof.
  intros [Hwf Hgrid Hpiece Hok] Hp. constructor; try done.
  - by rewrite list_insert_id.
  - intros r c. destruct (occupies p r c) eqn:Ho; [|done].
    apply (Hpiece this p); [by eapply lookup_lt_Some|done|done].
  - intros r c Ho. split; [by apply (Hok this p Hp)|].
    intros i Hi. rewrite (Hpiece this p (lookup_lt_Some _ _ _ Hp) Hp r c Ho) in Hi.
    congruence.
Qed.

Lemma displaced_back b this p s :
  consistent b → pieces b !! this = Some p → displaced b this p p s → s = b.
Proof.
  intros [Hwf Hgrid Hpiece Hok] Hp [Hps Ha Hr Hc Hwfs Hg _].
  apply board_eq; try done.
  - apply grid_ext; [done|done|]. intros r c _. rewrite Hg.
    destruct (occupies p r c) eqn:Ho; [|done]. symmetry.
    apply (Hpiece this p); [by eapply lookup_lt_Some|done|done].
  - by rewrite Hps, list_insert_id.
Qed.

(** A displaced piece is taken to a further placement. *)
Lemma displaced_step b this p q s nr nc ntg g' :
  consistent b → pieces b !! this = Some p → displaced b this p q s →
  ¬ blocked this nr nc ntg s →
  grid_wf g' →
  (∀ r c, grid_get g' r c =
          if covers ntg nr nc r c then Some (Some this)
          else if occupies q r c then Some None
          else grid_get (pieceGrid s) r c) →
  displaced b this p (mkPiece ntg (color q) nr nc)
    (set_pieces (<[this := mkPiece ntg (color q) nr nc]> (pieces s))
                (set_pieceGrid g' s)).
Proof.
  intros [Hwf Hgrid Hpiece Hok] Hp [Hps Ha Hr Hc Hwfs Hg Hfree] Hnb Hwf' Hg'.
  pose proof (proj1 (not_blocked_iff _ _ _ _ _) Hnb) as Hnew.
  pose proof (lookup_lt_Some _ _ _ Hp) as Hlt.
  constructor; cbn [pieces pieceGrid activePiece rowsCompleted colorIndex
                    set_pieces set_pieceGrid]; try done.
  - by rewrite Hps, list_insert_insert_eq.
  - intros r c. rewrite Hg'. change (occupies (mkPiece ntg (color q) nr nc) r c)
      with (covers ntg nr nc r c).
    destruct (covers ntg nr nc r c) eqn:Ec; [done|]. rewrite Hg.
    destruct (occupies q r c) eqn:Eq; [|done].
    destruct (occupies p r c) eqn:Ep; [done|].
    destruct (Hfree r c Eq) as [Hb Hi].
    destruct (grid_get_in_bounds (pieceGrid b) r c Hwf Hb) as [[i|] Hcell]; [|done].
    rewrite (Hi i Hcell) in Hcell.
    destruct (Hgrid r c this Hcell) as (_ & p' & Hp' & Ho'). congruence.
  - intros r c Ho. change (covers ntg nr nc r c = true) in Ho.
    destruct (Hnew r c Ho) as [Hb Hown]. split; [done|]. intros i Hi.
    specialize (Hg r c). destruct (occupies q r c) eqn:Eq.
    + by apply (Hfree r c Eq).
    + destruct (occupies p r c) eqn:Ep.
      * rewrite (Hpiece this p Hlt Hp r c Ep) in Hi. congruence.
      * rewrite <- Hg in Hi. by apply Hown.
Qed.


(** ** Steering *)

Lemma piece_eta p : mkPiece (tileGrid p) (color p) (row p) (col p) = p.
Proof. by destruct p. Qed.

Lemma piece_has_tile b i p :
  consistent b → pieces b !! i = Some p → ∃ sr sc, tg_get (tileGrid p) sr sc = Some true.
Proof.
  intros [_ _ _ Hok] Hp. destruct (Hok i p Hp) as [_ (r & c & Ho)].
  apply covers_spec in Ho as (sr & sc & Ht & _). eauto.
Qed.

(** An accepted move of a piece of a consistent board. *)
Lemma move_displaces b0 this p0 q s d :
  consistent b0 → pieces b0 !! this = Some p0 →
  consistent s → displaced b0 this p0 q s → pieces s !! this = Some q →
  ¬ blocked this (dest_row d q) (dest_col d q) (tileGrid q) s →
  ∃ s', move this d s = Some (false, s') ∧ consistent s'
        ∧ displaced b0 this p0 (set_anchor (dest_row d q) (dest_col d q) q) s'
        ∧ pieces s' !! this = Some (set_anchor (dest_row d q) (dest_col d q) q).
Proof.
  intros Hc0 Hp0 Hcs Hd Hq Hnb. pose proof Hcs as [Hwf _ _ Hok].
  destruct (Hok this q Hq) as [Hin _].
  destruct (move_free this d s q Hwf Hq Hin Hnb) as (g' & Hmove & Hwf' & Hg').
  eexists. split; [exact Hmove|]. split; [|split].
  - apply (relocate_consistent this _ _ (tileGrid q) s q g'); try done.
    by eapply piece_has_tile.
  - by apply (displaced_step b0 this p0 q s _ _ (tileGrid q) g').
  - cbn [pieces set_pieces]. apply list_lookup_insert_eq. by eapply lookup_lt_Some.
Qed.

Lemma rotate_displaces b0 this p0 q s :
  consistent b0 → pieces b0 !! this = Some p0 →
  consistent s → displaced b0 this p0 q s → pieces s !! this = Some q →
  ∃ s' q', rotate this s = Some s' ∧ consistent s'
           ∧ displaced b0 this p0 q' s' ∧ pieces s' !! this = Some q'
           ∧ length (pieces s') = length (pieces s)
           ∧ tile_count (tileGrid q') = tile_count (tileGrid q).
Proof.
  intros Hc0 Hp0 Hcs Hd Hq. pose proof Hcs as [Hwf _ _ Hok].
  destruct (Hok this q Hq) as [Hin _].
  destruct (rotate_tiles_spec (tileGrid q)) as (ntg & Hrot & _).
  pose proof (tile_count_rotate _ _ Hrot) as Hcount.
  assert (∃ sr sc, tg_get ntg sr sc = Some true) as Hne.
  { apply (rotate_tiles_nonempty (tileGrid q) ntg Hrot). by eapply piece_has_tile. }
  destruct (moveTo_total this (row q) (col q) ntg s q Hwf Hq Hin) as [Hbl|Hnb].
  - exists s, q. rewrite (rotate_blocked this s q ntg Hwf Hq Hrot Hbl). clear Hrot.
    done.
  - destruct (rotate_free this s q ntg Hwf Hq Hin Hrot Hnb) as (g' & -> & Hwf' & Hg').
    clear Hrot. eexists _, (mkPiece ntg (color q) (row q) (col q)).
    split; [done|]. split_and!.
    + by apply (relocate_consistent this _ _ ntg s q g').
    + by apply (displaced_step b0 this p0 q s _ _ ntg g').
    + cbn [pieces set_pieces]. apply list_lookup_insert_eq. by eapply lookup_lt_Some.
    + cbn [pieces set_pieces]. apply length_insert.
    + done.
Qed.

(** A command other than DOWN, on a board on which the active piece has been
    displaced. *)
Lemma update_steers fuel d rd b0 p0 q s :
  d ≠ DOWN →
  consistent b0 → pieces b0 !! activePiece b0 = Some p0 →
  consistent s → displaced b0 (activePiece b0) p0 q s →
  pieces s !! activePiece b0 = Some q →
  ∃ s' q', update fuel d rd s = Some (true, s') ∧ consistent s'
           ∧ displaced b0 (activePiece b0) p0 q' s'
           ∧ pieces s' !! activePiece b0 = Some q'
           ∧ tile_count (tileGrid q') = tile_count (tileGrid q).
Proof.
  intros Hd Hc0 Hp0 Hcs Hdsp Hq. rewrite update_unfold.
  rewrite (dsp_active _ _ _ _ _ Hdsp).
  destruct (decide (d = UP)) as [->|Hup].
  - rewrite bool_decide_true by done.
    destruct (rotate_displaces b0 _ p0 q s Hc0 Hp0 Hcs Hdsp Hq)
      as (s' & q' & -> & Hc' & Hd' & Hq' & _ & Ht').
    rewrite !option_bind_Some. by exists s', q'.
  - rewrite bool_decide_false by done. pose proof Hcs as [Hwf _ _ Hok].
    destruct (Hok _ q Hq) as [Hin _].
    destruct (moveTo_total (activePiece b0) (dest_row d q) (dest_col d q) (tileGrid q)
                s q Hwf Hq Hin) as [Hbl|Hnb].
    + rewrite (move_blocked _ d s q Hwf Hq Hbl), option_bind_Some.
      rewrite bool_decide_false by done. by exists s, q.
    + destruct (move_displaces b0 _ p0 q s d Hc0 Hp0 Hcs Hdsp Hq Hnb)
        as (s' & -> & Hc' & Hd' & Hq').
      rewrite option_bind_Some. by eexists s', _.
Qed.

Lemma updates_steer fuel cmds b0 p0 :
  Forall (λ cmd : Direction * nat, cmd.1 ≠ DOWN) cmds →
  consistent b0 → pieces b0 !! activePiece b0 = Some p0 →
  ∀ q s, consistent s → displaced b0 (activePiece b0) p0 q s →
         pieces s !! activePiece b0 = Some q →
  ∃ s' q', updates fuel cmds s = Some (true, s') ∧ consistent s'
           ∧ displaced b0 (activePiece b0) p0 q' s'
           ∧ pieces s' !! activePiece b0 = Some q'
           ∧ tile_count (tileGrid q') = tile_count (tileGrid q).
Proof.
  intros Hcmds Hc0 Hp0. induction Hcmds as [|[d rd] cmds Hd _ IH]; intros q s Hcs Hdsp Hq.
  - by exists s, q.
  - cbn [updates].
    destruct (update_steers fuel d rd b0 p0 q s Hd Hc0 Hp0 Hcs Hdsp Hq)
      as (s1 & q1 & -> & Hc1 & Hd1 & Hq1 & Ht1).
    cbn [mbind option_bind].
    destruct (IH q1 s1 Hc1 Hd1 Hq1) as (s' & q' & Hs' & Hc' & Hd' & Hq' & Ht').
    exists s', q'. split_and!; try done. congruence.
Qed.

(** ** Counts through update *)

Lemma tower_board_Inv : Inv tower_board.
Proof. apply Invb_sound. vm_compute. reflexivity. Qed.

Lemma Piece_ctor_tiles rd ci : tile_count (tileGrid (Piece_ctor rd ci).1) = 4%nat.
Proof.
  destruct (Piece_ctor_anchor rd ci) as (_ & _ & Htg). revert Htg.
  generalize (tileGrid (Piece_ctor rd ci).1). intros tg Htg.
  unfold DEFAULT_PIECES in Htg.
  repeat (apply elem_of_cons in Htg as [->|Htg]; [reflexivity|]).
  by apply elem_of_nil in Htg.
Qed.

Lemma tiles_on_insert b i p q s :
  pieces b !! i = Some p → pieces s = <[i := q]> (pieces b) →
  tile_count (tileGrid q) = tile_count (tileGrid p) → tiles_on s = tiles_on b.
Proof.
  intros Hp Hs Ht. unfold tiles_on. rewrite Hs.
  pose proof (sum_list_with_insert (λ p, tile_count (tileGrid p)) (pieces b) i p q Hp).
  lia.
Qed.

(** The commands other than DOWN never ask for a spawn. *)
Lemma steer_does_not_spawn fuel d rd b : d ≠ DOWN → spawns fuel d rd b = false.
Proof.
  intros Hd. unfold spawns. case_bool_decide.
  - by destruct (rotate (activePiece b) b).
  - unfold move. destruct (pieces b !! activePiece b) as [p|]; [|done].
    rewrite option_bind_Some. cbv zeta.
    destruct (moveTo _ _ _ _ _) as [[moved bx]|]; [|done].
    rewrite option_bind_Some. rewrite (bool_decide_false (d = DOWN)) by done.
    by rewrite andb_false_r.
Qed.

(** What a call of [Board::update] does to the counts. *)
Lemma update_count fuel d rd b ok b' :
  Inv b → (Z.to_nat NUM_ROWS ≤ fuel)%nat →
  update fuel d rd b = Some (ok, b') →
  rowsCompleted b <= rowsCompleted b'
  ∧ Z.of_nat (tiles_on b') + NUM_COLS * rowsCompleted b'
    = Z.of_nat (tiles_on b) + NUM_COLS * rowsCompleted b
      + 4 * Z.of_nat (if spawns fuel d rd b then 1 else 0).
Proof.
  intros [Hc Hact] Hfuel. destruct (lookup_lt_is_Some_2 _ _ Hact) as [p Hp].
  pose proof (displaced_refl b _ p Hc Hp) as Hdsp.
  destruct (decide (d = DOWN)) as [->|Hd].
  - unfold spawns. rewrite update_unfold, bool_decide_false by done.
    destruct (move (activePiece b) DOWN b) as [[[|] b1]|] eqn:Hm;
      rewrite ?option_bind_Some; [| |done].
    + pose proof Hc as [Hwf _ _ Hok]. destruct (Hok _ p Hp) as [Hin _].
      destruct (move_true_blocked _ _ _ _ p Hwf Hp Hin Hm) as (_ & -> & _).
      destruct (collapseFullRows_count fuel b Hc Hfuel)
        as (b2 & -> & Hc2 & Hr2 & Ht2 & _).
      rewrite option_bind_Some.
      destruct (spawn_spec rd b2 Hc2) as [Hsb Hsf].
      destruct (moveTo_total (activePiece (emplace_back rd b2)) 0 0
                  (tileGrid (Piece_ctor rd (colorIndex b2)).1) (emplace_back rd b2)
                  (Piece_ctor rd (colorIndex b2)).1) as [Hbl'|Hnb'].
      { apply (reg_wf _ _ (emplace_back_registered rd b2 Hc2)). }
      { destruct (emplace_back_spec rd b2) as (-> & -> & _).
        by apply list_lookup_middle. }
      { apply Piece_ctor_ok. }
      * rewrite (Hsb Hbl'). intros [= <- <-].
        cbn [rowsCompleted set_pieces]. unfold tiles_on at 1. cbn [pieces set_pieces].
        fold (tiles_on b2). destruct (emplace_back_spec rd b2) as (_ & _ & _ & ->).
        split; lia.
      * destruct (Hsf Hnb') as (g' & -> & _). intros [= <- <-].
        cbn [rowsCompleted set_pieceGrid]. unfold tiles_on at 1.
        cbn [pieces set_pieceGrid].
        destruct (emplace_back_spec rd b2) as (-> & _ & _ & ->).
        rewrite sum_list_with_app. cbn [sum_list_with]. rewrite Piece_ctor_tiles.
        fold (tiles_on b2). split; lia.
    + intros [= <- <-]. destruct (move_frame _ _ _ _ _ Hm) as (_ & Hr & _ & Ht & _).
      rewrite (tiles_on_footprints _ _ Ht), Hr. split; lia.
  - destruct (update_steers fuel d rd b p p b Hd Hc Hp Hc Hdsp Hp)
      as (s' & q' & -> & _ & Hd' & _ & Ht').
    intros [= <- <-]. rewrite (dsp_rows _ _ _ _ _ Hd').
    rewrite (tiles_on_insert b _ p q' s' Hp (dsp_pieces _ _ _ _ _ Hd') Ht').
    rewrite (steer_does_not_spawn fuel d rd b Hd). split; lia.
Qed.

(** Induction over the boards reached from the initial board. *)
Lemma reachable_ind fuel rd (P : Board → Prop) :
  (Z.to_nat NUM_ROWS ≤ fuel)%nat →
  P (Board_ctor rd) →
  (∀ d rd' b ok b', Inv b ∨ b = Board_ctor rd → P b →
                    update fuel d rd' b = Some (ok, b') → P b') →
  ∀ cmds ok b, updates fuel cmds (Board_ctor rd) = Some (ok, b) → P b.
Proof.
  intros Hfuel H0 Hstep cmds.
  assert (∀ b0, Inv b0 ∨ b0 = Board_ctor rd → P b0 →
            ∀ ok b, updates fuel cmds b0 = Some (ok, b) → P b) as H;
    [|by apply H; [right|]].
  induction cmds as [|[d rd'] cmds IH]; intros b0 Hb0 HP ok b; cbn [updates].
  - by intros [= _ <-].
  - destruct (update fuel d rd' b0) as [[ok1 b1]|] eqn:Hup; [|done].
    cbn [mbind option_bind]. pose proof (Hstep _ _ _ _ _ Hb0 HP Hup) as HP1.
    destruct ok1; [|by intros [= _ <-]].
    apply IH; [|done]. destruct Hb0 as [Hinv| ->].
    + destruct (update_Inv fuel d rd' b0 Hinv Hfuel) as (ok' & b1' & Hup' & _ & Hi).
      rewrite Hup in Hup'. injection Hup' as <- <-. left. by apply Hi.
    + destruct (first_update fuel d rd rd') as (b1' & Hup' & Hb1).
      rewrite Hup in Hup'. by injection Hup' as <-.
Qed.

(** The count after the first call of [Board::update]. *)
Lemma first_update_count fuel d rd rd' b' ok :
  update fuel d rd' (Board_ctor rd) = Some (ok, b') →
  tiles_on b' = 4%nat ∧ rowsCompleted b' = 0
  ∧ spawns fuel d rd' (Board_ctor rd) = false.
Proof.
  rewrite (Board_ctor_draw rd).
  pose proof (Nat.mod_upper_bound rd NUM_DEFAULT_PIECES) as Hlt.
  destruct (rd mod NUM_DEFAULT_PIECES)%nat as [|[|[|[|[|n]]]]];
    [| | | | |unfold NUM_DEFAULT_PIECES in Hlt; lia];
    destruct d; intros H; vm_compute in H; injection H as <- <-;
    (split; [done|]); (split; [done|]); vm_compute; reflexivity.
Qed.

(** ** The settle loop and the end of the game *)

(** Another piece is in the way of a placement on the displaced board exactly
    when it is on the first board. *)
Lemma displaced_blocked b this p q s nr nc tg :
  consistent b → pieces b !! this = Some p → displaced b this p q s →
  blocked this nr nc tg s ↔ blocked this nr nc tg b.
Proof.
  intros [Hwf Hgrid Hpiece Hok] Hp [_ _ _ _ _ Hg Hfree].
  pose proof (lookup_lt_Some _ _ _ Hp) as Hlt.
  assert (∀ r c, (∃ j, grid_get (pieceGrid s) r c = Some (Some j) ∧ j ≠ this)
               ↔ (∃ j, grid_get (pieceGrid b) r c = Some (Some j) ∧ j ≠ this)) as H.
  { intros r c. rewrite Hg. destruct (occupies q r c) eqn:Eq.
    - destruct (Hfree r c Eq) as [_ Hown]. split.
      + intros (j & [= <-] & Hne). done.
      + intros (j & Hj & Hne). by apply Hown in Hj.
    - destruct (occupies p r c) eqn:Ep; [|done]. split.
      + intros (j & [=] & _).
      + intros (j & Hj & Hne). rewrite (Hpiece this p Hlt Hp r c Ep) in Hj. congruence. }
  unfold blocked. split; intros (sr & sc & Ht & Hbad); exists sr, sc; (split; [done|]);
    (destruct Hbad as [?|Hbad]; [by left|right]); by apply H.
Qed.

Lemma settle_lands_aux i fuel b p :
  consistent b → pieces b !! i = Some p →
  ∀ n s r c,
    0 <= n → consistent s →
    displaced b i p (set_anchor (row p + n) (col p) p) s →
    pieces s !! i = Some (set_anchor (row p + n) (col p) p) →
    (∀ k, 1 <= k <= n → ¬ blocked i (row p + k) (col p) (tileGrid p) b) →
    occupies (set_anchor (row p + n) (col p) p) r c = true →
    (Z.to_nat (NUM_ROWS - r) ≤ fuel)%nat →
    ∃ m s', n <= m ∧ settle fuel i s = Some s' ∧ consistent s'
            ∧ displaced b i p (set_anchor (row p + m) (col p) p) s'
            ∧ (∀ k, 1 <= k <= m → ¬ blocked i (row p + k) (col p) (tileGrid p) b)
            ∧ blocked i (row p + m + 1) (col p) (tileGrid p) b.
Proof.
  intros Hc Hp. induction fuel as [|fuel IH]; intros n s r c Hn Hcs Hd Hq Hfree Ho Hfuel.
  - pose proof Hcs as [_ _ _ Hok]. destruct (Hok i _ Hq) as [Hin _].
    apply Hin in Ho as [Hr _]. unfold NUM_ROWS in *. lia.
  - set (q := set_anchor (row p + n) (col p) p) in *.
    pose proof Hcs as [Hwf _ _ Hok]. destruct (Hok i q Hq) as [Hin _].
    assert (dest_row DOWN q = row p + (n + 1) ∧ dest_col DOWN q = col p) as [Er Ec].
    { destruct (dest_DOWN q) as [-> ->]. subst q. cbn [row col set_anchor]. lia. }
    cbn [settle].
    destruct (moveTo_total i (dest_row DOWN q) (dest_col DOWN q) (tileGrid q) s q
                Hwf Hq Hin) as [Hbl|Hnb].
    + rewrite (move_blocked i DOWN s q Hwf Hq Hbl). rewrite option_bind_Some.
      exists n, s. split; [lia|]. split; [done|]. split; [done|]. split; [done|].
      split; [done|]. rewrite Er, Ec in Hbl.
      apply (displaced_blocked b i p q s) in Hbl; [|done..].
      by replace (row p + n + 1) with (row p + (n + 1)) by lia.
    + destruct (move_displaces b i p q s DOWN Hc Hp Hcs Hd Hq Hnb)
        as (s1 & -> & Hc1 & Hd1 & Hq1). rewrite option_bind_Some.
      rewrite Er, Ec in Hd1, Hq1, Hnb.
      change (set_anchor (row p + (n + 1)) (col p) q)
        with (set_anchor (row p + (n + 1)) (col p) p) in Hd1, Hq1.
      destruct (IH (n + 1) s1 (r + 1) c) as (m & s' & Hm & Hs & Hc' & Hd' & Hfree' & Hbl');
        try done; [lia| | | |].
      * intros k Hk. destruct (decide (k = n + 1)) as [->|Hne]; [|apply Hfree; lia].
        intros Hb. apply Hnb. by apply (displaced_blocked b i p q s).
      * rewrite occupies_set_anchor. subst q. rewrite occupies_set_anchor in Ho.
        rewrite <- (covers_shift _ _ _ _ _ 1 0) in Ho.
        replace (row p + n + 1) with (row p + (n + 1)) in Ho by lia.
        by replace (col p + 0) with (col p) in Ho by lia;
           replace (c + 0) with c in Ho by lia.
      * apply Hin in Ho as [Hr _]. unfold NUM_ROWS in *. lia.
      * exists m, s'. split; [lia|]. done.
Qed.

Lemma set_anchor_id p : set_anchor (row p) (col p) p = p.
Proof. by destruct p. Qed.

(** The loop [while (!piece.move(Direction::DOWN, *this)) {}]. *)
Lemma settle_lands fuel i b p :
  consistent b → pieces b !! i = Some p → (Z.to_nat NUM_ROWS ≤ fuel)%nat →
  ∃ n b', 0 <= n < NUM_ROWS ∧ settle fuel i b = Some b' ∧ consistent b'
          ∧ displaced b i p (set_anchor (row p + n) (col p) p) b'
          ∧ (∀ k, 1 <= k <= n → ¬ blocked i (row p + k) (col p) (tileGrid p) b)
          ∧ blocked i (row p + n + 1) (col p) (tileGrid p) b.
Proof.
  intros Hc Hp Hfuel. pose proof Hc as [_ _ _ Hok].
  destruct (Hok i p Hp) as [Hin (r & c & Ho)].
  assert (set_anchor (row p + 0) (col p) p = p) as E0.
  { replace (row p + 0) with (row p) by lia. apply set_anchor_id. }
  destruct (settle_lands_aux i fuel b p Hc Hp 0 b r c)
    as (m & s' & Hm & Hs & Hc' & Hd' & Hfree' & Hbl'); try done.
  - rewrite E0. by apply displaced_refl.
  - by rewrite E0.
  - intros k Hk. lia.
  - by rewrite E0.
  - apply Hin in Ho as [Hr _]. unfold NUM_ROWS in *. lia.
  - exists m, s'. split; [|done]. split; [lia|].
    pose proof Ho as Ho'. apply covers_spec in Ho' as (sr & sc & Ht & -> & ->).
    destruct (dsp_free _ _ _ _ _ Hd' (row p + m + sr) (col p + sc)) as [[Hr' _] _].
    { rewrite occupies_set_anchor. by apply covers_tile. }
    apply Hin in Ho as [Hr _]. lia.
Qed.

(** A call of [Board::update] that returns false leaves [activePiece] past the
    end of the vector. *)
Lemma update_false fuel d rd b b' :
  update fuel d rd b = Some (false, b') →
  d = DOWN ∧ activePiece b' = length (pieces b').
Proof.
  rewrite update_unfold. case_bool_decide as Hd.
  - destruct (rotate (activePiece b) b) as [b1|]; [|done]. rewrite !option_bind_Some.
    done.
  - destruct (move (activePiece b) d b) as [[sp b1]|] eqn:Hm; [|done].
    rewrite option_bind_Some. destruct sp; [|done].
    assert (d = DOWN) as ->.
    { unfold move in Hm. destruct (pieces b !! activePiece b) as [p|]; [|done].
      rewrite option_bind_Some in Hm. cbv zeta in Hm.
      destruct (moveTo _ _ _ _ _) as [[mv bx]|]; [|done].
      rewrite option_bind_Some in Hm. injection Hm as Hm _.
      apply andb_true_iff in Hm as [_ Hm]. by apply bool_decide_eq_true_1 in Hm. }
    destruct (collapseFullRows fuel b1) as [b2|]; [|done]. rewrite option_bind_Some.
    unfold spawn. cbv zeta.
    destruct (emplace_back_spec rd b2) as (Hps & Ha & _).
    destruct (pieces (emplace_back rd b2) !! activePiece (emplace_back rd b2))
      as [p|]; [|done]. rewrite option_bind_Some.
    destruct (moveTo _ _ _ _ _) as [[placed b4]|] eqn:Hmv; [|done].
    rewrite option_bind_Some. destruct placed; [done|]. cbn [negb].
    destruct (moveTo_frame _ _ _ _ _ _ _ Hmv) as (_ & _ & _ & Hsame & _).
    rewrite (Hsame eq_refl). intros [= <-]. split; [done|].
    change (activePiece (emplace_back rd b2)
            = length (removelast (pieces (emplace_back rd b2)))).
    by rewrite Ha, Hps, removelast_last.
Qed.

Lemma update_past_the_end fuel d rd b :
  activePiece b = length (pieces b) → update fuel d rd b = None.
Proof.
  intros Ha. rewrite update_unfold.
  assert (pieces b !! activePiece b = None) as Hn by (apply lookup_ge_None_2; lia).
  case_bool_decide.
  - unfold rotate. by rewrite Hn.
  - unfold move. by rewrite Hn.
Qed.

(** A sequence of commands that ends on a call that returns false. *)
Lemma updates_false fuel cmds b b' :
  updates fuel cmds b = Some (false, b') →
  activePiece b' = length (pieces b')
  ∧ ∀ fuel' d rd, update fuel' d rd b' = None.
Proof.
  revert b. induction cmds as [|[d rd] cmds IH]; intros b; cbn [updates]; [done|].
  destruct (update fuel d rd b) as [[ok b1]|] eqn:Hup; [|done].
  rewrite option_bind_Some. destruct ok; [by apply IH|]. intros [= <-].
  destruct (update_false _ _ _ _ _ Hup) as [_ Ha]. split; [done|].
  intros fuel' d' rd'. by apply update_past_the_end.
Qed.

(** ** The boards of a game *)

Lemma consistent_pieces_ok b : consistent b → Forall piece_ok (pieces b).
Proof. intros [_ _ _ Hok]. apply Forall_lookup_2. intros i p Hp. by apply (Hok i). Qed.

Lemma consistent_length b :
  consistent b → (length (pieces b) ≤ Z.to_nat (NUM_ROWS * NUM_COLS))%nat.
Proof.
  intros Hc. pose proof (length_pieces_le b Hc). pose proof (tiles_on_le b Hc). lia.
Qed.

Lemma emplace_back_colorIndex rd b :
  (colorIndex (emplace_back rd b) < length DEFAULT_COLORS)%nat.
Proof.
  unfold emplace_back, Piece_ctor. cbn [colorIndex set_activePiece set_colorIndex].
  apply Nat.mod_upper_bound. done.
Qed.

(** [colorIndex] stays an index of [DEFAULT_COLORS]. *)
Lemma update_colorIndex fuel d rd b ok b' :
  Inv b → (Z.to_nat NUM_ROWS ≤ fuel)%nat →
  update fuel d rd b = Some (ok, b') →
  (colorIndex b < length DEFAULT_COLORS)%nat →
  (colorIndex b' < length DEFAULT_COLORS)%nat.
Proof.
  intros [Hc Hact] Hfuel Hup Hci. destruct (lookup_lt_is_Some_2 _ _ Hact) as [p Hp].
  revert Hup. rewrite update_unfold. case_bool_decide as Hd.
  - destruct (rotate (activePiece b) b) as [b1|] eqn:Hr; [|done].
    rewrite !option_bind_Some. intros [= <- <-].
    destruct (rotate_frame _ _ _ Hr) as (_ & _ & -> & _). done.
  - destruct (move (activePiece b) d b) as [[[|] b1]|] eqn:Hm;
      rewrite ?option_bind_Some; [| |done].
    + pose proof Hc as [Hwf _ _ Hok]. destruct (Hok _ p Hp) as [Hin _].
      destruct (move_true_blocked _ _ _ _ p Hwf Hp Hin Hm) as (_ & -> & _).
      destruct (collapseFullRows_count fuel b Hc Hfuel) as (b2 & -> & Hc2 & _).
      rewrite option_bind_Some.
      destruct (spawn_spec rd b2 Hc2) as [Hsb Hsf].
      destruct (moveTo_total (activePiece (emplace_back rd b2)) 0 0
                  (tileGrid (Piece_ctor rd (colorIndex b2)).1) (emplace_back rd b2)
                  (Piece_ctor rd (colorIndex b2)).1) as [Hbl'|Hnb'].
      { apply (reg_wf _ _ (emplace_back_registered rd b2 Hc2)). }
      { destruct (emplace_back_spec rd b2) as (-> & -> & _).
        by apply list_lookup_middle. }
      { apply Piece_ctor_ok. }
      * rewrite (Hsb Hbl'). intros [= <- <-]. apply (emplace_back_colorIndex rd b2).
      * destruct (Hsf Hnb') as (g' & -> & _). intros [= <- <-].
        apply (emplace_back_colorIndex rd b2).
    + intros [= <- <-]. destruct (move_frame _ _ _ _ _ Hm) as (_ & _ & -> & _). done.
Qed.

Lemma first_update_colorIndex fuel d rd rd' b' ok :
  update fuel d rd' (Board_ctor rd) = Some (ok, b') →
  (colorIndex b' < length DEFAULT_COLORS)%nat.
Proof.
  rewrite (Board_ctor_draw rd).
  pose proof (Nat.mod_upper_bound rd NUM_DEFAULT_PIECES) as Hlt.
  destruct (rd mod NUM_DEFAULT_PIECES)%nat as [|[|[|[|[|n]]]]];
    [| | | | |unfold NUM_DEFAULT_PIECES in Hlt; lia];
    destruct d; intros H; vm_compute in H; injection H as <- <-; vm_compute; lia.
Qed.

Lemma Board_ctor_count rd :
  tiles_on (Board_ctor rd) = 4%nat ∧ rowsCompleted (Board_ctor rd) = 0.
Proof.
  split; [|done]. unfold tiles_on, Board_ctor. cbn [pieces sum_list_with Piece_ctor].
  pose proof (Piece_ctor_tiles rd 0) as H. cbn [Piece_ctor fst] in H. by rewrite H.
Qed.

(** The counts along a sequence of calls of [Board::update]. *)
Lemma updates_count fuel rd :
  (Z.to_nat NUM_ROWS ≤ fuel)%nat →
  ∀ cmds b0 ok b,
    Inv b0 ∨ b0 = Board_ctor rd →
    updates fuel cmds b0 = Some (ok, b) →
    rowsCompleted b0 <= rowsCompleted b
    ∧ (pieces_entered fuel cmds b0 ≤ length cmds)%nat
    ∧ Z.of_nat (tiles_on b) + NUM_COLS * rowsCompleted b
      = Z.of_nat (tiles_on b0) + NUM_COLS * rowsCompleted b0
        + 4 * Z.of_nat (pieces_entered fuel cmds b0).
Proof.
  intros Hfuel. induction cmds as [|[d rd'] cmds IH]; intros b0 ok b Hb0;
    cbn [updates pieces_entered].
  - intros [= _ <-]. cbn [length]. lia.
  - destruct (update fuel d rd' b0) as [[ok1 b1]|] eqn:Hup; [|done].
    rewrite option_bind_Some.
    assert (rowsCompleted b0 <= rowsCompleted b1
            ∧ Z.of_nat (tiles_on b1) + NUM_COLS * rowsCompleted b1
              = Z.of_nat (tiles_on b0) + NUM_COLS * rowsCompleted b0
                + 4 * Z.of_nat (if spawns fuel d rd' b0 then 1 else 0))
      as (Hr1 & Ht1).
    { destruct Hb0 as [Hinv| ->]; [by apply (update_count fuel d rd' b0 ok1)|].
      destruct (first_update_count _ _ _ _ _ _ Hup) as (-> & -> & ->).
      destruct (Board_ctor_count rd) as [-> ->]. lia. }
    assert (ok1 = true → Inv b1 ∨ b1 = Board_ctor rd) as Hb1.
    { intros ->. destruct Hb0 as [Hinv| ->].
      - destruct (update_Inv fuel d rd' b0 Hinv Hfuel) as (ok' & b1' & Hup' & _ & Hi).
        rewrite Hup in Hup'. injection Hup' as <- <-. left. by apply Hi.
      - destruct (first_update fuel d rd rd') as (b1' & Hup' & Hb1).
        rewrite Hup in Hup'. by injection Hup' as <-. }
    destruct ok1.
    + intros Hrest. destruct (IH b1 ok b (Hb1 eq_refl) Hrest) as (Hr & Hk & Ht).
      cbn [length]. destruct (spawns fuel d rd' b0); lia.
    + intros [= _ <-]. cbn [length].
      assert (spawns fuel d rd' b0 = false) as E; [|rewrite E in Ht1; lia].
      unfold spawns. rewrite Hup. by destruct (if bool_decide (d = UP) then _ else _)
        as [[[|] ?]|].
Qed.

(** ** The fall of the active piece *)

(** The loop [while (!piece.move(Direction::DOWN, *this)) {}] on the active
    piece is a sequence of DOWN commands that are accepted. *)
Lemma settle_as_updates fuel' fuel rd :
  ∀ b b',
    settle fuel' (activePiece b) b = Some b' →
    ∃ n, (n < fuel')%nat
         ∧ updates fuel (replicate n (DOWN, rd)) b = Some (true, b')
         ∧ activePiece b' = activePiece b
         ∧ move (activePiece b') DOWN b' = Some (true, b').
Proof.
  induction fuel' as [|fuel' IH]; intros b b'; [done|]. cbn [settle].
  destruct (move (activePiece b) DOWN b) as [[stopped b1]|] eqn:Hm; [|done].
  rewrite option_bind_Some. destruct stopped.
  - intros [= <-].
    assert (b1 = b) as ->.
    { revert Hm. unfold move. destruct (pieces b !! activePiece b) as [p|]; [|done].
      rewrite option_bind_Some. cbv zeta.
      destruct (moveTo _ _ _ _ _) as [[moved bx]|] eqn:Hmv; [|done].
      rewrite option_bind_Some. intros [= Hs <-]. destruct moved; [done|].
      by destruct (moveTo_frame _ _ _ _ _ _ _ Hmv) as (_ & _ & _ & -> & _). }
    exists 0%nat. split; [lia|]. done.
  - intros Hs. destruct (move_frame _ _ _ _ _ Hm) as (Ha & _).
    rewrite <- Ha in Hs. destruct (IH b1 b' Hs) as (n & Hn & Hup & Ha' & Hmv').
    exists (S n). split; [lia|]. split; [|split; [congruence|done]].
    cbn [replicate updates]. rewrite update_unfold, bool_decide_false by done.
    by rewrite Hm, !option_bind_Some.
Qed.

(** ** Painting: geometry *)

Lemma in_rect_tile_rect r c px py :
  in_rect (tile_rect r c) px py = true ↔
  START_X_PIXELS + c * TILE_WIDTH <= px < START_X_PIXELS + (c + 1) * TILE_WIDTH
  ∧ START_Y_PIXELS + r * TILE_HEIGHT <= py < START_Y_PIXELS + (r + 1) * TILE_HEIGHT.
Proof.
  unfold in_rect, tile_rect. cbn [rect_x rect_y rect_w rect_h].
  rewrite !andb_true_iff, !Z.leb_le, !Z.ltb_lt. lia.
Qed.

(** The rectangles of two cells do not overlap. *)
Lemma tile_rect_inj r c r' c' px py :
  in_rect (tile_rect r c) px py = true → in_rect (tile_rect r' c') px py = true →
  r' = r ∧ c' = c.
Proof.
  rewrite !in_rect_tile_rect. unfold TILE_WIDTH, TILE_HEIGHT. lia.
Qed.

(** The rectangle of a cell of the board is inside the output and inside
    the border. *)
Lemma tile_rect_on_screen r c px py :
  in_bounds r c → in_rect (tile_rect r c) px py = true →
  on_screen px py = true ∧ on_outline outlineRect px py = false
  ∧ in_rect outlineRect px py = true.
Proof.
  intros [Hr Hc]. rewrite in_rect_tile_rect. intros [Hx Hy].
  assert (START_X_PIXELS = 106) as Ex by reflexivity.
  assert (START_Y_PIXELS = 80) as Ey by reflexivity.
  unfold on_screen, on_outline, in_rect, outlineRect.
  cbn [rect_x rect_y rect_w rect_h].
  unfold BOARD_WIDTH_PIXELS, BOARD_HEIGHT_PIXELS, SCREEN_WIDTH, SCREEN_HEIGHT,
    TILE_WIDTH, TILE_HEIGHT, NUM_ROWS, NUM_COLS in *. rewrite Ex, Ey in *.
  split; [|split].
  - rewrite !andb_true_iff, !Z.leb_le, !Z.ltb_lt. lia.
  - apply andb_false_iff. right. rewrite !orb_false_iff, !Z.eqb_neq. lia.
  - rewrite !andb_true_iff, !Z.leb_le, !Z.ltb_lt. lia.
Qed.

(** The rectangles of the cells of the board fill the inside of the border. *)
Lemma inside_the_border px py :
  in_rect outlineRect px py = true → on_outline outlineRect px py = false →
  ∃ r c, in_bounds r c ∧ in_rect (tile_rect r c) px py = true.
Proof.
  assert (START_X_PIXELS = 106) as Ex by reflexivity.
  assert (START_Y_PIXELS = 80) as Ey by reflexivity.
  unfold on_outline. intros Hin. rewrite Hin, andb_true_l. revert Hin.
  unfold in_rect, outlineRect. cbn [rect_x rect_y rect_w rect_h].
  unfold BOARD_WIDTH_PIXELS, BOARD_HEIGHT_PIXELS, TILE_WIDTH, TILE_HEIGHT,
    NUM_ROWS, NUM_COLS. rewrite Ex, Ey.
  rewrite !andb_true_iff, !orb_false_iff, !Z.leb_le, !Z.ltb_lt, !Z.eqb_neq.
  intros Hin Hout. exists ((py - 80) `div` 10), ((px - 106) `div` 10).
  pose proof (Z.div_mod (py - 80) 10). pose proof (Z.mod_pos_bound (py - 80) 10).
  pose proof (Z.div_mod (px - 106) 10). pose proof (Z.mod_pos_bound (px - 106) 10).
  split.
  - unfold in_bounds, NUM_ROWS, NUM_COLS. lia.
  - apply in_rect_tile_rect. unfold TILE_WIDTH, TILE_HEIGHT. rewrite Ex, Ey. lia.
Qed.

Lemma on_outline_off_board px py : on_outline outlineRect px py = true → off_board px py.
Proof.
  intros Ho r c Hb. destruct (in_rect (tile_rect r c) px py) eqn:E; [|done].
  destruct (tile_rect_on_screen r c px py Hb E) as (_ & Hno & _). congruence.
Qed.

(** On the rectangle of a cell, [covered] is [occupies]. *)
Lemma covered_cell p r c px py :
  in_rect (tile_rect r c) px py = true → covered p px py = occupies p r c.
Proof.
  intros Hin. unfold covered. destruct (occupies p r c) eqn:Ho.
  - apply existsb_exists. exists (r, c). split; [|done].
    apply list_elem_of_In. by apply occupiedCells_spec.
  - apply not_true_iff_false. intros H. apply existsb_exists in H as ([r' c'] & Hel & Hin').
    apply list_elem_of_In, occupiedCells_spec in Hel. cbn [fst snd] in Hin'.
    destruct (tile_rect_inj _ _ _ _ _ _ Hin Hin') as [-> ->]. congruence.
Qed.

Lemma covered_off_board p px py :
  (∀ r c, occupies p r c = true → in_bounds r c) → off_board px py →
  covered p px py = false.
Proof.
  intros Hin Hoff. apply not_true_iff_false. intros H.
  apply existsb_exists in H as ([r c] & Hel & Hin').
  apply list_elem_of_In, occupiedCells_spec in Hel. cbn [fst snd] in Hin'.
  rewrite (Hoff r c (Hin r c Hel)) in Hin'. done.
Qed.

(** ** Painting: the pieces *)

Lemma drawTile_target color r c rn px py :
  target (drawTile color r c rn) px py =
  if in_rect (tile_rect r c) px py && on_screen px py
  then Some (as_bytes color) else target rn px py.
Proof. reflexivity. Qed.

Lemma drawTile_shown color r c rn : shown (drawTile color r c rn) = shown rn.
Proof. reflexivity. Qed.

Lemma covered_spec p px py :
  covered p px py = true ↔
  ∃ r c, occupies p r c = true ∧ in_rect (tile_rect r c) px py = true.
Proof.
  unfold covered. rewrite existsb_exists. split.
  - intros ([r c] & Hel & Hin). apply list_elem_of_In, occupiedCells_spec in Hel. eauto.
  - intros (r & c & Ho & Hin). exists (r, c). split; [|done].
    by apply list_elem_of_In, occupiedCells_spec.
Qed.

(** [Piece::draw] fills the rectangles of the tiles of the piece with the
    colour. *)
Lemma draw_spec p oc rn :
  (∀ r c, occupies p r c = true → in_bounds r c) →
  ∃ rn', draw p oc rn = Some rn' ∧ shown rn' = shown rn
         ∧ ∀ px py, target rn' px py =
                    if covered p px py then Some (as_bytes (default (color p) oc))
                    else target rn px py.
Proof.
  intros Hin. unfold draw. rewrite loop_state_nested. fold window.
  set (paint := default (color p) oc).
  destruct (loop_state_ind
    (λ k rn', shown rn' = shown rn ∧ ∀ px py,
       (target rn' px py = Some (as_bytes paint)
        ∧ ∃ j rc, (j < k)%nat ∧ window !! j = Some rc
                  ∧ occupies p (row p + rc.1) (col p + rc.2) = true
                  ∧ in_rect (tile_rect (row p + rc.1) (col p + rc.2)) px py = true)
       ∨ (target rn' px py = target rn px py
          ∧ ∀ j rc, (j < k)%nat → window !! j = Some rc →
                    occupies p (row p + rc.1) (col p + rc.2) = true →
                    in_rect (tile_rect (row p + rc.1) (col p + rc.2)) px py = false))
    (λ (rc : Z * Z) rn0,
       t ← tg_get (tileGrid p) rc.1 rc.2;
       if t : bool
       then Some (drawTile paint (row p + rc.1) (col p + rc.2) rn0)
       else Some rn0) window rn) as (rn' & Hrn' & Hsh & Ht).
  { split; [done|]. intros px py. right. split; [done|]. intros j rc Hj. lia. }
  { intros k [sr sc] rn0 Hk [Hsh0 Ht0]. cbn [fst snd].
    pose proof (list_elem_of_lookup_2 _ _ _ Hk) as Hw. apply elem_of_window in Hw.
    destruct (tg_get_is_Some (tileGrid p) sr sc Hw) as [t Et]. rewrite Et.
    rewrite option_bind_Some.
    assert (occupies p (row p + sr) (col p + sc) = t) as Eo.
    { unfold occupies, covers.
      replace (row p + sr - row p) with sr by lia.
      replace (col p + sc - col p) with sc by lia. rewrite Et. by destruct t. }
    destruct t.
    - eexists. split; [done|]. split; [by rewrite drawTile_shown|]. intros px py.
      rewrite drawTile_target.
      destruct (in_rect (tile_rect (row p + sr) (col p + sc)) px py) eqn:Ein.
      + destruct (tile_rect_on_screen _ _ _ _ (Hin _ _ Eo) Ein) as (-> & _).
        cbn [andb]. left. split; [done|]. exists k, (sr, sc). split; [lia|]. done.
      + cbn [andb]. destruct (Ht0 px py) as [(E & j & rc & Hj & ?)|(E & Hno)].
        * left. split; [done|]. exists j, rc. split; [lia|done].
        * right. split; [done|]. intros j rc Hj Hl Ho.
          destruct (decide (j = k)) as [->|Hne].
          -- rewrite Hk in Hl. injection Hl as <-. done.
          -- apply (Hno j rc); [lia|done|done].
    - exists rn0. split; [done|]. split; [done|]. intros px py.
      destruct (Ht0 px py) as [(E & j & rc & Hj & ?)|(E & Hno)].
      + left. split; [done|]. exists j, rc. split; [lia|done].
      + right. split; [done|]. intros j rc Hj Hl Ho.
        destruct (decide (j = k)) as [->|Hne].
        * rewrite Hk in Hl. injection Hl as <-. cbn [fst snd] in Ho. congruence.
        * apply (Hno j rc); [lia|done|done]. }
  exists rn'. split; [done|]. split; [done|]. intros px py.
  destruct (Ht px py) as [(E & j & rc & _ & _ & Ho & Hr)|(E & Hno)].
  - rewrite E. assert (covered p px py = true) as ->; [|done].
    apply covered_spec. eauto.
  - rewrite E. assert (covered p px py = false) as ->; [|done].
    apply not_true_iff_false. intros Hc.
    apply covered_spec in Hc as (r & c & Ho & Hr).
    pose proof Ho as Ho'. apply covers_spec in Ho' as (sr & sc & Et & -> & ->).
    pose proof (tg_get_Some _ _ _ _ Et) as Hw. apply elem_of_window in Hw.
    apply list_elem_of_lookup_1 in Hw as [j Hj].
    pose proof (Hno j (sr, sc) (lookup_lt_Some _ _ _ Hj) Hj Ho) as Hf.
    cbn [fst snd] in Hf. congruence.
Qed.

Lemma as_bytes_BLACK : as_bytes BLACK = BLACK.
Proof. reflexivity. Qed.

(** Painting the piece [a] black hides it. *)
Lemma shows_hide t t' b a p hidden :
  apart (pieces b) → pieces b !! a = Some p →
  hidden = None ∨ hidden = Some a →
  shows t b hidden →
  (∀ px py, t' px py = if covered p px py then Some BLACK else t px py) →
  shows t' b (Some a).
Proof.
  intros Hap Hp Hh Hs Ht' r c px py Hb Hin.
  destruct (Hs r c px py Hb Hin) as [Hcol Hblank].
  rewrite Ht', (covered_cell p r c px py Hin). split.
  - intros i q Hq Hne Ho. assert (i ≠ a) as Hia by congruence.
    assert (occupies p r c = false) as ->.
    { apply not_true_iff_false. intros Hop.
      by apply (apart_lookup _ _ _ _ _ Hap Hq Hp Hia r c). }
    apply (Hcol i q Hq); [|done]. destruct Hh as [->| ->]; congruence.
  - intros Hnone. destruct (occupies p r c) eqn:Hop; [by right|].
    apply Hblank. intros i q Hq Hne. destruct (decide (i = a)) as [->|Hia].
    + congruence.
    + apply (Hnone i q Hq). congruence.
Qed.

(** What is shown with the piece [a] hidden depends on the other pieces
    only. *)
Lemma shows_hidden_ext t b b' a :
  (∀ j, j ≠ a → pieces b' !! j = pieces b !! j) →
  shows t b (Some a) → shows t b' (Some a).
Proof.
  intros Hsame Hs r c px py Hb Hin.
  destruct (Hs r c px py Hb Hin) as [Hcol Hblank]. split.
  - intros i q Hq Hne Ho. assert (i ≠ a) as Hia by congruence.
    rewrite (Hsame i Hia) in Hq. by apply (Hcol i q).
  - intros Hnone. apply Hblank. intros i q Hq Hne.
    assert (i ≠ a) as Hia by congruence.
    rewrite <- (Hsame i Hia) in Hq. by apply (Hnone i q).
Qed.

(** Painting the hidden piece shows it. *)
Lemma shows_reveal t t' b a p :
  apart (pieces b) → pieces b !! a = Some p →
  shows t b (Some a) →
  (∀ px py, t' px py = if covered p px py then Some (as_bytes (color p))
                       else t px py) →
  shows t' b None.
Proof.
  intros Hap Hp Hs Ht' r c px py Hb Hin.
  destruct (Hs r c px py Hb Hin) as [Hcol Hblank].
  rewrite Ht', (covered_cell p r c px py Hin). split.
  - intros i q Hq _ Ho. destruct (decide (i = a)) as [->|Hia].
    + rewrite Hp in Hq. injection Hq as <-. by rewrite Ho.
    + assert (occupies p r c = false) as ->.
      { apply not_true_iff_false. intros Hop.
        by apply (apart_lookup _ _ _ _ _ Hap Hq Hp Hia r c). }
      apply (Hcol i q Hq); [congruence|done].
  - intros Hnone. rewrite (Hnone a p Hp) by done.
    apply Hblank. intros i q Hq _. by apply (Hnone i q).
Qed.

(** A picture that shows the board shows it with a piece more whose cells
    are blank, that piece hidden. *)
Lemma shows_None_Some t b a :
  pieces b !! a = None → shows t b None → shows t b (Some a).
Proof.
  intros Ha Hs r c px py Hb Hin. destruct (Hs r c px py Hb Hin) as [Hcol Hblank].
  split.
  - intros i q Hq _ Ho. by apply (Hcol i q).
  - intros Hnone. apply Hblank. intros i q Hq _. apply (Hnone i q Hq).
    intros [= ->]. congruence.
Qed.

(** ** Painting: the board is the one of the core *)

Lemma draw_total p oc rn : is_Some (draw p oc rn).
Proof.
  unfold draw. rewrite loop_state_nested. fold window.
  match goal with |- is_Some (loop_state ?f _ _) =>
    destruct (loop_state_ind (λ _ _, True) f window rn) as (rn' & -> & _) end; [done| |done].
  intros k [sr sc] rn0 Hk _. cbn [fst snd].
  pose proof (list_elem_of_lookup_2 _ _ _ Hk) as Hw. apply elem_of_window in Hw.
  destruct (tg_get_is_Some (tileGrid p) sr sc Hw) as [t ->]. rewrite option_bind_Some.
  destruct t; eauto.
Qed.

Lemma loop_state_fst {I S R} (f : I → S → option S) (g : I → S * R → option (S * R))
    (ixs : list I) (s : S * R) :
  (∀ i s0, fst <$> g i s0 = f i s0.1) →
  fst <$> loop_state g ixs s = loop_state f ixs s.1.
Proof.
  intros H. revert s. induction ixs as [|i ixs IH]; intros s; [done|].
  cbn [loop_state]. specialize (H i s). destruct (g i s) as [s1|].
  - cbn in H. rewrite <- H. cbn [mbind option_bind]. apply IH.
  - cbn in H. rewrite <- H. done.
Qed.

Lemma removeTile_painted_piece p bg r c rn :
  fst <$> removeTile_painted p bg r c rn = removeTile p r c.
Proof.
  unfold removeTile_painted, removeTile. cbv zeta.
  destruct (tg_get (tileGrid p) (r - row p) (c - col p)) as [[|]|]; [|done|done].
  rewrite !option_bind_Some. cbn [negb].
  by destruct (tg_set (tileGrid p) (r - row p) (c - col p) false).
Qed.

Lemma clear_cell_painted_board r c s :
  fst <$> clear_cell_painted r c s = clear_cell r c s.1.
Proof.
  destruct s as [b rn]. unfold clear_cell_painted, clear_cell. cbn [fst].
  destruct (grid_get (pieceGrid b) r c) as [[i|]|]; [|done|done].
  rewrite !option_bind_Some. destruct (pieces b !! i) as [p|]; [|done].
  rewrite !option_bind_Some. pose proof (removeTile_painted_piece p BLACK r c rn) as H.
  destruct (removeTile_painted p BLACK r c rn) as [[p' rn1]|]; cbn in H; rewrite <- H;
    [|done].
  rewrite !option_bind_Some. by destruct (grid_set (pieceGrid b) r c None).
Qed.

Lemma settle_length fuel i b b' :
  settle fuel i b = Some b' → length (pieces b') = length (pieces b).
Proof.
  intros H. destruct (settle_frame _ _ _ _ H) as (_ & _ & _ & Ht & _).
  by rewrite <- (length_fmap tileGrid (pieces b')), Ht, length_fmap.
Qed.

Lemma settle_None fuel i b : pieces b !! i = None → settle fuel i b = None.
Proof. intros H. destruct fuel; [done|]. cbn [settle]. unfold move. by rewrite H. Qed.

Lemma fall_painted_board fuel i s :
  fst <$> fall_painted fuel i s = settle fuel i s.1.
Proof.
  destruct s as [b rn]. unfold fall_painted. cbn [fst].
  destruct (pieces b !! i) as [p|] eqn:Hp; [|by rewrite settle_None].
  rewrite option_bind_Some. destruct (draw_total p (Some BLACK) rn) as [rn1 ->].
  rewrite option_bind_Some. destruct (settle fuel i b) as [b1|] eqn:Hs; [|done].
  rewrite option_bind_Some.
  destruct (lookup_lt_is_Some_2 (pieces b1) i) as [p1 ->].
  { rewrite (settle_length _ _ _ _ Hs). by eapply lookup_lt_Some. }
  rewrite option_bind_Some. destruct (draw_total p1 None rn1) as [rn2 ->]. done.
Qed.

Lemma collapse_row_painted_board fuel r s :
  fst <$> collapse_row_painted fuel r s = collapse_row fuel r s.1.
Proof.
  destruct s as [b rn]. unfold collapse_row_painted, collapse_row. cbn [fst].
  destruct (isRowFull r b) as [[full b1]|]; [|done]. rewrite !option_bind_Some.
  destruct full; cbn [negb]; [|done].
  pose proof (loop_state_fst (clear_cell r) (clear_cell_painted r) (seqZ 0 NUM_COLS)
                (b1, rn) (clear_cell_painted_board r)) as H1. cbn [fst] in H1.
  destruct (loop_state (clear_cell_painted r) (seqZ 0 NUM_COLS) (b1, rn)) as [[b2 rn2]|];
    cbn in H1; rewrite <- H1; [|done].
  rewrite !option_bind_Some.
  destruct (erase_remove_if no_tile_left (pieces b2)) as [ps|]; [|done].
  rewrite !option_bind_Some. cbv zeta.
  destruct (loop_state replace_piece _ _) as [b4|]; [|done].
  rewrite !option_bind_Some.
  apply (loop_state_fst (settle fuel) (fall_painted fuel) _ (b4, rn2)
           (fall_painted_board fuel)).
Qed.

Lemma collapseFullRows_painted_board fuel s :
  fst <$> collapseFullRows_painted fuel s = collapseFullRows fuel s.1.
Proof. apply loop_state_fst. apply collapse_row_painted_board. Qed.

(** [Board::update] with the painting does to the board what [update]
    does. *)
Lemma update_painted_board fuel d rd s :
  (λ r : bool * (Board * Renderer), (r.1, r.2.1)) <$> update_painted fuel d rd s
  = update fuel d rd s.1.
Proof.
  destruct s as [b rn]. unfold update_painted. rewrite update_unfold. cbn [fst].
  destruct (pieces b !! activePiece b) as [p|] eqn:Hp.
  2:{ cbn [mbind option_bind fmap option_fmap option_map].
      case_bool_decide; [unfold rotate|unfold move]; by rewrite Hp. }
  rewrite option_bind_Some. destruct (draw_total p (Some BLACK) rn) as [rn1 ->].
  rewrite option_bind_Some.
  set (m := if bool_decide (d = UP)
            then b' ← rotate (activePiece b) b; Some (false, b')
            else move (activePiece b) d b).
  assert (∀ sp b1, m = Some (sp, b1) →
            activePiece b1 = activePiece b ∧ length (pieces b1) = length (pieces b))
    as Hm.
  { intros sp b1. unfold m. case_bool_decide.
    - destruct (rotate (activePiece b) b) as [bx|] eqn:Hr; [|done].
      rewrite option_bind_Some. intros [= _ <-].
      by destruct (rotate_frame _ _ _ Hr) as (-> & _ & _ & -> & _).
    - intros Hmv. destruct (move_frame _ _ _ _ _ Hmv) as (-> & _ & _ & Ht & _).
      split; [done|].
      by rewrite <- (length_fmap tileGrid (pieces b1)), Ht, length_fmap. }
  destruct m as [[sp b1]|]; [|done]. rewrite !option_bind_Some.
  destruct (Hm sp b1 eq_refl) as [Ha Hl].
  destruct (lookup_lt_is_Some_2 (pieces b1) (activePiece b1)) as [p1 ->].
  { rewrite Ha, Hl. by eapply lookup_lt_Some. }
  rewrite option_bind_Some. destruct (draw_total p1 None rn1) as [rn2 ->].
  rewrite option_bind_Some. destruct sp; [|done].
  pose proof (collapseFullRows_painted_board fuel (b1, rn2)) as Hc. cbn [fst] in Hc.
  destruct (collapseFullRows_painted fuel (b1, rn2)) as [[b2 rn3]|]; cbn in Hc;
    rewrite <- Hc; [|done].
  rewrite !option_bind_Some. unfold spawn. cbv zeta.
  destruct (pieces (emplace_back rd b2) !! activePiece (emplace_back rd b2)) as [q|];
    [|done].
  rewrite !option_bind_Some.
  destruct (moveTo _ _ _ _ _) as [[placed b4]|]; [|done].
  rewrite !option_bind_Some. by destruct placed.
Qed.

Lemma update_painted_None fuel d rd b rn :
  update fuel d rd b = None → update_painted fuel d rd (b, rn) = None.
Proof.
  intros H. pose proof (update_painted_board fuel d rd (b, rn)) as E.
  cbn [fst] in E. rewrite H in E. by destruct (update_painted fuel d rd (b, rn)).
Qed.

Lemma updates_painted_board fuel cmds s :
  (λ r : bool * (Board * Renderer), (r.1, r.2.1)) <$> updates_painted fuel cmds s
  = updates fuel cmds s.1.
Proof.
  revert s. induction cmds as [|[d rd] cmds IH]; intros s; [done|].
  cbn [updates_painted updates]. pose proof (update_painted_board fuel d rd s) as H.
  destruct (update_painted fuel d rd s) as [[ok s1]|]; cbn in H; rewrite <- H; [|done].
  rewrite !option_bind_Some. destruct ok; [apply IH|done].
Qed.

(** ** Painting: the rows that collapse *)

Lemma painted_from_refl rn : painted_from rn rn.
Proof. done. Qed.

Lemma painted_from_trans rn1 rn2 rn3 :
  painted_from rn1 rn2 → painted_from rn2 rn3 → painted_from rn1 rn3.
Proof.
  intros [Hs1 Ht1] [Hs2 Ht2]. split; [congruence|].
  intros px py Hoff. by rewrite Ht2, Ht1.
Qed.

Lemma drawTile_painted_from color r c rn :
  in_bounds r c → painted_from rn (drawTile color r c rn).
Proof.
  intros Hb. split; [done|]. intros px py Hoff. rewrite drawTile_target.
  by rewrite (Hoff r c Hb).
Qed.

(** [Piece::draw] on a piece that is on the board. *)
Lemma draw_on_board p oc rn :
  (∀ r c, occupies p r c = true → in_bounds r c) →
  ∃ rn', draw p oc rn = Some rn' ∧ painted_from rn rn'
         ∧ ∀ px py, target rn' px py =
                    if covered p px py then Some (as_bytes (default (color p) oc))
                    else target rn px py.
Proof.
  intros Hin. destruct (draw_spec p oc rn Hin) as (rn' & Hd & Hs & Ht).
  exists rn'. split; [done|]. split; [|done]. split; [done|].
  intros px py Hoff. by rewrite Ht, (covered_off_board p px py Hin Hoff).
Qed.

(** What is shown with no piece hidden depends on the tiles only, not on
    the places of the pieces in the vector. *)
Lemma shows_None_elem t b :
  shows t b None ↔
  ∀ r c px py, in_bounds r c → in_rect (tile_rect r c) px py = true →
    (∀ p, p ∈ pieces b → occupies p r c = true → t px py = Some (as_bytes (color p)))
    ∧ ((∀ p, p ∈ pieces b → occupies p r c = false) →
       t px py = None ∨ t px py = Some BLACK).
Proof.
  split; intros Hs r c px py Hb Hin; destruct (Hs r c px py Hb Hin) as [Hcol Hblank];
    split.
  - intros p Hp Ho. apply list_elem_of_lookup_1 in Hp as [i Hi]. by apply (Hcol i p).
  - intros Hnone. apply Hblank. intros i p Hi _. apply Hnone.
    by eapply list_elem_of_lookup_2.
  - intros i p Hi _ Ho. apply Hcol; [|done]. by eapply list_elem_of_lookup_2.
  - intros Hnone. apply Hblank. intros p Hp.
    apply list_elem_of_lookup_1 in Hp as [i Hi]. by apply (Hnone i p).
Qed.

Lemma shows_None_ext t b b' :
  (∀ q r c, occupies q r c = true → q ∈ pieces b' ↔ q ∈ pieces b) →
  shows t b None → shows t b' None.
Proof.
  intros Hsame Hs. apply shows_None_elem. intros r c px py Hb Hin.
  destruct (proj1 (shows_None_elem t b) Hs r c px py Hb Hin) as [Hcol Hblank]. split.
  - intros p Hp Ho. apply Hcol; [|done]. by apply (Hsame p r c Ho).
  - intros Hnone. apply Hblank. intros p Hp.
    destruct (occupies p r c) eqn:Ho; [|done].
    rewrite <- (Hnone p); [done|]. by apply (Hsame p r c Ho).
Qed.

(** [erase_remove_if] keeps the pieces that have a tile. *)
Lemma erase_keeps ps ps' :
  erase_remove_if no_tile_left ps = Some ps' →
  ∀ q, q ∈ ps → (∃ r c, occupies q r c = true) → q ∈ ps'.
Proof.
  revert ps'. induction ps as [|x ps IH]; intros ps'; cbn [erase_remove_if].
  - intros _ q Hq. by apply elem_of_nil in Hq.
  - destruct (no_tile_left_spec x) as (out & -> & Hout). rewrite option_bind_Some.
    destruct (erase_remove_if no_tile_left ps) as [rest|]; [|done].
    rewrite option_bind_Some. intros [= <-] q Hq Htile.
    apply elem_of_cons in Hq as [->|Hq].
    + apply Hout in Htile. subst out. by left.
    + destruct out; [|right]; by apply (IH rest).
Qed.

(** One turn of the loop that empties the row, with the painting. *)
Lemma clear_cell_painted_step r k b rn :
  0 <= r < NUM_ROWS → Z.of_nat k < NUM_COLS → clearing r k b →
  shows (target rn) b None →
  ∃ b' rn', clear_cell_painted r (Z.of_nat k) (b, rn) = Some (b', rn')
            ∧ clearing r (S k) b' ∧ shows (target rn') b' None
            ∧ painted_from rn rn'.
Proof.
  intros Hr Hk Hclr Hs. pose proof Hclr as [Hwf Htodo Hbounds Hapart].
  destruct (clear_cell_step r k b Hr Hk Hclr) as (b' & Hb' & Hclr').
  pose proof (clear_cell_painted_board r (Z.of_nat k) (b, rn)) as Hfst.
  cbn [fst] in Hfst. rewrite Hb' in Hfst.
  destruct (Htodo (Z.of_nat k)) as (i & p & Hcell & Hp & Ho); [lia|].
  assert (in_bounds r (Z.of_nat k)) as Hbk by (unfold in_bounds; lia).
  destruct (removeTile_tile p r (Z.of_nat k) Ho) as (tg & Htg & _ & Hocc).
  assert (clear_cell_painted r (Z.of_nat k) (b, rn)
          = Some (b', drawTile BLACK r (Z.of_nat k) rn)) as Hpaint.
  { revert Hfst. unfold clear_cell_painted. rewrite Hcell, !option_bind_Some, Hp.
    rewrite !option_bind_Some. unfold removeTile_painted. cbv zeta.
    unfold occupies, covers in Ho.
    destruct (tg_get (tileGrid p) (r - row p) (Z.of_nat k - col p)) as [[|]|];
      try discriminate Ho.
    rewrite option_bind_Some. cbn [negb]. rewrite Htg, !option_bind_Some.
    destruct (grid_set (pieceGrid b) r (Z.of_nat k) None) as [g|]; [|done].
    rewrite option_bind_Some. cbn. by intros [= ->]. }
  assert (pieces b' = <[i := set_tileGrid tg p]> (pieces b)) as Hps.
  { revert Hb'. unfold clear_cell. rewrite Hcell, !option_bind_Some, Hp.
    rewrite !option_bind_Some.
    destruct (removeTile_tile p r (Z.of_nat k) Ho) as (tg' & Htg' & -> & _).
    rewrite Htg in Htg'. injection Htg' as <-. rewrite option_bind_Some.
    destruct (grid_set (pieceGrid b) r (Z.of_nat k) None) as [g|]; [|done].
    rewrite option_bind_Some. by intros [= <-]. }
  pose proof (lookup_lt_Some _ _ _ Hp) as Hlt.
  exists b', (drawTile BLACK r (Z.of_nat k) rn). split; [done|]. split; [done|].
  split; [|by apply drawTile_painted_from].
  intros r' c' px py Hb Hin. rewrite drawTile_target.
  destruct (Hs r' c' px py Hb Hin) as [Hcol Hblank].
  destruct (decide (r' = r ∧ c' = Z.of_nat k)) as [[-> ->]|Hne].
  - rewrite Hin. destruct (tile_rect_on_screen _ _ _ _ Hb Hin) as (-> & _).
    cbn [andb]. split; [|by right]. intros j q Hq _ Hoq. exfalso. rewrite Hps in Hq.
    destruct (decide (j = i)) as [->|Hji].
    + rewrite list_lookup_insert_eq in Hq by done. injection Hq as <-.
      rewrite Hocc, decide_True in Hoq by done. done.
    + rewrite list_lookup_insert_ne in Hq by done.
      by apply (apart_lookup _ _ _ _ _ Hapart Hq Hp Hji r (Z.of_nat k)).
  - assert (in_rect (tile_rect r (Z.of_nat k)) px py = false) as ->.
    { apply not_true_iff_false. intros Hin'.
      destruct (tile_rect_inj _ _ _ _ _ _ Hin' Hin) as [-> ->]. by apply Hne. }
    cbn [andb]. split.
    + intros j q Hq _ Hoq. rewrite Hps in Hq.
      destruct (decide (j = i)) as [->|Hji].
      * rewrite list_lookup_insert_eq in Hq by done. injection Hq as <-.
        rewrite Hocc, decide_False in Hoq by done.
        by apply (Hcol i p Hp).
      * rewrite list_lookup_insert_ne in Hq by done. by apply (Hcol j q Hq).
    + intros Hnone. apply Hblank. intros j q Hq _.
      destruct (decide (j = i)) as [->|Hji].
      * rewrite Hp in Hq. injection Hq as <-.
        rewrite <- (Hnone i (set_tileGrid tg p)); [|by rewrite Hps, list_lookup_insert_eq|done].
        by rewrite Hocc, decide_False.
      * apply (Hnone j q); [|done]. by rewrite Hps, list_lookup_insert_ne.
Qed.

(** One turn of the loop that lets the pieces fall, with the painting. *)
Lemma fall_painted_step fuel i b rn :
  consistent b → (i < length (pieces b))%nat → (Z.to_nat NUM_ROWS ≤ fuel)%nat →
  shows (target rn) b None →
  ∃ b' rn', fall_painted fuel i (b, rn) = Some (b', rn')
            ∧ consistent b' ∧ length (pieces b') = length (pieces b)
            ∧ shows (target rn') b' None ∧ painted_from rn rn'.
Proof.
  intros Hc Hi Hfuel Hs. destruct (lookup_lt_is_Some_2 _ _ Hi) as [p Hp].
  pose proof Hc as [_ _ _ Hok]. destruct (Hok i p Hp) as [Hin _].
  unfold fall_painted. rewrite Hp, option_bind_Some.
  destruct (draw_on_board p (Some BLACK) rn Hin) as (rn1 & -> & Hfrom1 & Ht1).
  rewrite option_bind_Some.
  destruct (settle_lands fuel i b p Hc Hp Hfuel)
    as (n & b' & _ & -> & Hc' & Hd' & _).
  rewrite option_bind_Some. pose proof (dsp_pieces _ _ _ _ _ Hd') as Hps.
  set (q := set_anchor (row p + n) (col p) p) in *.
  assert (pieces b' !! i = Some q) as Hq by (rewrite Hps; by apply list_lookup_insert_eq).
  rewrite Hq, option_bind_Some.
  pose proof Hc' as [_ _ _ Hok']. destruct (Hok' i q Hq) as [Hin' _].
  destruct (draw_on_board q None rn1 Hin') as (rn2 & -> & Hfrom2 & Ht2).
  exists b', rn2. split; [done|]. split; [done|].
  split; [by rewrite Hps, length_insert|].
  split; [|by eapply painted_from_trans].
  apply (shows_reveal (target rn1) _ b' i q); [by apply consistent_apart|done| |done].
  apply (shows_hidden_ext _ b).
  - intros j Hj. rewrite Hps. by apply list_lookup_insert_ne.
  - apply (shows_hide (target rn) _ b i p None); [by apply consistent_apart|done| |done|done].
    by left.
Qed.

(** The body of the loop of [Board::collapseFullRows], with the painting. *)
Lemma collapse_row_painted_spec fuel r b rn :
  consistent b → 0 <= r < NUM_ROWS → (Z.to_nat NUM_ROWS ≤ fuel)%nat →
  shows (target rn) b None →
  ∃ b' rn', collapse_row_painted fuel r (b, rn) = Some (b', rn')
            ∧ consistent b' ∧ shows (target rn') b' None ∧ painted_from rn rn'.
Proof.
  intros Hc Hr Hfuel Hs. pose proof Hc as [Hwf Hgrid Hpiece Hok].
  unfold collapse_row_painted.
  destruct (isRowFull_spec r b Hwf Hr) as (full & -> & Hfull).
  rewrite option_bind_Some. destruct full; cbn [negb]; [|by exists b, rn].
  (* the tiles of the row are taken away *)
  destruct (loop_state_ind
              (λ k (s : Board * Renderer),
                 clearing r k s.1 ∧ shows (target s.2) s.1 None ∧ painted_from rn s.2)
              (clear_cell_painted r) (seqZ 0 NUM_COLS)
              (set_rowsCompleted (rowsCompleted b + 1) b, rn))
    as ([b2 rn2] & -> & Hclr & Hs2 & Hfrom2).
  { cbn [fst snd]. split; [|done]. constructor; cbn [pieces pieceGrid set_rowsCompleted].
    - done.
    - intros c Hcol. destruct (proj1 Hfull eq_refl c) as [i Hi]; [lia|].
      destruct (Hgrid r c i Hi) as (_ & p & Hp & Ho). eauto.
    - intros i p Hp. by apply (Hok i p).
    - by apply consistent_apart. }
  { intros k c [s0 rn0] Hk (HQ & Hs0 & Hf0). cbn [fst snd] in *.
    apply lookup_seqZ in Hk as [-> Hk]. rewrite Z.add_0_l.
    destruct (clear_cell_painted_step r k s0 rn0 Hr Hk HQ Hs0)
      as (b' & rn' & -> & Hclr' & Hs' & Hf').
    eexists. split; [done|]. cbn [fst snd]. split; [done|]. split; [done|].
    by eapply painted_from_trans. }
  rewrite option_bind_Some. cbn [fst snd] in *.
  destruct Hclr as [_ _ Hbounds Hapart].
  (* the empty pieces leave the vector *)
  destruct (erase_spec (pieces b2)) as (ps & Hers & Hps & Hap).
  rewrite Hers, option_bind_Some. specialize (Hap Hapart). cbv zeta.
  (* the grid is written again *)
  destruct (loop_state_ind (λ k s, registered k s ∧ pieces s = ps) replace_piece
              (seq 0 (length (pieces (set_pieceGrid GRID_NULL (set_pieces ps b2)))))
              (set_pieceGrid GRID_NULL (set_pieces ps b2)))
    as (b4 & -> & Hreg & Hps4).
  { split; [|done]. constructor; cbn [pieces pieceGrid set_pieces set_pieceGrid].
    - apply GRID_NULL_wf.
    - intros r' c' i Hi.
      pose proof (grid_get_Some _ _ _ _ GRID_NULL_wf Hi) as Hb.
      rewrite (GRID_NULL_get _ _ Hb) in Hi. done.
    - intros i p Hlt. lia.
    - intros i p Hp. apply list_elem_of_lookup_2 in Hp.
      destruct (Hps p Hp) as [Hin Hne]. split; [|done].
      apply list_elem_of_lookup_1 in Hin as [j Hj]. by apply (Hbounds j p). }
  { intros k i s0 Hk [Hreg Hpieces]. apply lookup_seq in Hk as [-> Hk].
    cbn [pieces set_pieces set_pieceGrid] in Hk. rewrite Nat.add_0_l.
    destruct (replace_piece_step k s0 Hreg) as (g' & -> & Hreg').
    { by rewrite Hpieces. } { by rewrite Hpieces. }
    eexists. split; [done|]. split; [done|]. by destruct s0. }
  rewrite option_bind_Some, length_seq in *.
  cbn [pieces set_pieces set_pieceGrid] in Hreg.
  assert (shows (target rn2) b4 None) as Hs4.
  { apply (shows_None_ext _ b2); [|done]. intros q r' c' Ho. rewrite Hps4. split.
    - intros Hq. by apply Hps.
    - intros Hq. apply (erase_keeps _ _ Hers); eauto. }
  (* the pieces fall, one after the other *)
  destruct (loop_state_ind
              (λ (k : nat) (s : Board * Renderer),
                 consistent s.1 ∧ length (pieces s.1) = length (pieces b4)
                 ∧ shows (target s.2) s.1 None ∧ painted_from rn2 s.2)
              (fall_painted fuel) (seq 0 (length (pieces b4))) (b4, rn2))
    as ([b5 rn5] & -> & Hc5 & _ & Hs5 & Hfrom5).
  { cbn [fst snd]. split; [|done]. unfold consistent. by rewrite Hps4. }
  { intros k i [s0 rn0] Hk (Hcs & Hlen & Hs0 & Hf0). cbn [fst snd] in *.
    apply lookup_seq in Hk as [-> Hk]. rewrite Nat.add_0_l.
    destruct (fall_painted_step fuel k s0 rn0 Hcs) as (s1 & rn1 & -> & Hc1 & Hlen1 & Hs1 & Hf1);
      [lia|done|done|].
    eexists. split; [done|]. cbn [fst snd]. split; [done|]. split; [congruence|].
    split; [done|]. by eapply painted_from_trans. }
  cbn [fst snd] in *. exists b5, rn5. split; [done|]. split; [done|]. split; [done|].
  by eapply painted_from_trans.
Qed.

(** [Board::collapseFullRows], with the painting. *)
Lemma collapseFullRows_painted_spec fuel b rn :
  consistent b → (Z.to_nat NUM_ROWS ≤ fuel)%nat → shows (target rn) b None →
  ∃ b' rn', collapseFullRows_painted fuel (b, rn) = Some (b', rn')
            ∧ collapseFullRows fuel b = Some b'
            ∧ consistent b' ∧ shows (target rn') b' None ∧ painted_from rn rn'.
Proof.
  intros Hc Hfuel Hs. unfold collapseFullRows_painted.
  destruct (loop_state_ind
              (λ (_ : nat) (s : Board * Renderer),
                 consistent s.1 ∧ shows (target s.2) s.1 None ∧ painted_from rn s.2)
              (collapse_row_painted fuel) (seqZ 0 NUM_ROWS) (b, rn))
    as ([b' rn'] & Hb' & Hc' & Hs' & Hf'); [done| |].
  { intros k r [s0 rn0] Hk (Hcs & Hs0 & Hf0). cbn [fst snd] in *.
    apply lookup_seqZ in Hk as [-> Hk].
    destruct (collapse_row_painted_spec fuel (0 + Z.of_nat k) s0 rn0 Hcs)
      as (s1 & rn1 & -> & Hc1 & Hs1 & Hf1); [lia|done|done|].
    eexists. split; [done|]. cbn [fst snd]. split; [done|]. split; [done|].
    by eapply painted_from_trans. }
  exists b', rn'. split; [done|]. split; [|done].
  pose proof (collapseFullRows_painted_board fuel (b, rn)) as H.
  unfold collapseFullRows_painted in H. rewrite Hb' in H. cbn in H. done.
Qed.

(** ** Painting: a call of update *)

(** What [Piece::rotate] and [Piece::move] leave as it is. *)
Lemma steer_frame d b sp b1 :
  (if bool_decide (d = UP)
   then b' ← rotate (activePiece b) b; Some (false, b')
   else move (activePiece b) d b) = Some (sp, b1) →
  activePiece b1 = activePiece b
  ∧ color <$> pieces b1 = color <$> pieces b
  ∧ ∀ j, j ≠ activePiece b → pieces b1 !! j = pieces b !! j.
Proof.
  case_bool_decide.
  - destruct (rotate (activePiece b) b) as [bx|] eqn:Hr; [|done].
    rewrite option_bind_Some. intros [= _ <-].
    by destruct (rotate_frame _ _ _ Hr) as (-> & _ & _ & _ & -> & _ & _ & ?).
  - intros Hmv. by destruct (move_frame _ _ _ _ _ Hmv) as (-> & _ & _ & _ & -> & ?).
Qed.

(** A call of [Board::update] that does not spawn: the active piece is
    painted over where it was and painted where it is. *)
Lemma update_painted_no_spawn fuel d rd b rn p b1 hidden :
  pieces b !! activePiece b = Some p →
  apart (pieces b) → (∀ r c, occupies p r c = true → in_bounds r c) →
  (if bool_decide (d = UP)
   then b' ← rotate (activePiece b) b; Some (false, b')
   else move (activePiece b) d b) = Some (false, b1) →
  apart (pieces b1) →
  (∀ q, pieces b1 !! activePiece b = Some q →
        ∀ r c, occupies q r c = true → in_bounds r c) →
  hidden = None ∨ hidden = Some (activePiece b) →
  shows (target rn) b hidden →
  ∃ rn', update_painted fuel d rd (b, rn) = Some (true, (b1, rn'))
         ∧ shown rn' = target rn'
         ∧ shows (target rn') b1 None
         ∧ ∀ px py, off_board px py → target rn' px py = target rn px py.
Proof.
  intros Hp Hap Hin Hm Hap1 Hin1 Hh Hs.
  destruct (steer_frame _ _ _ _ Hm) as (Ha & Hcol & Hsame).
  unfold update_painted. rewrite Hp, option_bind_Some.
  destruct (draw_on_board p (Some BLACK) rn Hin) as (rn1 & -> & [_ Hoff1] & Ht1).
  rewrite option_bind_Some, Hm, option_bind_Some.
  destruct (lookup_lt_is_Some_2 (pieces b1) (activePiece b)) as [p1 Hp1].
  { rewrite <- (length_fmap color), Hcol, length_fmap. by eapply lookup_lt_Some. }
  rewrite Ha, Hp1, option_bind_Some.
  destruct (draw_on_board p1 None rn1 (Hin1 p1 Hp1)) as (rn2 & -> & [_ Hoff2] & Ht2).
  rewrite option_bind_Some. eexists. split; [done|]. split; [done|]. split.
  - cbn [target SDL_RenderPresent].
    apply (shows_reveal (target rn1) _ b1 (activePiece b) p1); [done|done| |done].
    apply (shows_hidden_ext _ b); [done|].
    by apply (shows_hide (target rn) _ b (activePiece b) p hidden).
  - intros px py Hoff. cbn [target SDL_RenderPresent]. by rewrite Hoff2, Hoff1.
Qed.

(** The end of [Board::update] with the painting, from [emplace_back] on,
    is the one of [update]. *)
Lemma update_painted_spawn_unfold rd b2 rn3 :
  (let b3 := emplace_back rd b2 in
   p ← pieces b3 !! activePiece b3;
   '(placed, b4) ← moveTo (activePiece b3) (row p) (col p) (tileGrid p) b3;
   if negb placed
   then Some (false, (set_pieces (removelast (pieces b4)) b4, SDL_RenderPresent rn3))
   else Some (true, (b4, SDL_RenderPresent rn3)))
  = '(ok, b') ← spawn rd b2; Some (ok, (b', SDL_RenderPresent rn3)).
Proof.
  unfold spawn. cbv zeta.
  destruct (pieces (emplace_back rd b2) !! activePiece (emplace_back rd b2)) as [q|];
    [|done].
  rewrite !option_bind_Some. destruct (moveTo _ _ _ _ _) as [[placed b4]|]; [|done].
  rewrite !option_bind_Some. by destruct placed.
Qed.

(** A call of [Board::update] that spawns: the rows collapse on the picture
    as on the board, and the piece that is spawned is not painted. *)
Lemma update_painted_spawn fuel rd b rn hidden :
  Inv b → (Z.to_nat NUM_ROWS ≤ fuel)%nat →
  move (activePiece b) DOWN b = Some (true, b) →
  hidden = None ∨ hidden = Some (activePiece b) →
  shows (target rn) b hidden →
  ∃ ok b' rn', update_painted fuel DOWN rd (b, rn) = Some (ok, (b', rn'))
    ∧ shown rn' = target rn'
    ∧ (∀ px py, off_board px py → target rn' px py = target rn px py)
    ∧ consistent b'
    ∧ (ok = false → shows (target rn') b' None)
    ∧ (ok = true → Inv b' ∧ shows (target rn') b' (Some (activePiece b'))).
Proof.
  intros [Hc Hact] Hfuel Hm Hh Hs. destruct (lookup_lt_is_Some_2 _ _ Hact) as [p Hp].
  pose proof Hc as [_ _ _ Hok]. destruct (Hok _ p Hp) as [Hin _].
  pose proof (consistent_apart b Hc) as Hap.
  unfold update_painted. rewrite Hp, option_bind_Some.
  destruct (draw_on_board p (Some BLACK) rn Hin) as (rn1 & -> & [_ Hoff1] & Ht1).
  rewrite option_bind_Some, bool_decide_false, Hm, option_bind_Some by done.
  rewrite Hp, option_bind_Some.
  destruct (draw_on_board p None rn1 Hin) as (rn2 & -> & [_ Hoff2] & Ht2).
  rewrite option_bind_Some.
  assert (shows (target rn2) b None) as Hs2.
  { apply (shows_reveal (target rn1) _ b (activePiece b) p); [done|done| |done].
    by apply (shows_hide (target rn) _ b (activePiece b) p hidden). }
  destruct (collapseFullRows_painted_spec fuel b rn2 Hc Hfuel Hs2)
    as (b2 & rn3 & -> & _ & Hc2 & Hs3 & [_ Hoff3]).
  rewrite option_bind_Some, update_painted_spawn_unfold.
  assert (∀ px py, off_board px py →
            target (SDL_RenderPresent rn3) px py = target rn px py) as Hoff.
  { intros px py Ho. cbn [target SDL_RenderPresent]. by rewrite Hoff3, Hoff2, Hoff1. }
  destruct (spawn_spec rd b2 Hc2) as [Hsb Hsf].
  destruct (emplace_back_spec rd b2) as (Hps3 & Ha3 & Hg3 & _).
  destruct (moveTo_total (activePiece (emplace_back rd b2)) 0 0
              (tileGrid (Piece_ctor rd (colorIndex b2)).1) (emplace_back rd b2)
              (Piece_ctor rd (colorIndex b2)).1) as [Hbl|Hnb].
  { apply (reg_wf _ _ (emplace_back_registered rd b2 Hc2)). }
  { rewrite Hps3, Ha3. by apply list_lookup_middle. }
  { apply Piece_ctor_ok. }
  - rewrite (Hsb Hbl), option_bind_Some.
    exists false, (set_pieces (pieces b2) (emplace_back rd b2)), (SDL_RenderPresent rn3).
    split; [done|]. split; [done|]. split; [done|].
    assert (consistent (set_pieces (pieces b2) (emplace_back rd b2))) as Hc'.
    { apply (registered_ext _ b2); [by rewrite <- Hg3|done|done]. }
    split; [done|]. split; [|done]. intros _. cbn [target SDL_RenderPresent].
    by apply (shows_None_ext _ b2).
  - destruct (Hsf Hnb) as (g' & -> & Hinv'). rewrite option_bind_Some.
    exists true, (set_pieceGrid g' (emplace_back rd b2)), (SDL_RenderPresent rn3).
    split; [done|]. split; [done|]. split; [done|]. split; [apply Hinv'|].
    split; [done|]. intros _. split; [done|].
    cbn [target SDL_RenderPresent activePiece set_pieceGrid]. rewrite Ha3.
    apply (shows_hidden_ext _ b2).
    + intros j Hj. cbn [pieces set_pieceGrid]. rewrite Hps3.
      destruct (decide (j < length (pieces b2))%nat).
      * by apply lookup_app_l.
      * rewrite !lookup_ge_None_2; [done|lia|]. rewrite length_app. cbn [length]. lia.
    + apply shows_None_Some; [|done]. by apply lookup_ge_None_2.
Qed.

(** The first piece has room to go down. *)
Lemma Board_ctor_not_blocked_down rd :
  ¬ blocked 0 1 0 (tileGrid (Piece_ctor rd 0).1) (Board_ctor rd).
Proof.
  apply not_blocked_iff. intros r c Hc. apply covers_spec in Hc as (sr & sc & Ht & -> & ->).
  apply tg_get_Some in Ht as [Hr Hc]. split.
  - unfold in_bounds, MAX_HEIGHT, MAX_WIDTH, NUM_ROWS, NUM_COLS in *. lia.
  - intros q Hq. exfalso. cbn [pieceGrid Board_ctor Piece_ctor] in Hq.
    pose proof (grid_get_Some _ _ _ _ GRID_NULL_wf Hq) as Hb.
    rewrite (GRID_NULL_get _ _ Hb) in Hq. done.
Qed.

(** A call of [Board::update] with the painting, from a board that has the
    invariant or from the initial board. *)
Lemma update_painted_spec fuel d rd rd0 b rn hidden p :
  Inv b ∨ b = Board_ctor rd0 → (Z.to_nat NUM_ROWS ≤ fuel)%nat →
  pieces b !! activePiece b = Some p →
  hidden = None ∨ hidden = Some (activePiece b) →
  shows (target rn) b hidden →
  ∃ ok b' rn' hidden',
    update_painted fuel d rd (b, rn) = Some (ok, (b', rn'))
    ∧ update fuel d rd b = Some (ok, b')
    ∧ shown rn' = target rn'
    ∧ (∀ px py, off_board px py → target rn' px py = target rn px py)
    ∧ (ok = true → Inv b' ∨ b' = Board_ctor rd0)
    ∧ shows (target rn') b' hidden'
    ∧ ((hidden' = None
        ∧ (ok = true →
           ¬ (d = DOWN
              ∧ blocked (activePiece b) (row p + 1) (col p) (tileGrid p) b)))
       ∨ (hidden' = Some (activePiece b') ∧ ok = true ∧ d = DOWN
          ∧ blocked (activePiece b) (row p + 1) (col p) (tileGrid p) b)).
Proof.
  intros Hb Hfuel Hp0 Hh Hs.
  assert (∀ ok b' rn', update_painted fuel d rd (b, rn) = Some (ok, (b', rn')) →
            update fuel d rd b = Some (ok, b')) as Hproj.
  { intros ok b' rn' H. pose proof (update_painted_board fuel d rd (b, rn)) as E.
    rewrite H in E. cbn in E. done. }
  set (m := if bool_decide (d = UP)
            then b' ← rotate (activePiece b) b; Some (false, b')
            else move (activePiece b) d b).
  pose proof Hp0 as Hp.
  assert (apart (pieces b) ∧ (∀ r c, occupies p r c = true → in_bounds r c)
          ∧ grid_wf (pieceGrid b)) as (Hap & Hin & Hwf).
  { destruct Hb as [[Hc Hact]| ->].
    - pose proof Hc as [Hwf _ _ Hok]. destruct (Hok _ p Hp) as [Hin _].
      split; [by apply consistent_apart|done].
    - injection Hp as <-. split; [constructor; constructor|].
      split; [exact (proj1 (Piece_ctor_ok rd0 0))|]. apply GRID_NULL_wf. }
  assert (∃ ok b', update fuel d rd b = Some (ok, b')
                   ∧ (consistent b' ∨ b' = Board_ctor rd0)
                   ∧ (ok = true → Inv b' ∨ b' = Board_ctor rd0))
    as (ok & b' & Hup & Hc' & Hinv').
  { destruct Hb as [Hinv| ->].
    - destruct (update_Inv fuel d rd b Hinv Hfuel) as (ok & b' & Hup & Hc' & Hi).
      exists ok, b'. split; [done|]. split; [by left|]. intros Hok. left. by apply Hi.
    - destruct (first_update fuel d rd0 rd) as (b' & Hup & Hb').
      exists true, b'. split; [done|]. split; [|done].
      destruct Hb' as [[Hc' _]|Hb']; [by left|by right]. }
  pose proof Hup as Hup'. rewrite update_unfold in Hup'. fold m in Hup'.
  destruct m as [[[|] b1]|] eqn:Em; [| |done].
  - (* the piece has settled *)
    clear Hup'.
    assert (d = DOWN ∧ b1 = b) as [-> ->].
    { revert Em. unfold m. case_bool_decide.
      - destruct (rotate (activePiece b) b); [|done]. by rewrite option_bind_Some.
      - intros Hmv.
        by destruct (move_true_blocked _ _ _ _ p Hwf Hp Hin Hmv) as (-> & -> & _). }
    assert (move (activePiece b) DOWN b = Some (true, b)) as Hmv.
    { revert Em. unfold m. by rewrite bool_decide_false. }
    clear ok b' Hup Hc' Hinv'.
    destruct Hb as [Hinv| ->].
    + destruct (update_painted_spawn fuel rd b rn hidden Hinv Hfuel Hmv Hh Hs)
        as (ok & b' & rn' & Hup & Hsh & Hoff & Hc' & Hfalse & Htrue).
      destruct ok.
      * destruct (Htrue eq_refl) as [Hinv' Hs'].
        exists true, b', rn', (Some (activePiece b')). split; [done|].
        split; [by apply (Hproj _ _ rn')|]. split; [done|]. split; [done|].
        split; [by left|]. split; [done|]. right.
        destruct (move_true_blocked _ _ _ _ p Hwf Hp Hin Hmv) as (_ & _ & Hbl).
        destruct (dest_DOWN p) as [Er Ec]. by rewrite Er, Ec in Hbl.
      * exists false, b', rn', None. split; [done|]. split; [by apply (Hproj _ _ rn')|].
        split; [done|]. split; [done|]. split; [done|]. split; [by apply Hfalse|].
        left. done.
    + exfalso.
      destruct (move_true_blocked _ _ _ _ p Hwf Hp Hin Hmv) as (_ & _ & Hbl).
      destruct (dest_DOWN p) as [Er Ec]. rewrite Er, Ec in Hbl.
      injection Hp as <-. by apply (Board_ctor_not_blocked_down rd0).
  - (* the piece is steered *)
    rewrite option_bind_Some in Hup'. injection Hup' as <- <-.
    destruct (update_painted_no_spawn fuel d rd b rn p b1 hidden Hp Hap Hin Em)
      as (rn' & Hpaint & Hsh & Hs' & Hoff); [| |done|done|].
    + destruct Hc' as [Hc'| ->]; [by apply consistent_apart|constructor; constructor].
    + intros q Hq. destruct Hc' as [[_ _ _ Hok']| ->].
      * by apply (Hok' _ q Hq).
      * destruct Hb as [[_ Hact]| ->].
        -- assert (activePiece b = 0%nat) as E0.
           { apply lookup_lt_Some in Hq. cbn in Hq. lia. }
           rewrite E0 in Hq. injection Hq as <-.
           exact (proj1 (Piece_ctor_ok rd0 0)).
        -- injection Hq as <-. exact (proj1 (Piece_ctor_ok rd0 0)).
    + exists true, b1, rn', None. split; [done|]. split; [done|]. split; [done|].
      split; [done|]. split; [done|]. split; [done|]. left. split; [done|].
      intros _ [-> Hbl]. revert Em. unfold m. rewrite bool_decide_false by done.
      destruct (dest_DOWN p) as [Er Ec]. rewrite <- Er, <- Ec in Hbl.
      by rewrite (move_blocked _ DOWN b p Hwf Hp Hbl).
Qed.

(** ** Painting: the game *)

Lemma outline_on_screen px py :
  on_outline outlineRect px py = true → on_screen px py = true.
Proof.
  unfold on_outline, on_screen, in_rect, outlineRect. cbn [rect_x rect_y rect_w rect_h].
  assert (START_X_PIXELS = 106) as -> by reflexivity.
  assert (START_Y_PIXELS = 80) as -> by reflexivity.
  unfold BOARD_WIDTH_PIXELS, BOARD_HEIGHT_PIXELS, SCREEN_WIDTH, SCREEN_HEIGHT,
    TILE_WIDTH, TILE_HEIGHT, NUM_ROWS, NUM_COLS.
  rewrite !andb_true_iff, !Z.leb_le, !Z.ltb_lt. lia.
Qed.

Lemma drawBorders_target rn px py :
  target (drawBorders rn) px py =
  if on_outline outlineRect px py then Some BORDER_COLOR else target rn px py.
Proof.
  unfold drawBorders, SDL_RenderDrawRect, SDL_SetRenderDrawColor. cbn [target drawColor].
  destruct (on_outline outlineRect px py) eqn:E; [|done].
  by rewrite (outline_on_screen px py E).
Qed.

(** [Board::draw] *)
Lemma Board_draw_spec b rn :
  apart (pieces b) → Forall piece_ok (pieces b) →
  (∀ r c px py, in_bounds r c → in_rect (tile_rect r c) px py = true →
                target rn px py = None ∨ target rn px py = Some BLACK) →
  ∃ rn', Board_draw b rn = Some rn'
         ∧ shown rn' = target rn' ∧ framed (target rn') ∧ shows (target rn') b None
         ∧ ∀ px py, off_board px py → on_outline outlineRect px py = false →
                    target rn' px py = target rn px py.
Proof.
  intros Hap Hok Hblank. unfold Board_draw. cbv zeta.
  destruct (loop_state_ind
              (λ k rn', painted_from (drawBorders rn) rn'
                        ∧ shows (target rn') (set_pieces (take k (pieces b)) b) None)
              (λ piece rn0, draw piece None rn0) (pieces b) (drawBorders rn))
    as (rn2 & -> & [_ Hoff] & Hs).
  { split; [done|]. intros r c px py Hb Hin. rewrite drawBorders_target.
    destruct (tile_rect_on_screen r c px py Hb Hin) as (_ & -> & _). split.
    - intros i p Hp. cbn [pieces set_pieces take] in Hp. done.
    - intros _. by apply (Hblank r c). }
  { intros k p rn0 Hk [Hf0 Hs0].
    pose proof (proj1 (Forall_lookup_1 _ _ _ _ Hok Hk)) as Hin.
    destruct (draw_on_board p None rn0 Hin) as (rn1 & -> & Hf1 & Ht1).
    exists rn1. split; [done|]. split; [by eapply painted_from_trans|].
    intros r c px py Hb Hrect. destruct (Hs0 r c px py Hb Hrect) as [Hcol Hbl].
    rewrite Ht1, (covered_cell p r c px py Hrect). cbn [pieces set_pieces] in *. split.
    - intros i q Hq _ Ho. apply lookup_take_Some in Hq as [Hq Hlt].
      destruct (decide (i = k)) as [->|Hne].
      + rewrite Hk in Hq. injection Hq as <-. by rewrite Ho.
      + assert (occupies p r c = false) as ->.
        { apply not_true_iff_false. intros Hop.
          by apply (apart_lookup _ _ _ _ _ Hap Hq Hk Hne r c). }
        apply (Hcol i q); [|done|done]. apply lookup_take_Some. split; [done|lia].
    - intros Hnone. rewrite (Hnone k p); [|apply lookup_take_Some; split; [done|lia]|done].
      apply Hbl. intros i q Hq _. apply lookup_take_Some in Hq as [Hq Hlt].
      apply (Hnone i q); [|done]. apply lookup_take_Some. split; [done|lia]. }
  rewrite option_bind_Some. rewrite firstn_all in Hs.
  eexists. split; [done|]. cbn [shown target SDL_RenderPresent].
  split; [done|]. split; [|split].
  - intros px py Ho. rewrite (Hoff px py (on_outline_off_board px py Ho)).
    by rewrite drawBorders_target, Ho.
  - intros r c px py Hb Hin. destruct (Hs r c px py Hb Hin) as [Hcol Hbl]. split.
    + intros i p Hp. by apply (Hcol i p).
    + intros Hnone. apply Hbl. intros i p Hp. by apply (Hnone i p).
  - intros px py Ho Hout. by rewrite (Hoff px py Ho), drawBorders_target, Hout.
Qed.

(** A sequence of calls of [Board::update], with the painting. *)
Lemma updates_painted_spec fuel rd0 cmds :
  (Z.to_nat NUM_ROWS ≤ fuel)%nat →
  ∀ b rn hidden,
    Inv b ∨ b = Board_ctor rd0 →
    hidden = None ∨ hidden = Some (activePiece b) →
    shows (target rn) b hidden → shown rn = target rn →
    ∃ ok b' rn' hidden',
      updates_painted fuel cmds (b, rn) = Some (ok, (b', rn'))
      ∧ updates fuel cmds b = Some (ok, b')
      ∧ shown rn' = target rn'
      ∧ (∀ px py, off_board px py → target rn' px py = target rn px py)
      ∧ (hidden' = None ∨ (ok = true ∧ hidden' = Some (activePiece b')))
      ∧ shows (target rn') b' hidden'.
Proof.
  intros Hfuel. induction cmds as [|[d rd] cmds IH]; intros b rn hidden Hb Hh Hs Hsh.
  - exists true, b, rn, hidden. split; [done|]. split; [done|]. split; [done|].
    split; [done|]. split; [|done]. destruct Hh; [by left|by right].
  - assert (∃ p, pieces b !! activePiece b = Some p) as [p Hp].
    { destruct Hb as [[_ Ha]| ->]; [by apply lookup_lt_is_Some_2|by eexists]. }
    destruct (update_painted_spec fuel d rd rd0 b rn hidden p Hb Hfuel Hp Hh Hs)
      as (ok & b1 & rn1 & h1 & Hup & Hup' & Hsh1 & Hoff1 & Hb1 & Hs1 & Hh1).
    assert (h1 = None ∨ h1 = Some (activePiece b1)) as Hh1'.
    { destruct Hh1 as [[-> _]|[-> _]]; [by left|by right]. }
    cbn [updates_painted updates]. rewrite Hup, Hup', !option_bind_Some.
    destruct ok.
    + destruct (IH b1 rn1 h1 (Hb1 eq_refl) Hh1' Hs1 Hsh1)
        as (ok & b' & rn' & h' & -> & -> & Hsh' & Hoff' & Hh' & Hs').
      exists ok, b', rn', h'. split; [done|]. split; [done|]. split; [done|].
      split; [|done]. intros px py Ho. by rewrite Hoff', Hoff1.
    + exists false, b1, rn1, h1. split; [done|]. split; [done|]. split; [done|].
      split; [done|]. split; [|done]. left. by destruct Hh1 as [[-> _]|(_ & ? & _)].
Qed.

(** ** The loop of main *)

Lemma handle_event_command fuel erd st :
  handle_event fuel erd st =
  match event_command erd with
  | [] => Some (mkMain (board st) (gravityDeadline st)
                       (quit st || is_quit erd || negb (updateSuccess st))
                       (updateSuccess st))
  | cmd :: _ =>
      '(ok, b) ← update fuel cmd.1 cmd.2 (board st);
      Some (mkMain b (gravityDeadline st) (quit st || negb ok) ok)
  end.
Proof.
  destruct erd as [[|[| | | |]|] rd], st as [b dl q us];
    unfold handle_event, event_command, is_quit, key_update;
    cbn [fst snd board gravityDeadline quit updateSuccess];
    rewrite ?option_bind_Some; cbn [board gravityDeadline quit updateSuccess];
    try (by destruct q, us);
    by (destruct (update _ _ _ _) as [[[|] b']|]; cbn; rewrite ?orb_true_r, ?orb_false_r).
Qed.

(** The events of a pass, while no call ends the game. *)
Lemma handle_events_play fuel events :
  ∀ st b',
    updateSuccess st = true →
    updates fuel (events ≫= event_command) (board st) = Some (true, b') →
    loop_state (handle_event fuel) events st
    = Some (mkMain b' (gravityDeadline st) (quit st || existsb is_quit events) true).
Proof.
  induction events as [|erd events IH]; intros st b' Hus Hup.
  - cbn in *. injection Hup as <-. destruct st; cbn in *. by rewrite Hus, orb_false_r.
  - cbn [loop_state]. rewrite handle_event_command. rewrite bind_cons in Hup.
    destruct (event_command erd) as [|cmd rest] eqn:Ec.
    + rewrite option_bind_Some. cbv beta.
      rewrite (IH _ b'); cbn [updateSuccess board]; [|done|done].
      cbn [gravityDeadline quit existsb]. rewrite Hus. cbn [negb].
      by rewrite orb_false_r, orb_assoc.
    + assert (rest = []) as ->.
      { revert Ec. unfold event_command. by destruct erd.1 as [|[| | | |]|]; intros [= _ <-]. }
      cbn [app updates] in Hup. destruct cmd as [d rd]. cbn [fst snd].
      destruct (update fuel d rd (board st)) as [[ok b1]|]; [|done].
      rewrite option_bind_Some in Hup. destruct ok; [|done].
      rewrite !option_bind_Some. cbv beta.
      rewrite (IH _ b'); cbn [updateSuccess board]; [|done|done].
      cbn [gravityDeadline quit existsb negb]. rewrite orb_false_r.
      assert (is_quit erd = false) as ->; [|done].
      revert Ec. unfold event_command, is_quit. by destruct erd.1.
Qed.

(** The events of a pass, once [activePiece] is past the end of the vector. *)
Lemma handle_events_past_the_end fuel events :
  ∀ st,
    activePiece (board st) = length (pieces (board st)) →
    (events ≫= event_command = [] →
     loop_state (handle_event fuel) events st
     = Some (mkMain (board st) (gravityDeadline st)
               (quit st || existsb is_quit events
                || (negb (updateSuccess st) && negb (bool_decide (events = []))))
               (updateSuccess st)))
    ∧ (events ≫= event_command ≠ [] →
       loop_state (handle_event fuel) events st = None).
Proof.
  induction events as [|erd events IH]; intros st Ha.
  - split; [|done]. intros _. cbn. destruct st; cbn.
    by rewrite andb_false_r, !orb_false_r.
  - cbn [loop_state]. rewrite handle_event_command, bind_cons.
    destruct (event_command erd) as [|cmd rest] eqn:Ec.
    + rewrite option_bind_Some.
      destruct (IH (mkMain (board st) (gravityDeadline st)
                      (quit st || is_quit erd || negb (updateSuccess st))
                      (updateSuccess st)) Ha) as [IH1 IH2].
      cbn [app]. cbv beta. split; [|done]. intros He. rewrite (IH1 He).
      cbn [board gravityDeadline quit updateSuccess existsb]. f_equal. f_equal.
      rewrite (bool_decide_false (erd :: events = [])) by done.
      destruct (quit st), (is_quit erd), (updateSuccess st), (existsb is_quit events),
        (bool_decide (events = [])); done.
    + split; [done|]. intros _. by rewrite update_past_the_end.
Qed.

(** ** The loop of main *)

Lemma updates_app fuel cmds1 cmds2 b b' :
  updates fuel (cmds1 ++ cmds2) b = Some (true, b') →
  ∃ b1, updates fuel cmds1 b = Some (true, b1)
        ∧ updates fuel cmds2 b1 = Some (true, b').
Proof.
  revert b. induction cmds1 as [|[d rd] cmds1 IH]; intros b; cbn [app updates].
  - intros H. by exists b.
  - destruct (update fuel d rd b) as [[ok b0]|]; [|done]. rewrite !option_bind_Some.
    destruct ok; [|done]. apply IH.
Qed.

(** * Further properties of the code *)

(** ** The board and the pieces *)

(** X1.  From a board in which grid and pieces agree and [activePiece] points
    into the vector, [Board::update] returns for every direction, and after
    it grid and pieces agree again (invariant I1), no two pieces share a
    cell, every piece has all its tiles on the board and at least one; when
    the call returns true, [activePiece] points into the vector again. *)
Theorem update_preserves_invariant fuel d rd b :
  Inv b → (Z.to_nat NUM_ROWS ≤ fuel)%nat →
  ∃ ok b', update fuel d rd b = Some (ok, b')
           ∧ I1 b' ∧ apart (pieces b') ∧ Forall piece_ok (pieces b')
           ∧ (ok = true → Inv b').
Proof.
  intros Hinv Hfuel.
  destruct (update_Inv fuel d rd b Hinv Hfuel) as (ok & b' & Hup & Hc & Hi).
  exists ok, b'. split; [done|]. split; [by apply consistent_I1|].
  split; [by apply consistent_apart|]. split; [by apply consistent_pieces_ok|done].
Qed.

Lemma update_preserves_invariant_witness :
  ∃ ok b', update 20 LEFT 0 overhang_board = Some (ok, b')
           ∧ I1 b' ∧ apart (pieces b') ∧ Forall piece_ok (pieces b')
           ∧ (ok = true → Inv b').
Proof.
  apply (update_preserves_invariant 20 LEFT 0 overhang_board).
  - apply Invb_sound. vm_compute. reflexivity.
  - vm_compute. lia.
Defined.

(** X2.  Only a DOWN command can make [Board::update] return false, and the
    call that returns false leaves [activePiece] pointing at the element
    that [pop_back] has removed, one past the end of the vector: every later
    call of [Board::update], whatever the direction, dereferences that
    pointer and has no defined result. *)
Theorem update_undefined_after_game_over fuel d rd b b' :
  update fuel d rd b = Some (false, b') →
  d = DOWN ∧ activePiece b' = length (pieces b')
  ∧ ∀ fuel' d' rd', update fuel' d' rd' b' = None.
Proof.
  intros Hup. destruct (update_false _ _ _ _ _ Hup) as [Hd Ha].
  split; [done|]. split; [done|]. intros fuel' d' rd'.
  by apply update_past_the_end.
Qed.

Lemma update_undefined_after_game_over_witness :
  ∃ b', update 20 DOWN 0 tower_board = Some (false, b')
        ∧ DOWN = DOWN ∧ activePiece b' = length (pieces b')
        ∧ ∀ fuel' d' rd', update fuel' d' rd' b' = None.
Proof.
  eexists. split; [vm_compute; reflexivity|].
  apply (update_undefined_after_game_over 20 DOWN 0 tower_board).
  vm_compute. reflexivity.
Defined.

(** X3.  Played from the initial board, a sequence of commands has a defined
    result up to and including the first call of [Board::update] that
    returns false, which is where [updates] stops.  On the board it reaches
    no two pieces share a cell, every piece has all its tiles on the board
    and at least one, the vector holds at most [NUM_ROWS * NUM_COLS] pieces,
    the capacity that [Board::Board] reserves, and the colour counter of
    [Piece::Piece] is an index of [DEFAULT_COLORS].  While no call has
    returned false, [activePiece] points into the vector; once a call has
    returned false it points past the end, and no further call of
    [Board::update] has a defined result: the sequences that go on after the
    end of the game are the ones, and the only ones, that are not defined. *)
Theorem reachable_boards_are_sound fuel cmds rd :
  (Z.to_nat NUM_ROWS ≤ fuel)%nat →
  ∃ ok b, updates fuel cmds (Board_ctor rd) = Some (ok, b)
          ∧ apart (pieces b) ∧ Forall piece_ok (pieces b)
          ∧ (length (pieces b) ≤ Z.to_nat (NUM_ROWS * NUM_COLS))%nat
          ∧ (colorIndex b < length DEFAULT_COLORS)%nat
          ∧ (ok = true → (activePiece b < length (pieces b))%nat)
          ∧ (ok = false →
             activePiece b = length (pieces b)
             ∧ ∀ fuel' d rd', update fuel' d rd' b = None).
Proof.
  intros Hfuel.
  destruct (updates_from_start fuel cmds rd Hfuel) as (ok & b & Hup & Hb & Hok).
  exists ok, b. split; [done|].
  assert (colorIndex b < length DEFAULT_COLORS)%nat as Hci.
  { apply (reachable_ind fuel rd (λ b, (colorIndex b < length DEFAULT_COLORS)%nat)
             Hfuel) with cmds ok; [vm_compute; lia| |done].
    intros d rd' b0 ok0 b0' [Hinv| ->] Hlt Hu.
    - by apply (update_colorIndex fuel d rd' b0 ok0).
    - by apply (first_update_colorIndex fuel d rd rd' b0' ok0). }
  assert (ok = false →
          activePiece b = length (pieces b)
          ∧ ∀ fuel' d rd', update fuel' d rd' b = None) as Hover.
  { intros ->. by apply (updates_false fuel cmds (Board_ctor rd)). }
  destruct Hb as [Hc| ->].
  - split; [by apply consistent_apart|]. split; [by apply consistent_pieces_ok|].
    split; [by apply consistent_length|]. split; [done|]. split; [|done].
    intros Ht. destruct (Hok Ht) as [[_ Ha]| ->]; [done|]. cbn. lia.
  - split. { constructor; [constructor|constructor]. }
    split. { apply Forall_singleton. apply (Piece_ctor_ok rd 0). }
    split. { vm_compute. lia. }
    split; [done|]. split; [|done]. intros _. cbn. lia.
Qed.

Lemma reachable_boards_are_sound_witness :
  ∃ ok b, updates 20 (overhang_game ++ replicate 200 (DOWN, 0%nat)) (Board_ctor 0)
          = Some (ok, b)
          ∧ apart (pieces b) ∧ Forall piece_ok (pieces b)
          ∧ (length (pieces b) ≤ Z.to_nat (NUM_ROWS * NUM_COLS))%nat
          ∧ (colorIndex b < length DEFAULT_COLORS)%nat
          ∧ (ok = true → (activePiece b < length (pieces b))%nat)
          ∧ (ok = false →
             activePiece b = length (pieces b)
             ∧ ∀ fuel' d rd', update fuel' d rd' b = None).
Proof.
  apply (reachable_boards_are_sound 20
           (overhang_game ++ replicate 200 (DOWN, 0%nat)) 0).
  vm_compute. lia.
Defined.

(** X4.  Pieces enter the board with four tiles and tiles leave it twelve at
    a time, one full row.  On the board that a sequence of commands reaches
    from the initial one, the number of tiles of the pieces plus [NUM_COLS]
    for each completed row is four times the number of pieces that were put
    on the board: the one of [Board::Board], and one for each call of
    [Board::update] that has spawned a piece and returned true.  There is at
    most one such call for each command. *)
Theorem tiles_and_rows_count_the_pieces fuel cmds rd ok b :
  (Z.to_nat NUM_ROWS ≤ fuel)%nat →
  updates fuel cmds (Board_ctor rd) = Some (ok, b) →
  0 <= rowsCompleted b
  ∧ (pieces_entered fuel cmds (Board_ctor rd) ≤ length cmds)%nat
  ∧ Z.of_nat (tiles_on b) + NUM_COLS * rowsCompleted b
    = 4 * (1 + Z.of_nat (pieces_entered fuel cmds (Board_ctor rd))).
Proof.
  intros Hfuel Hup.
  destruct (updates_count fuel rd Hfuel cmds (Board_ctor rd) ok b) as (Hr & Hk & Ht);
    [by right|done|].
  destruct (Board_ctor_count rd) as [E1 E2]. rewrite E1, E2 in Ht. rewrite E2 in Hr.
  split; [done|]. split; [done|]. lia.
Qed.

Lemma tiles_and_rows_count_the_pieces_witness :
  ∃ b, updates 20 overhang_game (Board_ctor 0) = Some (true, b)
  ∧ pieces_entered 20 overhang_game (Board_ctor 0) = 4%nat
  ∧ 0 <= rowsCompleted b
  ∧ (pieces_entered 20 overhang_game (Board_ctor 0) ≤ length overhang_game)%nat
  ∧ Z.of_nat (tiles_on b) + NUM_COLS * rowsCompleted b
    = 4 * (1 + Z.of_nat (pieces_entered 20 overhang_game (Board_ctor 0))).
Proof.
  eexists. split; [vm_compute; reflexivity|]. split; [vm_compute; reflexivity|].
  apply (tiles_and_rows_count_the_pieces 20 overhang_game 0 true).
  - vm_compute. lia.
  - vm_compute. reflexivity.
Defined.

(** X5.  When every row of the grid has an empty cell,
    [Board::collapseFullRows] returns the board as it is: no piece is moved,
    no piece is erased and [rowsCompleted] is not changed.  In particular
    the loop that lets the pieces fall is not run, so the call needs no fuel. *)
Theorem collapseFullRows_without_full_row fuel b :
  grid_wf (pieceGrid b) →
  (∀ r, 0 <= r < NUM_ROWS →
        ∃ c, 0 <= c < NUM_COLS ∧ grid_get (pieceGrid b) r c = Some None) →
  collapseFullRows fuel b = Some b.
Proof.
  intros Hwf Hholes. unfold collapseFullRows.
  destruct (loop_state_ind (λ (_ : nat) s, s = b) (collapse_row fuel)
              (seqZ 0 NUM_ROWS) b eq_refl) as (b' & -> & ->); [|done].
  intros k r s0 Hk ->. apply lookup_seqZ in Hk as [-> Hk]. rewrite Z.add_0_l.
  exists b. split; [|done]. apply collapse_row_not_full; [done|lia|].
  apply Hholes. lia.
Qed.

Lemma collapseFullRows_without_full_row_witness :
  collapseFullRows 0 bar_at_19_4 = Some bar_at_19_4.
Proof.
  apply (collapseFullRows_without_full_row 0 bar_at_19_4).
  - apply grid_wfb_sound. vm_compute. reflexivity.
  - intros r Hr. exists 0. split; [vm_compute; split; congruence|].
    unfold NUM_ROWS in Hr.
    assert (r = 0 ∨ r = 1 ∨ r = 2 ∨ r = 3 ∨ r = 4 ∨ r = 5 ∨ r = 6 ∨ r = 7 ∨ r = 8
            ∨ r = 9 ∨ r = 10 ∨ r = 11 ∨ r = 12 ∨ r = 13 ∨ r = 14 ∨ r = 15
            ∨ r = 16 ∨ r = 17 ∨ r = 18 ∨ r = 19) as H by lia.
    repeat (destruct H as [->|H]; [vm_compute; reflexivity|]). subst r.
    vm_compute. reflexivity.
Defined.

(** X6.  On a board in which grid and pieces agree [Board::collapseFullRows]
    returns, with grid and pieces in agreement again.  It removes exactly
    [NUM_COLS] tiles for each unit it adds to [rowsCompleted], it adds at
    most [NUM_ROWS] to it, it does not add pieces, it leaves [activePiece]
    as it is, and when it completes no row the board is unchanged. *)
Theorem collapseFullRows_conserves_tiles fuel b :
  consistent b → (Z.to_nat NUM_ROWS ≤ fuel)%nat →
  ∃ b', collapseFullRows fuel b = Some b' ∧ consistent b'
        ∧ rowsCompleted b <= rowsCompleted b' <= rowsCompleted b + NUM_ROWS
        ∧ Z.of_nat (tiles_on b') + NUM_COLS * (rowsCompleted b' - rowsCompleted b)
          = Z.of_nat (tiles_on b)
        ∧ (length (pieces b') ≤ length (pieces b))%nat
        ∧ activePiece b' = activePiece b
        ∧ (rowsCompleted b' = rowsCompleted b → b' = b).
Proof.
  intros Hc Hfuel.
  destruct (collapseFullRows_count fuel b Hc Hfuel)
    as (b' & Hb' & Hc' & Hr & Ht & Ha & _ & Hl & He & _).
  exists b'. done.
Qed.

Lemma collapseFullRows_conserves_tiles_witness :
  ∃ b', collapseFullRows 20 overhang_board = Some b' ∧ consistent b'
        ∧ rowsCompleted overhang_board <= rowsCompleted b'
          <= rowsCompleted overhang_board + NUM_ROWS
        ∧ Z.of_nat (tiles_on b')
          + NUM_COLS * (rowsCompleted b' - rowsCompleted overhang_board)
          = Z.of_nat (tiles_on overhang_board)
        ∧ (length (pieces b') ≤ length (pieces overhang_board))%nat
        ∧ activePiece b' = activePiece overhang_board
        ∧ (rowsCompleted b' = rowsCompleted overhang_board → b' = overhang_board).
Proof.
  apply (collapseFullRows_conserves_tiles 20 overhang_board).
  - apply consistentb_sound. vm_compute. reflexivity.
  - vm_compute. lia.
Defined.

(** X7.  [Board::Board] reserves room for [NUM_ROWS * NUM_COLS] pieces, and
    the grid and [activePiece] hold addresses of elements of the vector.
    When [Board::update] spawns a piece, the vector that
    [Board::collapseFullRows] leaves holds fewer pieces than that, so the
    [emplace_back] that follows stays within the reserved capacity and moves
    no element. *)
Theorem emplace_back_within_reserve fuel rd b :
  consistent b → (Z.to_nat NUM_ROWS ≤ fuel)%nat →
  ∃ b2, collapseFullRows fuel b = Some b2
        ∧ (length (pieces b2) < Z.to_nat (NUM_ROWS * NUM_COLS))%nat
        ∧ (length (pieces (emplace_back rd b2)) ≤ Z.to_nat (NUM_ROWS * NUM_COLS))%nat.
Proof.
  intros Hc Hfuel.
  destruct (collapseFullRows_count fuel b Hc Hfuel)
    as (b2 & Hb2 & Hc2 & _ & _ & _ & _ & _ & _ & Hlt).
  exists b2. split; [done|]. pose proof (length_pieces_le b2 Hc2) as Hle.
  split; [lia|]. destruct (emplace_back_spec rd b2) as (-> & _).
  rewrite length_app. cbn [length]. lia.
Qed.

Lemma emplace_back_within_reserve_witness :
  ∃ b2, collapseFullRows 20 tower_board = Some b2
        ∧ (length (pieces b2) < Z.to_nat (NUM_ROWS * NUM_COLS))%nat
        ∧ (length (pieces (emplace_back 0 b2)) ≤ Z.to_nat (NUM_ROWS * NUM_COLS))%nat.
Proof.
  apply (emplace_back_within_reserve 20 0 tower_board).
  - apply consistentb_sound. vm_compute. reflexivity.
  - vm_compute. lia.
Defined.

(** X8.  The loop [while (!piece.move(Direction::DOWN, *this)) {}] of
    [Board::collapseFullRows] ends after fewer than [NUM_ROWS] descents.  It
    takes the piece straight down, in its column and with its footprint, to
    the first row from which the next row down is refused, by the floor or
    by another piece; the rows it goes through are free of other pieces.
    Nothing else changes: the other pieces, [activePiece], [rowsCompleted],
    and the cells of the grid that the piece neither leaves nor takes. *)
Theorem settle_drops_to_the_first_blocked_row fuel i b p :
  consistent b → pieces b !! i = Some p → (Z.to_nat NUM_ROWS ≤ fuel)%nat →
  ∃ n b', 0 <= n < NUM_ROWS
    ∧ settle fuel i b = Some b'
    ∧ (∀ k, 1 <= k <= n → ¬ blocked i (row p + k) (col p) (tileGrid p) b)
    ∧ blocked i (row p + n + 1) (col p) (tileGrid p) b
    ∧ pieces b' = <[i := set_anchor (row p + n) (col p) p]> (pieces b)
    ∧ activePiece b' = activePiece b ∧ rowsCompleted b' = rowsCompleted b
    ∧ (∀ r c, grid_get (pieceGrid b') r c =
              if covers (tileGrid p) (row p + n) (col p) r c then Some (Some i)
              else if occupies p r c then Some None
              else grid_get (pieceGrid b) r c)
    ∧ consistent b'.
Proof.
  intros Hc Hp Hfuel.
  destruct (settle_lands fuel i b p Hc Hp Hfuel)
    as (n & b' & Hn & Hs & Hc' & [Hps Ha Hr _ _ Hg _] & Hfree & Hbl).
  exists n, b'. done.
Qed.

Lemma settle_drops_to_the_first_blocked_row_witness :
  ∃ n b', 0 <= n < NUM_ROWS
    ∧ settle 20 0 bar_at_0_4 = Some b'
    ∧ (∀ k, 1 <= k <= n → ¬ blocked 0 (0 + k) 4 I_TILES bar_at_0_4)
    ∧ blocked 0 (0 + n + 1) 4 I_TILES bar_at_0_4
    ∧ pieces b' = <[0%nat := mkPiece I_TILES RED (0 + n) 4]> (pieces bar_at_0_4)
    ∧ activePiece b' = activePiece bar_at_0_4
    ∧ rowsCompleted b' = rowsCompleted bar_at_0_4
    ∧ (∀ r c, grid_get (pieceGrid b') r c =
              if covers I_TILES (0 + n) 4 r c then Some (Some 0%nat)
              else if occupies (mkPiece I_TILES RED 0 4) r c then Some None
              else grid_get (pieceGrid bar_at_0_4) r c)
    ∧ consistent b'.
Proof.
  apply (settle_drops_to_the_first_blocked_row 20 0 bar_at_0_4 (mkPiece I_TILES RED 0 4)).
  - apply consistentb_sound. vm_compute. reflexivity.
  - reflexivity.
  - vm_compute. lia.
Defined.

(** X9.  An accepted [Piece::moveTo] commits as follows: the cells of the
    candidate footprint at the candidate anchor point to the piece, the cells
    that the piece leaves are null, every other cell of the grid is as
    before; the piece has the new anchor and keeps its footprint and colour
    (the candidate footprint is not stored by [moveTo]); the other pieces,
    [activePiece] and [rowsCompleted] are unchanged. *)
Theorem moveTo_commit this newRow newCol newTileGrid b p :
  grid_wf (pieceGrid b) → pieces b !! this = Some p →
  (∀ r c, occupies p r c = true → in_bounds r c) →
  ¬ blocked this newRow newCol newTileGrid b →
  ∃ b', moveTo this newRow newCol newTileGrid b = Some (true, b')
        ∧ pieces b' = <[this := mkPiece (tileGrid p) (color p) newRow newCol]> (pieces b)
        ∧ activePiece b' = activePiece b ∧ rowsCompleted b' = rowsCompleted b
        ∧ grid_wf (pieceGrid b')
        ∧ ∀ r c, grid_get (pieceGrid b') r c =
                 if covers newTileGrid newRow newCol r c then Some (Some this)
                 else if occupies p r c then Some None
                 else grid_get (pieceGrid b) r c.
Proof.
  intros Hwf Hp Hin Hnb.
  destruct (moveTo_free this newRow newCol newTileGrid b p Hwf Hp Hnb Hin)
    as (g' & Hm & Hwf' & Hg').
  eexists. split; [exact Hm|]. done.
Qed.

Lemma moveTo_commit_witness :
  ∃ b', moveTo 0 5 3 O_TILES bar_at_0_4 = Some (true, b')
        ∧ pieces b' = <[0%nat := mkPiece I_TILES RED 5 3]> (pieces bar_at_0_4)
        ∧ activePiece b' = activePiece bar_at_0_4
        ∧ rowsCompleted b' = rowsCompleted bar_at_0_4
        ∧ grid_wf (pieceGrid b')
        ∧ ∀ r c, grid_get (pieceGrid b') r c =
                 if covers O_TILES 5 3 r c then Some (Some 0%nat)
                 else if occupies (mkPiece I_TILES RED 0 4) r c then Some None
                 else grid_get (pieceGrid bar_at_0_4) r c.
Proof.
  apply (moveTo_commit 0 5 3 O_TILES bar_at_0_4 (mkPiece I_TILES RED 0 4)).
  - apply grid_wfb_sound. vm_compute. reflexivity.
  - reflexivity.
  - apply (reg_ok _ _ bar_at_0_4_consistent 0%nat). reflexivity.
  - apply not_blocked_iff. intros r c Hc.
    apply covers_spec in Hc as (sr & sc & Ht & -> & ->).
    pose proof (tg_get_Some _ _ _ _ Ht) as [Hr Hc].
    unfold MAX_HEIGHT, MAX_WIDTH in *.
    assert (sr = 0 ∨ sr = 1 ∨ sr = 2 ∨ sr = 3) as Hr' by lia.
    assert (sc = 0 ∨ sc = 1 ∨ sc = 2 ∨ sc = 3) as Hc' by lia.
    destruct Hr' as [->|[->|[->| ->]]]; destruct Hc' as [->|[->|[->| ->]]];
      try discriminate Ht;
      (split; [unfold in_bounds, NUM_ROWS, NUM_COLS; lia|]);
      intros q Hq; vm_compute in Hq; discriminate Hq.
Defined.



(** X11.  The commands UP, LEFT and RIGHT only steer: played in any number
    and order from a board in which grid and pieces agree, [Board::update]
    returns true at each of them, whatever the fuel, and never spawns, erases
    or ends the game.  The board that results differs from the first one by
    the placement of the active piece alone, which keeps its colour and its
    number of tiles, and when the active piece is back at its first anchor
    with its first footprint the board is exactly the first one. *)
Theorem steering_changes_only_the_active_piece fuel cmds b :
  Inv b → Forall (λ cmd : Direction * nat, cmd.1 ≠ DOWN) cmds →
  ∃ b' p p',
    updates fuel cmds b = Some (true, b') ∧ Inv b'
    ∧ pieces b !! activePiece b = Some p
    ∧ pieces b' = <[activePiece b := p']> (pieces b)
    ∧ activePiece b' = activePiece b ∧ rowsCompleted b' = rowsCompleted b
    ∧ color p' = color p
    ∧ tile_count (tileGrid p') = tile_count (tileGrid p)
    ∧ (∀ r c, occupies p r c = false → occupies p' r c = false →
              grid_get (pieceGrid b') r c = grid_get (pieceGrid b) r c)
    ∧ (p' = p → b' = b).
Proof.
  intros [Hc Ha] Hcmds. destruct (lookup_lt_is_Some_2 _ _ Ha) as [p Hp].
  destruct (updates_steer fuel cmds b p Hcmds Hc Hp p b Hc
              (displaced_refl b _ p Hc Hp) Hp) as (b' & p' & Hup & Hc' & Hd' & Hp' & Ht).
  exists b', p, p'. pose proof Hd' as [Hps Hact Hr _ _ Hg _].
  split; [done|]. split.
  { split; [done|]. rewrite Hact, Hps, length_insert. done. }
  split; [done|]. split; [done|]. split; [done|]. split; [done|]. split.
  { assert (color <$> pieces b' !! activePiece b = color <$> pieces b !! activePiece b)
      as Hcol; [|by rewrite Hp', Hp in Hcol; injection Hcol].
    rewrite <- !list_lookup_fmap. f_equal.
    clear -Hcmds Hup. revert b Hup.
    induction Hcmds as [|[d rd] cmds Hd _ IH]; intros b; cbn [updates].
    - by intros [= <-].
    - destruct (update fuel d rd b) as [[ok b1]|] eqn:Hu; [|done].
      rewrite option_bind_Some. destruct ok; [|done]. intros Hrest.
      rewrite (IH _ Hrest). clear IH Hrest. revert Hu. rewrite update_unfold.
      case_bool_decide as Hup.
      + destruct (rotate (activePiece b) b) as [bx|] eqn:Hr; [|done].
        rewrite !option_bind_Some. intros [= <-].
        by destruct (rotate_frame _ _ _ Hr) as (_ & _ & _ & _ & -> & _).
      + destruct (move (activePiece b) d b) as [[[|] bx]|] eqn:Hm;
          rewrite ?option_bind_Some; [| |done].
        * unfold move in Hm. destruct (pieces b !! activePiece b); [|done].
          rewrite option_bind_Some in Hm. cbv zeta in Hm.
          destruct (moveTo _ _ _ _ _) as [[mv by']|]; [|done].
          rewrite option_bind_Some in Hm. injection Hm as Hm _.
          apply andb_true_iff in Hm as [_ Hm]. apply bool_decide_eq_true_1 in Hm.
          by destruct Hd.
        * intros [= <-]. by destruct (move_frame _ _ _ _ _ Hm) as (_ & _ & _ & _ & -> & _). }
  split; [done|]. split.
  { intros r c E E'. rewrite Hg, E', E. done. }
  intros ->. by apply (displaced_back b (activePiece b) p).
Qed.

Lemma steering_changes_only_the_active_piece_witness :
  ∃ b' p p',
    updates 0 [(RIGHT, 0%nat); (UP, 0%nat); (LEFT, 0%nat)] bar_at_0_4 = Some (true, b')
    ∧ Inv b'
    ∧ pieces bar_at_0_4 !! activePiece bar_at_0_4 = Some p
    ∧ pieces b' = <[activePiece bar_at_0_4 := p']> (pieces bar_at_0_4)
    ∧ activePiece b' = activePiece bar_at_0_4
    ∧ rowsCompleted b' = rowsCompleted bar_at_0_4
    ∧ color p' = color p
    ∧ tile_count (tileGrid p') = tile_count (tileGrid p)
    ∧ (∀ r c, occupies p r c = false → occupies p' r c = false →
              grid_get (pieceGrid b') r c = grid_get (pieceGrid bar_at_0_4) r c)
    ∧ (p' = p → b' = bar_at_0_4).
Proof.
  apply (steering_changes_only_the_active_piece 0
           [(RIGHT, 0%nat); (UP, 0%nat); (LEFT, 0%nat)] bar_at_0_4).
  - apply Invb_sound. vm_compute. reflexivity.
  - repeat constructor; discriminate.
Defined.

(** X12.  The loops of [Piece::rotate] that turn the footprint neither lose
    nor add a tile: the turned footprint has as many tiles as the source. *)
Theorem rotate_tiles_keeps_the_tiles tg :
  ∃ ntg, rotate_tiles tg = Some ntg ∧ tile_count ntg = tile_count tg.
Proof.
  destruct (rotate_tiles_spec tg) as (ntg & Hr & _).
  exists ntg. split; [done|]. by apply tile_count_rotate.
Qed.

(** X13.  Gravity settles every piece.  From a board with the invariant,
    fewer than [NUM_ROWS] DOWN commands are accepted in a row: after some
    number n of them the board is the one that the loop
    [while (!piece.move(Direction::DOWN, *this)) {}] gives for the active
    piece, the invariant holds, the next descent is refused, and the next
    DOWN command lets the rows collapse and spawns a piece or ends the game. *)
Theorem gravity_settles_the_active_piece fuel rd b :
  Inv b → (Z.to_nat NUM_ROWS ≤ fuel)%nat →
  ∃ n b1,
    (n < Z.to_nat NUM_ROWS)%nat
    ∧ updates fuel (replicate n (DOWN, rd)) b = Some (true, b1)
    ∧ settle fuel (activePiece b) b = Some b1
    ∧ Inv b1
    ∧ move (activePiece b1) DOWN b1 = Some (true, b1)
    ∧ update fuel DOWN rd b1 = collapseFullRows fuel b1 ≫= spawn rd.
Proof.
  intros [Hc Ha] Hfuel.
  destruct (settle_consistent (activePiece b) (Z.to_nat NUM_ROWS) b Hc Ha)
    as (b1 & Hs & Hc1 & Hlen & _); [done|].
  destruct (settle_as_updates (Z.to_nat NUM_ROWS) fuel rd b b1 Hs)
    as (n & Hn & Hup & Ha1 & Hmv).
  exists n, b1. split; [done|]. split; [done|].
  split; [by apply (settle_mono (Z.to_nat NUM_ROWS))|].
  split; [split; [done|]; by rewrite Ha1, Hlen|]. split; [done|].
  rewrite update_unfold, bool_decide_false by done. by rewrite Hmv, option_bind_Some.
Qed.

Lemma gravity_settles_the_active_piece_witness :
  ∃ n b1,
    (n < Z.to_nat NUM_ROWS)%nat
    ∧ updates 20 (replicate n (DOWN, 0%nat)) bar_at_0_4 = Some (true, b1)
    ∧ settle 20 (activePiece bar_at_0_4) bar_at_0_4 = Some b1
    ∧ Inv b1
    ∧ move (activePiece b1) DOWN b1 = Some (true, b1)
    ∧ update 20 DOWN 0 b1 = collapseFullRows 20 b1 ≫= spawn 0.
Proof.
  apply (gravity_settles_the_active_piece 20 0 bar_at_0_4).
  - apply Invb_sound. vm_compute. reflexivity.
  - vm_compute. lia.
Defined.

(** ** The picture *)

(** X14.  For a cell of the board, [drawTile] fills exactly the rectangle of
    the cell: nothing of it falls outside the output of the renderer.
    [Board::drawBorders] paints exactly the four sides of its rectangle.  The
    rectangle of the cell lies inside the border without touching it and
    overlaps the rectangle of no other cell, and every pixel inside the
    border belongs to the rectangle of a cell of the board. *)
Theorem tiles_are_framed color r c rn px py :
  in_bounds r c →
  target (drawTile color r c rn) px py
  = (if in_rect (tile_rect r c) px py then Some (as_bytes color) else target rn px py)
  ∧ target (drawBorders rn) px py
    = (if on_outline outlineRect px py then Some BORDER_COLOR else target rn px py)
  ∧ (in_rect (tile_rect r c) px py = true →
     in_rect outlineRect px py = true ∧ on_outline outlineRect px py = false
     ∧ ∀ r' c', in_rect (tile_rect r' c') px py = true → r' = r ∧ c' = c)
  ∧ (in_rect outlineRect px py = true → on_outline outlineRect px py = false →
     ∃ r' c', in_bounds r' c' ∧ in_rect (tile_rect r' c') px py = true).
Proof.
  intros Hb. split; [|split; [|split]].
  - rewrite drawTile_target. destruct (in_rect (tile_rect r c) px py) eqn:E; [|done].
    by destruct (tile_rect_on_screen r c px py Hb E) as (-> & _).
  - apply drawBorders_target.
  - intros E. destruct (tile_rect_on_screen r c px py Hb E) as (_ & Hno & Hin).
    split; [done|]. split; [done|]. intros r' c' E'. by apply (tile_rect_inj r c r' c' px py).
  - apply inside_the_border.
Qed.

Lemma tiles_are_framed_witness :
  target (drawTile RED 19 11 fresh_renderer) 225 279
  = (if in_rect (tile_rect 19 11) 225 279 then Some (as_bytes RED)
     else target fresh_renderer 225 279)
  ∧ target (drawBorders fresh_renderer) 225 279
    = (if on_outline outlineRect 225 279 then Some BORDER_COLOR
       else target fresh_renderer 225 279)
  ∧ (in_rect (tile_rect 19 11) 225 279 = true →
     in_rect outlineRect 225 279 = true ∧ on_outline outlineRect 225 279 = false
     ∧ ∀ r' c', in_rect (tile_rect r' c') 225 279 = true → r' = 19 ∧ c' = 11)
  ∧ (in_rect outlineRect 225 279 = true → on_outline outlineRect 225 279 = false →
     ∃ r' c', in_bounds r' c' ∧ in_rect (tile_rect r' c') 225 279 = true).
Proof.
  apply (tiles_are_framed RED 19 11 fresh_renderer 225 279).
  unfold in_bounds, NUM_ROWS, NUM_COLS. lia.
Defined.

(** X15.  [Board::draw], on a board whose pieces share no cell and are on the
    board, and on a target whose cells are blank, presents the picture of the
    board: the border in its colour, the rectangle of every cell that a
    piece has in the colour of the piece, the other cells blank.  Outside
    the border and the cells nothing is painted. *)
Theorem Board_draw_shows_the_board b rn :
  apart (pieces b) → Forall piece_ok (pieces b) → blank_board (target rn) →
  ∃ rn', Board_draw b rn = Some rn'
         ∧ shown rn' = target rn' ∧ framed (shown rn') ∧ shows (shown rn') b None
         ∧ ∀ px py, off_board px py → on_outline outlineRect px py = false →
                    shown rn' px py = target rn px py.
Proof.
  intros Hap Hok Hbl.
  destruct (Board_draw_spec b rn Hap Hok Hbl) as (rn' & Hd & Hsh & Hfr & Hs & Hoff).
  exists rn'. rewrite Hsh. done.
Qed.

Lemma Board_draw_shows_the_board_witness :
  ∃ rn', Board_draw overhang_board fresh_renderer = Some rn'
         ∧ shown rn' = target rn' ∧ framed (shown rn')
         ∧ shows (shown rn') overhang_board None
         ∧ ∀ px py, off_board px py → on_outline outlineRect px py = false →
                    shown rn' px py = target fresh_renderer px py.
Proof.
  apply (Board_draw_shows_the_board overhang_board fresh_renderer).
  - apply consistent_apart, consistentb_sound. vm_compute. reflexivity.
  - apply consistent_pieces_ok, consistentb_sound. vm_compute. reflexivity.
  - intros r c px py _ _. left. reflexivity.
Defined.

(** X16.  [Board::update] keeps the picture in step with the board, but for
    the piece it spawns.  From a board with the invariant and a picture that
    shows it, the active piece apart or not, the call paints the active
    piece over, moves or turns it and paints it again; when the piece has
    settled it lets the rows collapse on the picture as on the board.  The
    picture it presents shows the new board; when a piece is spawned, that
    piece is not painted: the picture shows the other pieces, and the cells
    of the new piece are blank.  Its board is the one of [update], and
    nothing is painted outside the cells. *)
Theorem update_painted_shows_the_board fuel d rd b rn hidden p :
  Inv b → (Z.to_nat NUM_ROWS ≤ fuel)%nat →
  pieces b !! activePiece b = Some p →
  hidden = None ∨ hidden = Some (activePiece b) →
  shows (target rn) b hidden →
  ∃ ok b' rn',
    update_painted fuel d rd (b, rn) = Some (ok, (b', rn'))
    ∧ update fuel d rd b = Some (ok, b')
    ∧ shown rn' = target rn'
    ∧ (∀ px py, off_board px py → shown rn' px py = target rn px py)
    ∧ (ok = true → d = DOWN →
       blocked (activePiece b) (row p + 1) (col p) (tileGrid p) b →
       shows (shown rn') b' (Some (activePiece b'))
       ∧ ∀ q r c px py,
           pieces b' !! activePiece b' = Some q → occupies q r c = true →
           in_rect (tile_rect r c) px py = true →
           shown rn' px py = None ∨ shown rn' px py = Some BLACK)
    ∧ (ok = false
       ∨ ¬ (d = DOWN ∧ blocked (activePiece b) (row p + 1) (col p) (tileGrid p) b) →
       shows (shown rn') b' None).
Proof.
  intros Hinv Hfuel Hp Hh Hs.
  destruct (update_painted_spec fuel d rd 0 b rn hidden p (or_introl Hinv) Hfuel Hp Hh Hs)
    as (ok & b' & rn' & h' & Hup & Hup' & Hsh & Hoff & Hb' & Hs' & Hh').
  exists ok, b', rn'. rewrite Hsh. split; [done|]. split; [done|]. split; [done|].
  split; [done|]. split.
  - intros -> -> Hbl. destruct Hh' as [[_ Hno]|(-> & _)]; [by destruct Hno|].
    split; [done|]. intros q r c px py Hq Ho Hin.
    destruct (update_Inv fuel DOWN rd b Hinv Hfuel) as (ok2 & b2 & Hup2 & Hc2 & _).
    rewrite Hup' in Hup2. injection Hup2 as <- <-.
    pose proof Hc2 as [_ _ _ Hok]. destruct (Hok _ q Hq) as [Hinq _].
    destruct (Hs' r c px py (Hinq r c Ho) Hin) as [_ Hblank].
    apply Hblank. intros i q' Hq' Hne. apply not_true_iff_false. intros Ho'.
    assert (i ≠ activePiece b') as Hia by congruence.
    by apply (apart_lookup _ _ _ _ _ (consistent_apart b' Hc2) Hq' Hq Hia r c).
  - intros Hcase. destruct Hh' as [[-> _]|(-> & -> & -> & Hbl)]; [done|].
    destruct Hcase as [?|Hno]; [done|]. by destruct Hno.
Qed.

Lemma update_painted_shows_the_board_witness :
  ∃ ok b' rn',
    update_painted 20 DOWN 0 (bar_at_19_4, fresh_renderer) = Some (ok, (b', rn'))
    ∧ update 20 DOWN 0 bar_at_19_4 = Some (ok, b')
    ∧ shown rn' = target rn'
    ∧ (∀ px py, off_board px py → shown rn' px py = target fresh_renderer px py)
    ∧ (ok = true → DOWN = DOWN →
       blocked (activePiece bar_at_19_4) (19 + 1) 4 I_TILES bar_at_19_4 →
       shows (shown rn') b' (Some (activePiece b'))
       ∧ ∀ q r c px py,
           pieces b' !! activePiece b' = Some q → occupies q r c = true →
           in_rect (tile_rect r c) px py = true →
           shown rn' px py = None ∨ shown rn' px py = Some BLACK)
    ∧ (ok = false
       ∨ ¬ (DOWN = DOWN
            ∧ blocked (activePiece bar_at_19_4) (19 + 1) 4 I_TILES bar_at_19_4) →
       shows (shown rn') b' None).
Proof.
  apply (update_painted_shows_the_board 20 DOWN 0 bar_at_19_4 fresh_renderer
           (Some 0%nat) (mkPiece I_TILES RED 19 4)).
  - apply Invb_sound. vm_compute. reflexivity.
  - vm_compute. lia.
  - reflexivity.
  - right. reflexivity.
  - intros r c px py _ _. split.
    + intros i p Hp Hne Ho. destruct i as [|i]; [congruence|].
      vm_compute in Hp. discriminate Hp.
    + intros _. left. reflexivity.
Defined.

(** X17.  The picture follows the game.  [main] calls [Board::draw] on the
    initial board, and [Board::update] for each command.  On a target whose
    cells are blank, a sequence of commands played up to and including the
    first call that returns false, which is where [updates_painted] and
    [updates] stop, has a defined result, with the board of [updates]; the
    picture last presented has the border and shows that board, all of it or
    all but the active piece, and all of it when the last call has returned
    false.  After a call that has returned false no further call of
    [Board::update] has a defined result, so that nothing is said of a
    sequence that goes on after it. *)
Theorem picture_follows_the_game fuel cmds rd rn0 :
  (Z.to_nat NUM_ROWS ≤ fuel)%nat → blank_board (target rn0) →
  ∃ rn1 ok b rn,
    Board_draw (Board_ctor rd) rn0 = Some rn1
    ∧ updates_painted fuel cmds (Board_ctor rd, rn1) = Some (ok, (b, rn))
    ∧ updates fuel cmds (Board_ctor rd) = Some (ok, b)
    ∧ framed (shown rn)
    ∧ (shows (shown rn) b None
       ∨ (ok = true ∧ shows (shown rn) b (Some (activePiece b))))
    ∧ (ok = false →
       ∀ fuel' d rd', update_painted fuel' d rd' (b, rn) = None).
Proof.
  intros Hfuel Hbl.
  destruct (Board_draw_spec (Board_ctor rd) rn0) as (rn1 & Hd & Hsh1 & Hfr1 & Hs1 & _);
    [| |done|].
  { change (apart [(Piece_ctor rd 0).1]). constructor; constructor. }
  { change (Forall piece_ok [(Piece_ctor rd 0).1]). apply Forall_singleton.
    apply (Piece_ctor_ok rd 0). }
  destruct (updates_painted_spec fuel rd cmds Hfuel (Board_ctor rd) rn1 None)
    as (ok & b & rn & h & Hup & Hup' & Hsh & Hoff & Hh & Hs); [by right|by left|done|done|].
  exists rn1, ok, b, rn. split; [done|]. split; [done|]. split; [done|].
  rewrite Hsh. split; [|split].
  - intros px py Ho. rewrite (Hoff px py (on_outline_off_board px py Ho)). by apply Hfr1.
  - destruct Hh as [->|[-> ->]]; [by left|by right].
  - intros -> fuel' d rd'. apply update_painted_None.
    by apply (updates_false fuel cmds (Board_ctor rd)).
Qed.

Lemma picture_follows_the_game_witness :
  ∃ rn1 ok b rn,
    Board_draw (Board_ctor 0) fresh_renderer = Some rn1
    ∧ updates_painted 20 overhang_game (Board_ctor 0, rn1) = Some (ok, (b, rn))
    ∧ updates 20 overhang_game (Board_ctor 0) = Some (ok, b)
    ∧ framed (shown rn)
    ∧ (shows (shown rn) b None
       ∨ (ok = true ∧ shows (shown rn) b (Some (activePiece b))))
    ∧ (ok = false →
       ∀ fuel' d rd', update_painted fuel' d rd' (b, rn) = None).
Proof.
  apply (picture_follows_the_game 20 overhang_game 0 fresh_renderer).
  - vm_compute. lia.
  - intros r c px py _ _. left. reflexivity.
Defined.

(** ** The loop of main *)

(** X18.  A pass of the loop of [main] in which no call of [Board::update]
    ends the game plays the commands of the pass in order: the fall, when
    the deadline has passed, and then one command for each arrow key of the
    queue, the keys that come after [SDL_QUIT] in the queue included.  It
    pushes the deadline one second past [now] when the fall was due, sets
    [quit] exactly when [SDL_QUIT] is in the queue (if it was not set), and
    leaves [updateSuccess] true. *)
Theorem main_pass_plays_the_commands fuel now rd events st b' :
  updateSuccess st = true →
  updates fuel (pass_commands now rd events st) (board st) = Some (true, b') →
  main_pass fuel now rd events st
  = Some (mkMain b'
            (if gravityDeadline st <? now
             then now + seconds GRAVITY_DURATION_SECONDS else gravityDeadline st)
            (quit st || existsb is_quit events) true).
Proof.
  intros Hus. unfold pass_commands, main_pass.
  destruct (gravityDeadline st <? now).
  - cbn [app updates]. cbv zeta.
    destruct (update fuel DOWN rd (board st)) as [[ok b1]|]; [|done].
    rewrite !option_bind_Some. destruct ok; [|done]. intros Hup.
    by rewrite (handle_events_play fuel events _ b').
  - cbn [app]. rewrite option_bind_Some. intros Hup.
    by rewrite (handle_events_play fuel events _ b').
Qed.

Lemma main_pass_plays_the_commands_witness :
  ∃ b',
    updates 20 [(DOWN, 0%nat); (LEFT, 0%nat); (RIGHT, 0%nat)] (Board_ctor 0)
    = Some (true, b')
    ∧ main_pass 20 1 0 [(SDL_KEYDOWN SDLK_LEFT, 0%nat); (SDL_QUIT, 0%nat);
                        (SDL_KEYDOWN SDLK_RIGHT, 0%nat)] (main_init 0 0)
      = Some (mkMain b' (1 + seconds GRAVITY_DURATION_SECONDS) true true).
Proof.
  eexists. split; [vm_compute; reflexivity|].
  apply (main_pass_plays_the_commands 20 1 0
           [(SDL_KEYDOWN SDLK_LEFT, 0%nat); (SDL_QUIT, 0%nat);
            (SDL_KEYDOWN SDLK_RIGHT, 0%nat)] (main_init 0 0)).
  - reflexivity.
  - vm_compute. reflexivity.
Defined.

(** X19.  [main] does not look at what [Board::update] returns for the fall.
    When the fall of a pass ends the game, the pass goes on: if the queue
    holds no arrow key it ends with [updateSuccess] still true and [quit] set
    only by a [SDL_QUIT] of the queue, so that the loop does not stop and
    "Game Over!" is not printed; if the queue holds an arrow key the pass has
    no defined result.  From then on every pass that has a command, the fall
    of the next second for one, calls [Board::update] with [activePiece] past
    the end of the vector and has no defined result. *)
Theorem gravity_game_over_goes_unnoticed fuel now rd events st b' :
  quit st = false → updateSuccess st = true →
  gravityDeadline st < now →
  update fuel DOWN rd (board st) = Some (false, b') →
  (events ≫= event_command = [] →
   main_pass fuel now rd events st
   = Some (mkMain b' (now + seconds GRAVITY_DURATION_SECONDS)
                  (existsb is_quit events) true))
  ∧ (events ≫= event_command ≠ [] → main_pass fuel now rd events st = None)
  ∧ ∀ fuel' now' rd' events' st',
      board st' = b' → pass_commands now' rd' events' st' ≠ [] →
      main_pass fuel' now' rd' events' st' = None.
Proof.
  intros Hq Hus Hdue Hup. destruct (update_false _ _ _ _ _ Hup) as [_ Ha].
  apply Z.ltb_lt in Hdue.
  assert (main_pass fuel now rd events st
          = loop_state (handle_event fuel) events
              (mkMain b' (now + seconds GRAVITY_DURATION_SECONDS) false true)) as ->.
  { unfold main_pass. cbv zeta. by rewrite Hdue, Hup, !option_bind_Some, Hq, Hus. }
  destruct (handle_events_past_the_end fuel events
              (mkMain b' (now + seconds GRAVITY_DURATION_SECONDS) false true) Ha)
    as [H1 H2].
  split; [|split; [done|]].
  - intros He. rewrite (H1 He). cbn [board gravityDeadline quit updateSuccess negb].
    by rewrite andb_false_l, orb_false_r.
  - intros fuel' now' rd' events' st' <- Hcmds. unfold pass_commands in Hcmds.
    unfold main_pass. destruct (gravityDeadline st' <? now').
    + cbv zeta. by rewrite update_past_the_end.
    + rewrite option_bind_Some.
      by apply (handle_events_past_the_end fuel' events' st' Ha).
Qed.

Lemma gravity_game_over_goes_unnoticed_witness :
  ∃ b',
    update 20 DOWN 0 tower_board = Some (false, b')
    ∧ (([] : list (SDL_Event * nat)) ≫= event_command = [] →
       main_pass 20 1 0 [] (mkMain tower_board 0 false true)
       = Some (mkMain b' (1 + seconds GRAVITY_DURATION_SECONDS)
                      (existsb is_quit []) true))
    ∧ (([] : list (SDL_Event * nat)) ≫= event_command ≠ [] →
       main_pass 20 1 0 [] (mkMain tower_board 0 false true) = None)
    ∧ ∀ fuel' now' rd' events' st',
        board st' = b' → pass_commands now' rd' events' st' ≠ [] →
        main_pass fuel' now' rd' events' st' = None.
Proof.
  eexists. split; [vm_compute; reflexivity|].
  apply (gravity_game_over_goes_unnoticed 20 1 0 [] (mkMain tower_board 0 false true)).
  - reflexivity.
  - reflexivity.
  - reflexivity.
  - vm_compute. reflexivity.
Defined.

(** X20.  When the call of [Board::update] for an arrow key ends the game,
    [quit] is set and [updateSuccess] is false, but the events that are left
    in the queue are still handled: if one of them is an arrow key,
    [Board::update] is called again, with [activePiece] past the end of the
    vector, and the pass has no defined result; if none is, the pass ends
    with the board that the call has left. *)
Theorem key_game_over_then_keys fuel now rd0 e d rd rest st b' :
  now <= gravityDeadline st →
  event_command e = [(d, rd)] →
  update fuel d rd (board st) = Some (false, b') →
  (rest ≫= event_command = [] →
   main_pass fuel now rd0 (e :: rest) st
   = Some (mkMain b' (gravityDeadline st) true false))
  ∧ (rest ≫= event_command ≠ [] → main_pass fuel now rd0 (e :: rest) st = None).
Proof.
  intros Hnow He Hup. destruct (update_false _ _ _ _ _ Hup) as [_ Ha].
  assert (main_pass fuel now rd0 (e :: rest) st
          = loop_state (handle_event fuel) rest
              (mkMain b' (gravityDeadline st) (quit st || true) false)) as ->.
  { unfold main_pass. rewrite (proj2 (Z.ltb_ge _ _) Hnow), option_bind_Some.
    cbn [loop_state]. rewrite handle_event_command, He. cbn [fst snd].
    by rewrite Hup, !option_bind_Some. }
  rewrite orb_true_r.
  destruct (handle_events_past_the_end fuel rest
              (mkMain b' (gravityDeadline st) true false) Ha) as [H1 H2].
  split; [|done]. intros Hr. by rewrite (H1 Hr).
Qed.

Lemma key_game_over_then_keys_witness :
  ∃ b',
    update 20 DOWN 0 tower_board = Some (false, b')
    ∧ ([(SDL_KEYDOWN SDLK_LEFT, 0%nat)] ≫= event_command = [] →
       main_pass 20 0 0 [(SDL_KEYDOWN SDLK_DOWN, 0%nat); (SDL_KEYDOWN SDLK_LEFT, 0%nat)]
         (mkMain tower_board 0 false true)
       = Some (mkMain b' 0 true false))
    ∧ ([(SDL_KEYDOWN SDLK_LEFT, 0%nat)] ≫= event_command ≠ [] →
       main_pass 20 0 0 [(SDL_KEYDOWN SDLK_DOWN, 0%nat); (SDL_KEYDOWN SDLK_LEFT, 0%nat)]
         (mkMain tower_board 0 false true)
       = None).
Proof.
  eexists. split; [vm_compute; reflexivity|].
  apply (key_game_over_then_keys 20 0 0 (SDL_KEYDOWN SDLK_DOWN, 0%nat) DOWN 0%nat
           [(SDL_KEYDOWN SDLK_LEFT, 0%nat)] (mkMain tower_board 0 false true)).
  - cbn. lia.
  - reflexivity.
  - vm_compute. reflexivity.
Defined.

(** X21.  The loop of [main] plays the commands of its passes.  As long as
    no call of [Board::update] ends the game, the board after the passes is
    the one that the commands of the passes give, in order and up to the
    pass that sets [quit]; the passes that follow are not run. *)
Theorem main_loop_plays_the_commands fuel passes st b' :
  updateSuccess st = true →
  updates fuel (loop_commands passes (gravityDeadline st) (quit st)) (board st)
  = Some (true, b') →
  ∃ st', main_loop fuel passes st = Some st'
         ∧ board st' = b' ∧ updateSuccess st' = true.
Proof.
  revert st. induction passes as [|[[now rd] events] passes IH]; intros st Hus;
    cbn [loop_commands main_loop].
  - intros [= <-]. by exists st.
  - destruct (quit st) eqn:Hq.
    + intros [= <-]. by exists st.
    + intros Hup. rewrite app_assoc in Hup.
      apply updates_app in Hup as (b1 & Hup1 & Hup2).
      pose proof (handle_events_play fuel events) as Hev.
      assert (main_pass fuel now rd events st
              = Some (mkMain b1
                   (if gravityDeadline st <? now
                    then now + seconds GRAVITY_DURATION_SECONDS else gravityDeadline st)
                   (existsb is_quit events) true)) as ->.
      { unfold main_pass. destruct (gravityDeadline st <? now).
        - cbn [app updates] in Hup1. cbv zeta.
          destruct (update fuel DOWN rd (board st)) as [[ok b0]|]; [|done].
          rewrite !option_bind_Some in *. destruct ok; [|done].
          rewrite (Hev _ b1); [|done|done].
          by cbn [gravityDeadline quit]; rewrite Hq.
        - cbn [app] in Hup1. rewrite option_bind_Some.
          rewrite (Hev _ b1); [|done|done]. by rewrite Hq. }
      rewrite option_bind_Some. by apply IH.
Qed.

Lemma main_loop_plays_the_commands_witness :
  ∃ b',
    updates 20 [(DOWN, 0%nat); (LEFT, 0%nat); (DOWN, 0%nat); (RIGHT, 0%nat)]
      (Board_ctor 0) = Some (true, b')
    ∧ ∃ st', main_loop 20
               [(1, 0%nat, [(SDL_KEYDOWN SDLK_LEFT, 0%nat)]);
                (seconds 2, 0%nat, [(SDL_QUIT, 0%nat); (SDL_KEYDOWN SDLK_RIGHT, 0%nat)]);
                (seconds 4, 0%nat, [(SDL_KEYDOWN SDLK_UP, 0%nat)])]
               (main_init 0 0) = Some st'
             ∧ board st' = b' ∧ updateSuccess st' = true.
Proof.
  eexists. split; [vm_compute; reflexivity|].
  apply (main_loop_plays_the_commands 20
           [(1, 0%nat, [(SDL_KEYDOWN SDLK_LEFT, 0%nat)]);
            (seconds 2, 0%nat, [(SDL_QUIT, 0%nat); (SDL_KEYDOWN SDLK_RIGHT, 0%nat)]);
            (seconds 4, 0%nat, [(SDL_KEYDOWN SDLK_UP, 0%nat)])]
           (main_init 0 0)).
  - reflexivity.
  - vm_compute. reflexivity.
Defined.
